(** * Account statements and customer history: a shallow embedding

    The development follows two components of the dairy vendor's
    front end:

    - [src/pages/Statements.tsx]: the transaction aggregator, the summary
      totals, the quick-period shortcuts and the three renderings of a
      statement (on-screen table, PDF document, CSV file);
    - [src/components/Customers/CustomerDetailsModal.tsx]: the order
      history of one customer.

    Conventions of the embedding.

    - A JavaScript [number] is a finite double, written as the exact
      rational it denotes ([Q]); equality of amounts is [Qeq].  The
      arithmetic of the language rounds: [x + y], [x - y] and [x * y] are
      the double nearest to the exact result, ties to even
      ([JS.NumberValue]).  The sign of zero, which no operation of the
      components observes, is dropped.  [NaN] and the infinities are
      outside the model: an operation whose result is not finite
      ([JS.isFinite]) is not described, and the statements that fix the
      value of a sum, a difference or a product assume it is.
    - A JavaScript string is a [string] of bytes; the rupee sign is its
      three UTF-8 bytes.
    - The data layer ([useData]) and the date library ([date-fns], [Date])
      are interfaces: type classes whose methods the components call.
      A concrete calendar instance is given at the end of the definitions.
    - Code that can throw returns [option]; [None] is the exception. *)

From Stdlib Require Import ZArith QArith Qround Qabs Qpower List String Ascii Bool Lia Lqa.
From Stdlib Require Import Permutation Sorted DecimalString DecimalZ DecimalN.
Import ListNotations.

Local Open Scope string_scope.
Local Open Scope Z_scope.

(** ** ECMAScript built-ins used by the two components *)

Module JS.

(** [number]: see the conventions above.  The printing and rounding
    functions start from the reduced fraction, so that they depend on
    the value only. *)
Definition number := Q.

(** The double quote, U+0022. *)
Definition dquote : ascii := ascii_of_nat 34.

(** The line feed, U+000A. *)
Definition LF : ascii := ascii_of_nat 10.

(** Decimal digits of a natural number, most significant first, without
    leading zeros; ["0"] for zero. *)
Definition digits (n : Z) : string :=
  NilZero.string_of_uint (N.to_uint (Z.to_N n)).

Fixpoint repeat_char (c : ascii) (n : nat) : string :=
  match n with
  | O => EmptyString
  | S n' => String c (repeat_char c n')
  end.

(** [s.substring(0, n)] and [s.substring(n)]. *)
Fixpoint take (n : nat) (s : string) : string :=
  match n, s with
  | S n', String c r => String c (take n' r)
  | _, _ => EmptyString
  end.

Fixpoint drop (n : nat) (s : string) : string :=
  match n, s with
  | S n', String c r => drop n' r
  | _, _ => s
  end.

Definition pow10 (z : Z) : Q := Qpower (inject_Z 10) z.

Definition pow2 (z : Z) : Q := Qpower (inject_Z 2) z.

(** The integer [l] with [2^l <= x < 2^(l+1)], for [0 < x]. *)
Definition ilog2 (x : Q) : Z :=
  let g := Z.log2 (Qnum x) - Z.log2 (Zpos (Qden x)) in
  if Qle_bool (pow2 g) x then g else g - 1.

(** The integer nearest to [r], the even one when [r] lies half way
    between two. *)
Definition roundTiesToEven (r : Q) : Z :=
  let f := Qfloor r in
  match Qcompare (r - inject_Z f) (1 # 2) with
  | Lt => f
  | Gt => f + 1
  | Eq => if Z.even f then f else f + 1
  end.

(** The Number value for a real [x]: the double nearest to [x], ties to
    even, as a rational.  A double is [m * 2^e] with [m < 2^53] and
    [-1074 <= e]; the exponent is the one of the binade of [x], or -1074
    below the normal range.  The exponent is not bounded above: a result
    of magnitude [2^1024] or more stands for an infinity, see
    [isFinite]. *)
Definition exponentOf (a : Q) : Z := Z.max (ilog2 a - 52) (-1074).

Definition NumberValue (x : Q) : number :=
  let x := Qred x in
  let a := Qabs x in
  if Qle_bool a 0 then 0%Q
  else
    let e := exponentOf a in
    let m := roundTiesToEven (a / pow2 e) in
    let r := Qred (inject_Z m * pow2 e) in
    if Qlt_le_dec x 0 then (- r)%Q else r.

(** The magnitude of [x] is below [2^1024]: the rounded result of an
    operation is a finite double and not an infinity. *)
Definition isFinite (x : number) : bool := negb (Qle_bool (pow2 1024) (Qabs x)).

(** [x + y], [x - y] and [x * y] on numbers: the exact result, rounded.
    The operands are doubles, which [NumberValue] leaves as they are; a
    rational that is no double is read as the double nearest to it, as a
    literal of the language is. *)
Definition add (x y : number) : number := NumberValue (NumberValue x + NumberValue y).
Definition sub (x y : number) : number := NumberValue (NumberValue x - NumberValue y).
Definition mul (x y : number) : number := NumberValue (NumberValue x * NumberValue y).

(** For [0 < x < 1]: how many times [x] is multiplied by ten before it
    reaches one tenth. *)
Fixpoint leading_zeros (fuel : nat) (x : Q) : nat :=
  match fuel with
  | O => O
  | S fuel' =>
      if Qle_bool (1 # 10) x then O else S (leading_zeros fuel' (x * inject_Z 10))
  end.

(** The integer [n] with [10^(n-1) <= x < 10^n], for [0 < x]. *)
Definition decimal_exponent (x : Q) : Z :=
  if Qle_bool 1 x then Z.of_nat (length (digits (Qfloor x)))
  else - Z.of_nat (leading_zeros (Pos.to_nat (Pos.size (Qden x))) x).

(** The candidates of [Number::toString] with [k] digits: the integers
    [s] next to [x / 10^(n-k)] for which the Number value of
    [s * 10^(n-k)] is [x].  Of two candidates the one nearer to [x] is
    taken, the even one when they are equally near, as the engines do
    (the language leaves the last digit open and recommends this
    choice). *)
Definition digits_of_length (x : Q) (n k : Z) : option Z :=
  let scale := pow10 (n - k) in
  let lo := Qfloor (x / scale) in
  let hi := lo + 1 in
  let ok s := Qeq_bool (NumberValue (inject_Z s * scale)) x in
  match ok lo, ok hi with
  | true, true =>
      match Qcompare (x - inject_Z lo * scale) (inject_Z hi * scale - x) with
      | Lt => Some lo
      | Gt => Some hi
      | Eq => Some (if Z.even lo then lo else hi)
      end
  | true, false => Some lo
  | false, true => Some hi
  | false, false => None
  end.

(** The triple [(s, k, n)] of [Number::toString]: [k >= 1] is the least
    number of digits for which there is an integer [s] of [k] digits
    such that the Number value of [s * 10^(n-k)] is [x].  A double needs
    at most 17 digits, and the search stops there. *)
Fixpoint shortest_digits (fuel : nat) (k : Z) (x : Q) (n : Z) : Z * Z * Z :=
  match fuel with
  | O => (Qfloor (x * pow10 (k - n)), k, n)
  | S fuel' =>
      match digits_of_length x n k with
      | Some s => if s =? 10 ^ k then (10 ^ (k - 1), k, n + 1) else (s, k, n)
      | None => shortest_digits fuel' (k + 1) x n
      end
  end.

(** [Number::toString(x, 10)] on a non-negative value, steps 5 to 10.
    The argument is a double; a rational that is none is read as the
    double nearest to it. *)
Definition toString_nonneg (x : Q) : string :=
  let x := NumberValue x in
  if Qle_bool x 0 then "0"
  else
    let '(s, k, n) := shortest_digits 17 1 x (decimal_exponent x) in
    let ds := digits s in
    if (k <=? n) && (n <=? 21) then
      ds ++ repeat_char "0" (Z.to_nat (n - k))
    else if (0 <? n) && (n <=? 21) then
      take (Z.to_nat n) ds ++ "." ++ drop (Z.to_nat n) ds
    else if (-6 <? n) && (n <=? 0) then
      "0." ++ repeat_char "0" (Z.to_nat (- n)) ++ ds
    else
      let e := (if 0 <=? n - 1 then "+" else "-") ++ digits (Z.abs (n - 1)) in
      if k =? 1 then ds ++ "e" ++ e
      else take 1 ds ++ "." ++ drop 1 ds ++ "e" ++ e.

(** [Number::toString(x, 10)], also the conversion a template literal
    applies to a number. *)
Definition Number_toString (x : Q) : string :=
  let x := Qred x in
  if Qlt_le_dec x 0 then "-" ++ toString_nonneg (Qabs x) else toString_nonneg x.

(** [Number.prototype.toFixed(f)].  The sign is split off first; a
    magnitude at or above [10^21] is printed by [Number::toString], in
    exponential notation;
    otherwise [n] is the integer nearest to [x * 10^f], the larger one
    on a tie, printed with [f] digits after the point. *)
Definition toFixed (x : Q) (f : nat) : string :=
  let x := Qred x in
  let s := if Qlt_le_dec x 0 then "-" else "" in
  let x := Qabs x in
  let m :=
    if Qle_bool (inject_Z (10 ^ 21)) x then toString_nonneg x
    else
      let n := Qfloor (x * inject_Z (10 ^ Z.of_nat f) + (1 # 2)) in
      let m := digits n in
      match f with
      | O => m
      | _ =>
          let k := length m in
          let m := if (k <=? f)%nat then repeat_char "0" (f + 1 - k) ++ m else m in
          let k := if (k <=? f)%nat then (f + 1)%nat else k in
          take (k - f) m ++ "." ++ drop (k - f) m
      end
  in s ++ m.

(** [arr.join(sep)] on an array of strings. *)
Fixpoint join (sep : string) (l : list string) : string :=
  match l with
  | [] => ""
  | [x] => x
  | x :: r => x ++ sep ++ join sep r
  end.

(** [String.prototype.replace] with the global pattern that matches one
    double quote and the replacement made of two: every double quote of
    [s] is doubled. *)
Fixpoint replace_quotes (s : string) : string :=
  match s with
  | EmptyString => EmptyString
  | String c r =>
      if Ascii.eqb c dquote
      then String dquote (String dquote (replace_quotes r))
      else String c (replace_quotes r)
  end.

(** [arr.reduce((acc, x) => f(acc, x), init)]. *)
Definition reduce {A B : Type} (f : B -> A -> B) (init : B) (l : list A) : B :=
  fold_left f l init.

(** What the language leaves to the implementation: the order in which
    [sort] leaves an array when the comparator is not consistent.  It is
    some rearrangement of the array. *)
Class Engine := {
  sort_implementation_defined :
    forall A : Type, (A -> A -> option Z) -> list A -> list A;
  sort_implementation_defined_Permutation :
    forall (A : Type) (comparefn : A -> A -> option Z) (l : list A),
      Permutation l (sort_implementation_defined A comparefn l)
}.

(** [Array.prototype.sort(comparefn)].  The comparator returns a number,
    [None] standing for [NaN].  The language fixes the result for a
    comparator that is consistent on the values of the array: the stable
    arrangement in which [a] precedes [b] whenever [comparefn(a, b) < 0].
    It is computed here by a stable insertion: an element moves right
    past exactly those elements it is strictly greater than.  For any
    other comparator, one that returns [NaN] among them, the order is
    the implementation's. *)
Section Sort.
Context {engine : Engine} {A : Type} (comparefn : A -> A -> option Z).

Definition SortCompare (x y : A) : Z :=
  match comparefn x y with
  | Some v => v
  | None => 0
  end.

Fixpoint sort_insert (x : A) (l : list A) : list A :=
  match l with
  | [] => [x]
  | y :: r => if 0 <? SortCompare x y then y :: sort_insert x r else x :: y :: r
  end.

Fixpoint stable_sort (l : list A) : list A :=
  match l with
  | [] => []
  | x :: r => sort_insert x (stable_sort r)
  end.

(** [comparefn(a, b)] is a number below, equal to or above zero. *)
Definition cmp_lt (a b : A) : bool :=
  match comparefn a b with Some v => v <? 0 | None => false end.
Definition cmp_eq (a b : A) : bool :=
  match comparefn a b with Some v => v =? 0 | None => false end.
Definition cmp_gt (a b : A) : bool :=
  match comparefn a b with Some v => 0 <? v | None => false end.

(** The comparator is consistent on the values of [l]: it returns a
    number that is not [NaN] for every pair, every value equals itself,
    equality is symmetric and transitive, and so are below and above. *)
Definition consistent (l : list A) : bool :=
  forallb (fun a =>
    cmp_eq a a &&
    forallb (fun b =>
      (cmp_lt a b || cmp_eq a b || cmp_gt a b) &&
      (negb (cmp_eq a b) || cmp_eq b a) &&
      forallb (fun c =>
        (negb (cmp_eq a b && cmp_eq b c) || cmp_eq a c) &&
        (negb (cmp_lt a b && cmp_lt b c) || cmp_lt a c) &&
        (negb (cmp_gt a b && cmp_gt b c) || cmp_gt a c)) l) l) l.

Definition sort (l : list A) : list A :=
  if consistent l then stable_sort l
  else sort_implementation_defined A comparefn l.
End Sort.

(** The comparison [x > y] of two numbers. *)
Definition gt (x y : number) : bool := negb (Qle_bool x y).

(** [arr.find(p)]. *)
Definition find {A : Type} (p : A -> bool) (l : list A) : option A := List.find p l.

(** Subtraction of two time values, [NaN] when either is. *)
Definition time_sub (a b : option Z) : option Z :=
  match a, b with
  | Some x, Some y => Some (x - y)
  | _, _ => None
  end.

End JS.

(** ** Exceptions

    A computation that may throw is an [option]; [None] is the thrown
    exception, which the components never catch. *)

Definition bind {A B : Type} (m : option A) (k : A -> option B) : option B :=
  match m with
  | Some a => k a
  | None => None
  end.

Notation "x <- m ;; k" := (bind m (fun x => k))
  (at level 61, m at next level, right associativity).

(** [arr.map(f)] with a callback that may throw: the first exception
    aborts the traversal. *)
Fixpoint mapM {A B : Type} (f : A -> option B) (l : list A) : option (list B) :=
  match l with
  | [] => Some []
  | x :: r => y <- f x ;; ys <- mapM f r ;; Some (y :: ys)
  end.

(** ** The date library

    [Date] objects with the operations the components use.  [getTime] is
    [None] for an invalid date ([NaN]); [format] is [None] where date-fns
    throws a [RangeError], as it does on an invalid date. *)

Class DateFns := {
  Date : Type;
  new_Date : string -> Date;
  parseISO : string -> Date;
  getTime : Date -> option Z;
  format : Date -> string -> option string;
  startOfWeek : Date -> Date;
  endOfWeek : Date -> Date;
  startOfMonth : Date -> Date;
  endOfMonth : Date -> Date
}.

(** ** The data model *)

Module OrderItem.
(** Modelled from the spec: the line item of [src/types], a file that is
    not among the sources; the fields are those the components read. *)
Record t := {
  productName : string;
  quantity : JS.number;
  price : JS.number
}.
End OrderItem.

Module Order.
(** Modelled from the spec: the order of [src/types]; the fields are
    those the components read. *)
Record t := {
  id : string;
  customerId : string;
  customerName : string;
  orderDate : string;
  status : string;
  items : list OrderItem.t;
  totalAmount : JS.number
}.
End Order.

Module Payment.
(** Modelled from the spec: the payment of [src/types]; the components
    read its date, amount and customer name, and it belongs to one
    customer. *)
Record t := {
  id : string;
  customerId : string;
  customerName : string;
  paymentDate : string;
  amount : JS.number
}.
End Payment.

Module Customer.
(** Modelled from the spec: the customer of [src/types]; the fields are
    those the components read. *)
Record t := {
  id : string;
  name : string;
  phone : string;
  address : string;
  totalAmount : JS.number;
  paidAmount : JS.number;
  pendingBalance : JS.number
}.
End Customer.

(** The argument of the two filtered queries: [customer] is [undefined]
    ([None]) when no customer is selected. *)
Module FilterParams.
Record t := {
  customer : option string;
  dateFrom : string;
  dateTo : string
}.
End FilterParams.

(** ** The data layer ([useData], from [contexts/DataContext]) *)

Class DataContext := {
  customers : list Customer.t;
  orders : list Order.t;
  getFilteredOrders : FilterParams.t -> list Order.t;
  getFilteredPayments : FilterParams.t -> list Payment.t
}.

(** The rupee sign U+20B9, in UTF-8. *)
Definition rupee : string :=
  String (ascii_of_nat 226) (String (ascii_of_nat 130) (String (ascii_of_nat 185) EmptyString)).

(** The template shared by every view: the rupee sign followed by
    [x.toFixed(2)]. *)
Definition currency (x : JS.number) : string := rupee ++ JS.toFixed x 2.

(** ** [src/pages/Statements.tsx] *)

Module Statements.

Inductive TransactionType := order | payment.

Record Transaction := {
  date : string;
  type : TransactionType;
  description : string;
  billed : JS.number;
  paid : JS.number;
  customerName : string
}.

(** The component state kept by [useState]. *)
Record Filters := {
  customer : string;
  dateFrom : string;
  dateTo : string;
  period : string
}.

(** One call into jsPDF or its autotable plug-in. *)
Record AutoTableOptions := {
  head : list (list string);
  body : list (list string);
  startY : Z;
  styles_fontSize : Z;
  headStyles_fillColor : list Z;
  columnStyles_halign_right : list Z
}.

Inductive PdfCall :=
| setFontSize (size : Z)
| text (s : string) (x y : Z)
| autoTable (options : AutoTableOptions)
| save (filename : string).

(** What [exportToCSV] hands to the browser. *)
Record Download := {
  csvContent : string;
  blob_type : string;
  download : string
}.

(** The part of the rendered page that depends on the statement. *)
Inductive TransactionDetails :=
| NoTransactions (heading hint : string)
| Table (thead : list string) (tbody : list (list string)).

Record View := {
  activePeriodButtons : list string;
  dateFromInput : string;
  dateToInput : string;
  customerSelect : string;
  totalAmountCard : string;
  receivedAmountCard : string;
  pendingAmountCard : string;
  details : TransactionDetails
}.

Section Component.
Context {engine : JS.Engine} {dates : DateFns} {data : DataContext}.

(** The layout result [doc.lastAutoTable.finalY] of the plug-in. *)
Variable lastAutoTable_finalY : AutoTableOptions -> Z.

(** Initial state, [now] being [new Date()]. *)
Definition initialFilters (now : Date) : option Filters :=
  from <- format (startOfMonth now) "yyyy-MM-dd" ;;
  to <- format (endOfMonth now) "yyyy-MM-dd" ;;
  Some {| customer := ""; dateFrom := from; dateTo := to; period := "month" |}.

Definition filterParams (filters : Filters) : FilterParams.t :=
  {| FilterParams.customer :=
       if String.eqb (customer filters) "" then None else Some (customer filters);
     FilterParams.dateFrom := dateFrom filters;
     FilterParams.dateTo := dateTo filters |}.

Definition orderTransaction (o : Order.t) : Transaction :=
  {| date := Order.orderDate o;
     type := order;
     description :=
       "Order: " ++
       JS.join ", "
         (map (fun i => JS.Number_toString (OrderItem.quantity i) ++ "x " ++
                        OrderItem.productName i)
              (Order.items o));
     billed := Order.totalAmount o;
     paid := 0%Q;
     customerName := Order.customerName o |}.

Definition paymentTransaction (p : Payment.t) : Transaction :=
  {| date := Payment.paymentDate p;
     type := payment;
     description := "Payment received";
     billed := 0%Q;
     paid := Payment.amount p;
     customerName := Payment.customerName p |}.

Definition combined (filters : Filters) : list Transaction :=
  (map orderTransaction (getFilteredOrders (filterParams filters)) ++
   map paymentTransaction (getFilteredPayments (filterParams filters)))%list.

(** The comparator handed to [sort]. *)
Definition compareByDate (a b : Transaction) : option Z :=
  JS.time_sub (getTime (parseISO (date a))) (getTime (parseISO (date b))).

Definition transactions (filters : Filters) : list Transaction :=
  JS.sort compareByDate (combined filters).

Definition handlePeriodChange (filters : Filters) (today : Date) (period : string)
  : option Filters :=
  dateTo0 <- format today "yyyy-MM-dd" ;;
  bounds <-
    (if String.eqb period "today" then
       from <- format today "yyyy-MM-dd" ;; Some (from, dateTo0)
     else if String.eqb period "week" then
       from <- format (startOfWeek today) "yyyy-MM-dd" ;;
       to <- format (endOfWeek today) "yyyy-MM-dd" ;;
       Some (from, to)
     else if String.eqb period "month" then
       from <- format (startOfMonth today) "yyyy-MM-dd" ;;
       to <- format (endOfMonth today) "yyyy-MM-dd" ;;
       Some (from, to)
     else Some (dateFrom filters, dateTo filters)) ;;
  Some {| customer := customer filters;
          dateFrom := fst bounds;
          dateTo := snd bounds;
          period := period |}.

(** The [onChange] handlers of the two date inputs and of the customer
    selector. *)
Definition onChangeDateFrom (filters : Filters) (value : string) : Filters :=
  {| customer := customer filters; dateFrom := value;
     dateTo := dateTo filters; period := "custom" |}.

Definition onChangeDateTo (filters : Filters) (value : string) : Filters :=
  {| customer := customer filters; dateFrom := dateFrom filters;
     dateTo := value; period := "custom" |}.

Definition onChangeCustomer (filters : Filters) (value : string) : Filters :=
  {| customer := value; dateFrom := dateFrom filters;
     dateTo := dateTo filters; period := period filters |}.

Definition totalBilled (txs : list Transaction) : JS.number :=
  JS.reduce (fun sum tx => JS.add sum (billed tx)) 0%Q txs.

Definition totalPaid (txs : list Transaction) : JS.number :=
  JS.reduce (fun sum tx => JS.add sum (paid tx)) 0%Q txs.

(** The cell of a Billed or Paid column in the table and in the PDF. *)
Definition amountCell (x : JS.number) : string :=
  if JS.gt x 0%Q then currency x else "-".

Definition includeCustomerName (filters : Filters) : bool :=
  String.eqb (customer filters) "".

(** The spread of an array that is present only under a condition. *)
Definition optional {A : Type} (c : bool) (l : list A) : list A :=
  if c then l else [].

(** Header and body rows of the PDF table ([head], [tableData]). *)
Definition pdfHead (filters : Filters) : list (list string) :=
  [("Date" :: optional (includeCustomerName filters) ["Customer"] ++
    ["Description"; "Billed"; "Paid"])%list].

Definition pdfRow (filters : Filters) (tx : Transaction) : option (list string) :=
  d <- format (new_Date (date tx)) "dd/MM/yyyy" ;;
  Some (d :: optional (includeCustomerName filters) [customerName tx] ++
        [description tx; amountCell (billed tx); amountCell (paid tx)])%list.

Definition generatePDF (filters : Filters) : option (list PdfCall) :=
  let txs := transactions filters in
  let includeCustomerName := includeCustomerName filters in
  from <- format (parseISO (dateFrom filters)) "MMM dd, yyyy" ;;
  to <- format (parseISO (dateTo filters)) "MMM dd, yyyy" ;;
  let customerLine :=
    if String.eqb (customer filters) "" then []
    else
      let customer := JS.find (fun c => String.eqb (Customer.id c) (customer filters))
                              customers in
      let name := match customer with
                  | Some c => if String.eqb (Customer.name c) ""
                              then "All Customers" else Customer.name c
                  | None => "All Customers"
                  end in
      [text ("Customer: " ++ name) 20 48] in
  tableData <- mapM (pdfRow filters) txs ;;
  let options :=
    {| head := pdfHead filters;
       body := tableData;
       startY := 60;
       styles_fontSize := 9;
       headStyles_fillColor := [14; 165; 233];
       columnStyles_halign_right :=
         [if includeCustomerName then 3 else 2;
          if includeCustomerName then 4 else 3] |} in
  let finalY := lastAutoTable_finalY options + 15 in
  Some ([setFontSize 20;
         text "Jay Goga Milk Supplier" 20 20;
         setFontSize 14;
         text "Account Statement" 20 30;
         setFontSize 10;
         text ("Period: " ++ from ++ " to " ++ to) 20 40] ++
        customerLine ++
        [autoTable options;
         setFontSize 12;
         text ("Total Amount: " ++ currency (totalBilled txs)) 20 finalY;
         text ("Received Amount: " ++ currency (totalPaid txs)) 20 (finalY + 8);
         setFontSize 14;
         text ("Pending Amount: " ++ currency (JS.sub (totalBilled txs) (totalPaid txs)))
              20 (finalY + 20);
         save ("account-statement-" ++ dateFrom filters ++ "-to-" ++
               dateTo filters ++ ".pdf")])%list.

(** One CSV field: the cell between double quotes, its own double
    quotes doubled. *)
Definition csvField (cell : string) : string :=
  String JS.dquote (JS.replace_quotes cell ++ String JS.dquote EmptyString).

Definition csvRow (row : list string) : string :=
  JS.join "," (map csvField row).

(** [headers], one row of [csvData], and [totalRow]. *)
Definition csvHeaders (filters : Filters) : list string :=
  ("Date" :: optional (includeCustomerName filters) ["Customer"] ++
   ["Description"; "Billed"; "Paid"])%list.

Definition csvDataRow (filters : Filters) (tx : Transaction) : option (list string) :=
  d <- format (new_Date (date tx)) "yyyy-MM-dd" ;;
  Some (d :: optional (includeCustomerName filters) [customerName tx] ++
        [description tx; JS.toFixed (billed tx) 2; JS.toFixed (paid tx) 2])%list.

Definition csvTotalRow (filters : Filters) (txs : list Transaction) : list string :=
  ("" :: optional (includeCustomerName filters) [""] ++
   ["Total"; JS.toFixed (totalBilled txs) 2; JS.toFixed (totalPaid txs) 2])%list.

(** The rows [[headers, ...csvData, [], totalRow]] of [exportToCSV]. *)
Definition csvTable (filters : Filters) : option (list (list string)) :=
  let txs := transactions filters in
  csvData <- mapM (csvDataRow filters) txs ;;
  Some ([csvHeaders filters] ++ csvData ++ [[]] ++ [csvTotalRow filters txs])%list.

Definition exportToCSV (filters : Filters) : option Download :=
  rows <- csvTable filters ;;
  let csvContent := JS.join (String JS.LF EmptyString) (map csvRow rows) in
  Some {| csvContent := csvContent;
          blob_type := "text/csv;charset=utf-8;";
          download := "account-statement-" ++ dateFrom filters ++ "-to-" ++
                      dateTo filters ++ ".csv" |}.

(** Header cells and one body row of the on-screen table. *)
Definition tableHead (filters : Filters) : list string :=
  ("Date" :: optional (String.eqb (customer filters) "") ["Customer"] ++
   ["Description"; "Billed"; "Paid"])%list.

Definition tableRow (filters : Filters) (tx : Transaction) : option (list string) :=
  d <- format (new_Date (date tx)) "MMM dd, yyyy" ;;
  Some (d :: optional (String.eqb (customer filters) "") [customerName tx] ++
        [description tx; amountCell (billed tx); amountCell (paid tx)])%list.

(** The rendered page: filter controls, summary cards, transaction
    details. *)
Definition render (filters : Filters) : option View :=
  let txs := transactions filters in
  details <-
    (if (List.length txs =? 0)%nat then
       Some (NoTransactions "No transactions found"
                            "Try adjusting your filters to see results")
     else
       rows <- mapM (tableRow filters) txs ;;
       Some (Table (tableHead filters) rows)) ;;
  Some {| activePeriodButtons :=
            filter (fun p => String.eqb (period filters) p) ["today"; "week"; "month"];
          dateFromInput := dateFrom filters;
          dateToInput := dateTo filters;
          customerSelect := customer filters;
          totalAmountCard := currency (totalBilled txs);
          receivedAmountCard := currency (totalPaid txs);
          pendingAmountCard := currency (JS.sub (totalBilled txs) (totalPaid txs));
          details := details |}.

End Component.

End Statements.

(** ** [src/components/Customers/CustomerDetailsModal.tsx] *)

Module CustomerDetailsModal.

(** One line item of an order card. *)
Record ItemLine := {
  item_label : string;
  item_unitPrice : string;
  item_lineTotal : string
}.

(** One order of the history. *)
Record OrderCard := {
  card_key : string;
  card_title : string;
  card_status : string;
  card_delivered : bool;
  card_lines : list ItemLine;
  card_total : string
}.

Inductive OrderHistory :=
| NoOrders (message : string)
| Orders (cards : list OrderCard).

Record View := {
  heading : string;
  info_name : string;
  info_phone : string;
  info_address : string;
  totalBilled : string;
  totalPaid : string;
  pending : string;
  history : OrderHistory
}.

Section Component.
Context {engine : JS.Engine} {dates : DateFns} {data : DataContext}.

(** The comparator handed to [sort]: the later order first. *)
Definition compareByDateDesc (a b : Order.t) : option Z :=
  JS.time_sub (getTime (parseISO (Order.orderDate b)))
              (getTime (parseISO (Order.orderDate a))).

Definition customerOrders (customer : Customer.t) : list Order.t :=
  JS.sort compareByDateDesc
    (filter (fun order => String.eqb (Order.customerId order) (Customer.id customer))
            orders).

Definition renderItem (item : OrderItem.t) : ItemLine :=
  {| item_label := JS.Number_toString (OrderItem.quantity item) ++ "x " ++
                   OrderItem.productName item;
     item_unitPrice := "(@ " ++ currency (OrderItem.price item) ++ ")";
     item_lineTotal := currency (JS.mul (OrderItem.price item) (OrderItem.quantity item)) |}.

Definition renderOrder (order : Order.t) : option OrderCard :=
  d <- format (parseISO (Order.orderDate order)) "MMM dd, yyyy" ;;
  Some {| card_key := Order.id order;
          card_title := "Order on " ++ d;
          card_status := Order.status order;
          card_delivered := String.eqb (Order.status order) "delivered";
          card_lines := map renderItem (Order.items order);
          card_total := "Order Total: " ++ currency (Order.totalAmount order) |}.

Definition render (customer : Customer.t) : option View :=
  let customerOrders := customerOrders customer in
  history <-
    (if (0 <? List.length customerOrders)%nat then
       cards <- mapM renderOrder customerOrders ;; Some (Orders cards)
     else Some (NoOrders "No orders placed by this customer yet.")) ;;
  Some {| heading := Customer.name customer ++ "'s Account";
          info_name := Customer.name customer;
          info_phone := Customer.phone customer;
          info_address := Customer.address customer;
          totalBilled := currency (Customer.totalAmount customer);
          totalPaid := currency (Customer.paidAmount customer);
          pending := currency (Customer.pendingBalance customer);
          history := history |}.

End Component.

End CustomerDetailsModal.

(** ** A calendar: an instance of the date library

    Time values are milliseconds since the epoch; local time is UTC
    shifted by a fixed [offset] in minutes.  A [Date] is its time value,
    [None] for an invalid date.  The parsers read the calendar-date form
    [yyyy-MM-dd], the one the application stores; [format] knows the
    tokens the components use ([yyyy], [MM], [dd], [MMM]). *)

Module Calendar.

Definition msPerDay : Z := 86400000.
Definition msPerMinute : Z := 60000.

Definition isLeapYear (y : Z) : bool :=
  ((y mod 4 =? 0) && negb (y mod 100 =? 0)) || (y mod 400 =? 0).

Definition daysInMonth (y m : Z) : Z :=
  if m =? 2 then (if isLeapYear y then 29 else 28)
  else if (m =? 4) || (m =? 6) || (m =? 9) || (m =? 11) then 30
  else 31.

(** Day number of a civil date, day 0 being 1970-01-01. *)
Definition days_from_civil (y m d : Z) : Z :=
  let y := if m <=? 2 then y - 1 else y in
  let era := y / 400 in
  let yoe := y - era * 400 in
  let doy := (153 * (if 2 <? m then m - 3 else m + 9) + 2) / 5 + d - 1 in
  let doe := yoe * 365 + yoe / 4 - yoe / 100 + doy in
  era * 146097 + doe - 719468.

(** Civil date (year, month, day) of a day number. *)
Definition civil_from_days (z : Z) : Z * Z * Z :=
  let z := z + 719468 in
  let era := z / 146097 in
  let doe := z - era * 146097 in
  let yoe := (doe - doe / 1460 + doe / 36524 - doe / 146096) / 365 in
  let y := yoe + era * 400 in
  let doy := doe - (365 * yoe + yoe / 4 - yoe / 100) in
  let mp := (5 * doy + 2) / 153 in
  let d := doy - (153 * mp + 2) / 5 + 1 in
  let m := if mp <? 10 then mp + 3 else mp - 9 in
  (if m <=? 2 then y + 1 else y, m, d).

Definition digit_value (c : ascii) : option Z :=
  let n := Z.of_nat (nat_of_ascii c) in
  if (48 <=? n) && (n <=? 57) then Some (n - 48) else None.

Definition two_digits (a b : ascii) : option Z :=
  x <- digit_value a ;; y <- digit_value b ;; Some (10 * x + y).

(** The fields of a [yyyy-MM-dd] string that names a day of the
    calendar. *)
Definition parse_calendar_date (s : string) : option (Z * Z * Z) :=
  match s with
  | String y1 (String y2 (String y3 (String y4 (String h1
      (String m1 (String m2 (String h2 (String d1 (String d2 EmptyString))))))))) =>
      if Ascii.eqb h1 "-" && Ascii.eqb h2 "-" then
        yh <- two_digits y1 y2 ;;
        yl <- two_digits y3 y4 ;;
        m <- two_digits m1 m2 ;;
        d <- two_digits d1 d2 ;;
        let y := 100 * yh + yl in
        if (1 <=? m) && (m <=? 12) && (1 <=? d) && (d <=? daysInMonth y m)
        then Some (y, m, d) else None
      else None
  | _ => None
  end.

Definition addLeadingZeros (n : Z) (targetLength : nat) : string :=
  let ds := JS.digits (Z.abs n) in
  (if n <? 0 then "-" else "") ++ JS.repeat_char "0" (targetLength - length ds) ++ ds.

Definition monthName (m : Z) : string :=
  nth (Z.to_nat (m - 1))
      ["Jan"; "Feb"; "Mar"; "Apr"; "May"; "Jun"; "Jul"; "Aug"; "Sep"; "Oct"; "Nov"; "Dec"]
      "".

Definition isLetter (c : ascii) : bool :=
  let n := nat_of_ascii c in
  ((65 <=? n) && (n <=? 90) || (97 <=? n) && (n <=? 122))%nat.

(** The pattern is read token by token; a letter that starts no known
    token raises the [RangeError]. *)
Fixpoint format_tokens (fuel : nat) (pattern : string) (y m d : Z) : option string :=
  match fuel with
  | O => Some ""
  | S fuel' =>
      match pattern with
      | EmptyString => Some ""
      | String c rest =>
          if prefix "yyyy" pattern then
            r <- format_tokens fuel' (JS.drop 4 pattern) y m d ;;
            Some (addLeadingZeros (if 0 <? y then y else 1 - y) 4 ++ r)
          else if prefix "MMM" pattern then
            r <- format_tokens fuel' (JS.drop 3 pattern) y m d ;;
            Some (monthName m ++ r)
          else if prefix "MM" pattern then
            r <- format_tokens fuel' (JS.drop 2 pattern) y m d ;;
            Some (addLeadingZeros m 2 ++ r)
          else if prefix "dd" pattern then
            r <- format_tokens fuel' (JS.drop 2 pattern) y m d ;;
            Some (addLeadingZeros d 2 ++ r)
          else if isLetter c then None
          else
            r <- format_tokens fuel' rest y m d ;;
            Some (String c r)
      end
  end.

(** The [yyyy-MM-dd] form of a civil date. *)
Definition isoDate (ymd : Z * Z * Z) : string :=
  let '(y, m, d) := ymd in
  addLeadingZeros (if 0 <? y then y else 1 - y) 4 ++ "-" ++
  addLeadingZeros m 2 ++ "-" ++ addLeadingZeros d 2.

Section Zone.
(** Minutes by which local time is ahead of UTC. *)
Variable offset : Z.

Definition toLocal (t : Z) : Z := t + offset * msPerMinute.
Definition fromLocal (l : Z) : Z := l - offset * msPerMinute.

(** Local day number of a time value. *)
Definition localDay (t : Z) : Z := toLocal t / msPerDay.

(** [getDay()]: 0 is Sunday; day 0 of the epoch was a Thursday. *)
Definition getDay (t : Z) : Z := (localDay t + 4) mod 7.

Definition startOfDay (day : Z) : Z := fromLocal (day * msPerDay).
Definition endOfDay (day : Z) : Z := fromLocal (day * msPerDay + msPerDay - 1).

(** [new Date(s)]: a date-only string is midnight UTC.  A day that its
    month does not have is no date, as in the ISO format of the language
    (an engine may instead roll it over). *)
Definition newDate (s : string) : option Z :=
  ymd <- parse_calendar_date s ;;
  let '(y, m, d) := ymd in Some (days_from_civil y m d * msPerDay).

(** [parseISO(s)]: midnight in local time. *)
Definition parseISO (s : string) : option Z :=
  ymd <- parse_calendar_date s ;;
  let '(y, m, d) := ymd in Some (startOfDay (days_from_civil y m d)).

Definition format (date : option Z) (pattern : string) : option string :=
  t <- date ;;
  let '(y, m, d) := civil_from_days (localDay t) in
  format_tokens (length pattern) pattern y m d.

(** Week starting on Sunday, the default of the library. *)
Definition startOfWeek (date : option Z) : option Z :=
  t <- date ;; Some (startOfDay (localDay t - getDay t)).

Definition endOfWeek (date : option Z) : option Z :=
  t <- date ;; Some (endOfDay (localDay t + (6 - getDay t))).

Definition startOfMonth (date : option Z) : option Z :=
  t <- date ;;
  let '(y, m, _) := civil_from_days (localDay t) in
  Some (startOfDay (days_from_civil y m 1)).

Definition endOfMonth (date : option Z) : option Z :=
  t <- date ;;
  let '(y, m, _) := civil_from_days (localDay t) in
  Some (endOfDay (days_from_civil y m (daysInMonth y m))).

Definition dateFns : DateFns :=
  Build_DateFns (option Z) newDate parseISO (fun date => date) format
                startOfWeek endOfWeek startOfMonth endOfMonth.
End Zone.

End Calendar.

(** ** A data layer *)

Module Store.
Section Queries.
Context {dates : DateFns}.
Variables (cs : list Customer.t) (os : list Order.t) (ps : list Payment.t).

(** Modelled from the spec: the window test of the filtered queries of
    the data layer, whose code is not among the sources; a date lies in
    the window when it is on or after [dateFrom] and on or before
    [dateTo]. *)
Definition inWindow (d : string) (fp : FilterParams.t) : bool :=
  match getTime (parseISO d),
        getTime (parseISO (FilterParams.dateFrom fp)),
        getTime (parseISO (FilterParams.dateTo fp)) with
  | Some t, Some a, Some b => (a <=? t) && (t <=? b)
  | _, _, _ => false
  end.

(** Modelled from the spec: the customer test of the filtered queries;
    every customer matches when none is selected. *)
Definition matchesCustomer (customerId : string) (fp : FilterParams.t) : bool :=
  match FilterParams.customer fp with
  | Some c => String.eqb customerId c
  | None => true
  end.

(** Modelled from the spec: the data layer over stored lists; the
    queries return, in stored order, the records that pass both tests. *)
Definition dataContext : DataContext :=
  {| customers := cs;
     orders := os;
     getFilteredOrders fp :=
       filter (fun o => matchesCustomer (Order.customerId o) fp &&
                        inWindow (Order.orderDate o) fp) os;
     getFilteredPayments fp :=
       filter (fun p => matchesCustomer (Payment.customerId p) fp &&
                        inWindow (Payment.paymentDate p) fp) ps |}.
End Queries.
End Store.

(** ** A small ledger, used to run the definitions *)

Module Sample.

(** An engine that leaves the array as it is when the comparator is not
    consistent. *)
Definition engine : JS.Engine :=
  {| JS.sort_implementation_defined := fun A comparefn l => l;
     JS.sort_implementation_defined_Permutation := fun A comparefn l => Permutation_refl l |}.

Definition utc : DateFns := Calendar.dateFns 0.

Definition asha : Customer.t :=
  {| Customer.id := "c1"; Customer.name := "Asha"; Customer.phone := "98250";
     Customer.address := "Anand"; Customer.totalAmount := 150%Q;
     Customer.paidAmount := 60%Q; Customer.pendingBalance := 90%Q |}.

Definition bhavin : Customer.t :=
  {| Customer.id := "c2"; Customer.name := "Bhavin"; Customer.phone := "98251";
     Customer.address := "Nadiad"; Customer.totalAmount := (51 # 2)%Q;
     Customer.paidAmount := 40%Q; Customer.pendingBalance := (- (29 # 2))%Q |}.

Definition milk (q : Q) : OrderItem.t :=
  {| OrderItem.productName := "Milk 1L"; OrderItem.quantity := q; OrderItem.price := 50%Q |}.

Definition ghee : OrderItem.t :=
  {| OrderItem.productName := "Ghee"; OrderItem.quantity := (1 # 2)%Q;
     OrderItem.price := 51%Q |}.

Definition o1 : Order.t :=
  {| Order.id := "o1"; Order.customerId := "c1"; Order.customerName := "Asha";
     Order.orderDate := "2024-01-10"; Order.status := "pending";
     Order.items := [milk 1]; Order.totalAmount := 50%Q |}.

Definition o2 : Order.t :=
  {| Order.id := "o2"; Order.customerId := "c2"; Order.customerName := "Bhavin";
     Order.orderDate := "2024-01-07"; Order.status := "delivered";
     Order.items := [ghee]; Order.totalAmount := (51 # 2)%Q |}.

Definition o3 : Order.t :=
  {| Order.id := "o3"; Order.customerId := "c1"; Order.customerName := "Asha";
     Order.orderDate := "2024-01-05"; Order.status := "delivered";
     Order.items := [milk 2]; Order.totalAmount := 100%Q |}.

Definition p1 : Payment.t :=
  {| Payment.id := "p1"; Payment.customerId := "c1"; Payment.customerName := "Asha";
     Payment.paymentDate := "2024-01-10"; Payment.amount := 60%Q |}.

Definition p2 : Payment.t :=
  {| Payment.id := "p2"; Payment.customerId := "c2"; Payment.customerName := "Bhavin";
     Payment.paymentDate := "2024-01-02"; Payment.amount := 40%Q |}.

Definition data : DataContext :=
  @Store.dataContext utc [asha; bhavin] [o1; o2; o3] [p1; p2].

(** A ledger with one order of ten to the power 21 rupees. *)
Definition bulk : Order.t :=
  {| Order.id := "o9"; Order.customerId := "c1"; Order.customerName := "Asha";
     Order.orderDate := "2024-01-15"; Order.status := "pending";
     Order.items := []; Order.totalAmount := inject_Z (10 ^ 21) |}.

Definition bulkData : DataContext := @Store.dataContext utc [asha] [bulk] [].

Definition january : Statements.Filters :=
  {| Statements.customer := ""; Statements.dateFrom := "2024-01-01";
     Statements.dateTo := "2024-01-31"; Statements.period := "month" |}.

Definition januaryAsha : Statements.Filters :=
  {| Statements.customer := "c1"; Statements.dateFrom := "2024-01-01";
     Statements.dateTo := "2024-01-31"; Statements.period := "custom" |}.

Definition januaryBhavin : Statements.Filters :=
  {| Statements.customer := "c2"; Statements.dateFrom := "2024-01-01";
     Statements.dateTo := "2024-01-31"; Statements.period := "custom" |}.

Definition february : Statements.Filters :=
  {| Statements.customer := ""; Statements.dateFrom := "2024-02-01";
     Statements.dateTo := "2024-02-29"; Statements.period := "custom" |}.

(** The ledgers of two scenarios: one order of 100 and one payment of 60;
    two payments of 25.50 and 24.50. *)
Definition scenarioOrder : Order.t :=
  {| Order.id := "s1"; Order.customerId := "c1"; Order.customerName := "Asha";
     Order.orderDate := "2024-01-05"; Order.status := "delivered";
     Order.items := [milk 2]; Order.totalAmount := 100%Q |}.

Definition scenarioPayment (date : string) (amount : Q) : Payment.t :=
  {| Payment.id := "s2"; Payment.customerId := "c1"; Payment.customerName := "Asha";
     Payment.paymentDate := date; Payment.amount := amount |}.

Definition scenario1 : DataContext :=
  @Store.dataContext utc [asha] [scenarioOrder] [scenarioPayment "2024-01-10" 60%Q].

Definition scenario2 : DataContext :=
  @Store.dataContext utc [asha] []
    [scenarioPayment "2024-01-10" (51 # 2)%Q; scenarioPayment "2024-01-12" (49 # 2)%Q].

(** Amounts that are no binary fractions.  A literal such as [0.282]
    denotes the double nearest to it. *)
Definition paiseOrder (id date : string) (amount : Q) : Order.t :=
  {| Order.id := id; Order.customerId := "c1"; Order.customerName := "Asha";
     Order.orderDate := date; Order.status := "delivered";
     Order.items := []; Order.totalAmount := JS.NumberValue amount |}.

(** Three orders, stored latest first. *)
Definition paise : DataContext :=
  @Store.dataContext utc [asha]
    [paiseOrder "q1" "2024-01-03" (282 # 1000);
     paiseOrder "q2" "2024-01-02" (3 # 10);
     paiseOrder "q3" "2024-01-01" (93 # 1000)] [].

(** One order of 0.211 and one payment of 0.076; and the same amounts
    the other way round. *)
Definition small : DataContext :=
  @Store.dataContext utc [asha]
    [paiseOrder "q4" "2024-01-05" (211 # 1000)]
    [scenarioPayment "2024-01-10" (JS.NumberValue (76 # 1000))].

Definition smallOverpaid : DataContext :=
  @Store.dataContext utc [asha]
    [paiseOrder "q5" "2024-01-05" (76 # 1000)]
    [scenarioPayment "2024-01-10" (JS.NumberValue (211 # 1000))].

(** One and a half litres at 40.21, and a tenth of a litre. *)
Definition loose : Order.t :=
  {| Order.id := "o7"; Order.customerId := "c3"; Order.customerName := "Chetan";
     Order.orderDate := "2024-01-20"; Order.status := "pending";
     Order.items :=
       [{| OrderItem.productName := "Milk"; OrderItem.quantity := (3 # 2)%Q;
           OrderItem.price := JS.NumberValue (4021 # 100) |};
        {| OrderItem.productName := "Cream"; OrderItem.quantity := JS.NumberValue (1 # 10);
           OrderItem.price := 80%Q |}];
     Order.totalAmount := JS.NumberValue (6832 # 100) |}.

Definition chetan : Customer.t :=
  {| Customer.id := "c3"; Customer.name := "Chetan"; Customer.phone := "98252";
     Customer.address := "Petlad"; Customer.totalAmount := JS.NumberValue (6832 # 100);
     Customer.paidAmount := 0%Q; Customer.pendingBalance := JS.NumberValue (6832 # 100) |}.

Definition looseData : DataContext := @Store.dataContext utc [chetan] [loose] [].

(** Friday 5 January 2024, noon. *)
Definition today : @Date utc := Some (1704456000000).

Definition finalY (options : Statements.AutoTableOptions) : Z :=
  Statements.startY options + 8 * (1 + Z.of_nat (List.length (Statements.body options))).

End Sample.


(** ** Vocabulary of the statements proved below *)

Module Spec.
Section Dates.
Context {dates : DateFns}.

(** The time value a date string parses to. *)
Definition timeOf (d : string) : option Z := getTime (parseISO d).

Definition isValid (d : string) : bool :=
  match timeOf d with Some _ => true | None => false end.

(** [a] is not after [b]; both must be dates. *)
Definition notAfter (a b : string) : Prop :=
  match timeOf a, timeOf b with
  | Some x, Some y => x <= y
  | _, _ => False
  end.

(** The time value of a date, 0 for a string that is none. *)
Definition rank (d : string) : Z :=
  match timeOf d with Some t => t | None => 0 end.

(** The date string [d] parses to the time value [t]. *)
Definition onDate (t : Z) (d : string) : bool :=
  match timeOf d with Some x => x =? t | None => false end.

(** The date built from [d] by [mk] can be formatted with [pattern]. *)
Definition formats (mk : string -> Date) (pattern : string) (d : string) : bool :=
  match format (mk d) pattern with Some _ => true | None => false end.
End Dates.

(** The sum of a list of amounts, in exact arithmetic. *)
Definition sum (l : list Q) : Q := fold_right Qplus 0%Q l.

(** The sum as the program adds it: from zero, left to right, each
    addition rounded to a double. *)
Definition doubleSum (l : list Q) : Q := fold_left JS.add l 0%Q.

(** No addition of the running sum of [l], started at [acc], leaves the
    finite doubles. *)
Fixpoint finiteFrom (acc : Q) (l : list Q) : bool :=
  match l with
  | [] => true
  | x :: r => JS.isFinite (JS.add acc x) && finiteFrom (JS.add acc x) r
  end.

Definition finiteSum (l : list Q) : bool := finiteFrom 0%Q l.

(** [x] is a multiple of [2^-1074], the smallest double, as every
    double is. *)
Definition onGrid (x : Q) : Prop := exists z : Z, (x == inject_Z z * JS.pow2 (-1074))%Q.

(** The amounts are whole numbers whose magnitudes add up to at most
    [2^53]: no addition of them rounds. *)
Definition isWhole (x : Q) : bool := Qeq_bool x (inject_Z (Qfloor x)).

Definition wholeAmounts (l : list Q) : bool :=
  forallb isWhole l &&
  (fold_right Z.add 0 (map (fun x => Z.abs (Qfloor x)) l) <=? 2 ^ 53).

(** A row of the statement, with or without the customer column. *)
Definition columns (withCustomer : bool) (date customer description billed paid : string)
  : list string :=
  if withCustomer then [date; customer; description; billed; paid]
  else [date; description; billed; paid].

Section Renderings.
Context {engine : JS.Engine} {dates : DateFns} {data : DataContext}.
Import Statements.

(** The dates a rendering formats can all be formatted: the rendering
    does not throw. *)
Definition tableDatesOk (filters : Filters) : bool :=
  forallb (fun tx => formats new_Date "MMM dd, yyyy" (date tx)) (transactions filters).

Definition pdfDatesOk (filters : Filters) : bool :=
  formats parseISO "MMM dd, yyyy" (dateFrom filters) &&
  formats parseISO "MMM dd, yyyy" (dateTo filters) &&
  forallb (fun tx => formats new_Date "dd/MM/yyyy" (date tx)) (transactions filters).

Definition csvDatesOk (filters : Filters) : bool :=
  forallb (fun tx => formats new_Date "yyyy-MM-dd" (date tx)) (transactions filters).

Definition isOrder (tx : Transaction) : bool :=
  match type tx with order => true | payment => false end.

Definition isPayment (tx : Transaction) : bool :=
  match type tx with order => false | payment => true end.

(** The two totals and their difference are finite doubles. *)
Definition totalsInRange (filters : Filters) : bool :=
  let txs := transactions filters in
  finiteSum (map billed txs) && finiteSum (map paid txs) &&
  JS.isFinite (JS.sub (totalBilled txs) (totalPaid txs)).

(** [rows] holds one row per transaction, in order: the date printed
    with [pattern], the customer name when the column is there, the
    description, and the two amounts printed by [cell]. *)
Definition bodyRows (pattern : string) (withCustomer : bool) (cell : JS.number -> string)
           (txs : list Transaction) (rows : list (list string)) : Prop :=
  Forall2 (fun tx r => exists d,
               format (new_Date (date tx)) pattern = Some d /\
               r = columns withCustomer d (customerName tx) (description tx)
                           (cell (billed tx)) (cell (paid tx)))
          txs rows.

(** The header row shared by the three renderings. *)
Definition headerRow (withCustomer : bool) : list string :=
  columns withCustomer "Date" "Customer" "Description" "Billed" "Paid".

(** The page is rendered, and its table, when there is one, has the
    header row and one body row per transaction with amounts printed
    by [cell]. *)
Definition tableShows (filters : Filters) (cell : JS.number -> string) : Prop :=
  exists view rows,
    render filters = Some view /\
    bodyRows "MMM dd, yyyy" (includeCustomerName filters) cell (transactions filters) rows /\
    details view =
      match transactions filters with
      | [] => NoTransactions "No transactions found"
                             "Try adjusting your filters to see results"
      | _ => Table (headerRow (includeCustomerName filters)) rows
      end.

(** The PDF is produced, and its table has the header row and one
    body row per transaction with amounts printed by [cell]. *)
Definition pdfShows (finalY : AutoTableOptions -> Z) (filters : Filters)
           (cell : JS.number -> string) : Prop :=
  exists calls options,
    generatePDF finalY filters = Some calls /\
    In (autoTable options) calls /\
    head options = [headerRow (includeCustomerName filters)] /\
    bodyRows "dd/MM/yyyy" (includeCustomerName filters) cell (transactions filters)
             (body options).

(** The CSV rows are produced: the header row, one row per transaction
    with amounts printed by [cell], an empty row, the totals row. *)
Definition csvShows (filters : Filters) (cell : JS.number -> string) : Prop :=
  exists rows,
    csvTable filters =
      Some ([headerRow (includeCustomerName filters)] ++ rows ++ [[]] ++
            [columns (includeCustomerName filters) "" "" "Total"
                     (cell (totalBilled (transactions filters)))
                     (cell (totalPaid (transactions filters)))])%list /\
    bodyRows "yyyy-MM-dd" (includeCustomerName filters) cell (transactions filters) rows.
End Renderings.

Section History.
Context {engine : JS.Engine} {dates : DateFns} {data : DataContext}.
Import CustomerDetailsModal.

(** Every order of the history can be given its title. *)
Definition historyDatesOk (customer : Customer.t) : bool :=
  forallb (fun o => formats parseISO "MMM dd, yyyy" (Order.orderDate o))
          (customerOrders customer).

(** The line totals of the history are finite doubles. *)
Definition lineTotalsInRange (customer : Customer.t) : bool :=
  forallb (fun o =>
             forallb (fun item =>
                        JS.isFinite (JS.mul (OrderItem.price item) (OrderItem.quantity item)))
                     (Order.items o))
          (customerOrders customer).

(** The card of an order: its key, its title from the order date, its
    status, one line per item and the order total. *)
Definition cardOf (o : Order.t) (card : OrderCard) : Prop :=
  exists d,
    format (parseISO (Order.orderDate o)) "MMM dd, yyyy" = Some d /\
    card_key card = Order.id o /\
    card_title card = "Order on " ++ d /\
    card_status card = Order.status o /\
    card_lines card =
      map (fun item =>
             {| item_label := JS.Number_toString (OrderItem.quantity item) ++ "x " ++
                              OrderItem.productName item;
                item_unitPrice := "(@ " ++ currency (OrderItem.price item) ++ ")";
                item_lineTotal :=
                  currency (JS.mul (OrderItem.price item) (OrderItem.quantity item)) |})
          (Order.items o) /\
    card_total card = "Order Total: " ++ currency (Order.totalAmount o).
End History.







Definition isDigit (c : ascii) : bool :=
  let n := nat_of_ascii c in ((48 <=? n) && (n <=? 57))%nat.

Fixpoint allDigits (s : string) : bool :=
  match s with
  | EmptyString => true
  | String c r => isDigit c && allDigits r
  end.

(** [s] is an optional minus sign, at least one digit, a point and
    exactly two digits. *)
Definition twoDecimals (s : string) : Prop :=
  exists sign int frac,
    s = sign ++ int ++ "." ++ frac /\
    (sign = "" \/ sign = "-") /\
    int <> "" /\ allDigits int = true /\
    length frac = 2%nat /\ allDigits frac = true.
End Spec.

(** ** Readers for what the components print

    A reader of the CSV text and a reader of a decimal amount: what a
    spreadsheet does with the exported file.  They are the inverse
    direction of [exportToCSV] and of [toFixed(2)]. *)

(** The names of the three quick-period buttons. *)
Definition isQuickPeriod (p : string) : bool :=
  String.eqb p "today" || String.eqb p "week" || String.eqb p "month".

Module Csv.

(** Where the reader is: at the start of a row, at the start of a field
    after a comma, inside a quoted field, or just after a double quote
    met inside a quoted field. *)
Inductive State := RowStart | FieldStart | InQuotes | QuoteSeen.

Definition cellOf (rev_chars : list ascii) : string :=
  string_of_list_ascii (rev rev_chars).

(** One pass over the text.  [cell] holds the characters of the current
    field, last first; [row] the fields of the current row, last first;
    [rows] the finished rows, last first.  Fields must be quoted; a
    doubled quote inside a field is one quote; a line feed outside
    quotes ends the row. *)
Fixpoint scan (s : string) (st : State) (cell : list ascii) (row : list string)
         (rows : list (list string)) : option (list (list string)) :=
  match s with
  | EmptyString =>
      match st with
      | RowStart => Some (rev ([] :: rows))
      | QuoteSeen => Some (rev (rev (cellOf cell :: row) :: rows))
      | FieldStart | InQuotes => None
      end
  | String c r =>
      match st with
      | RowStart =>
          if Ascii.eqb c JS.dquote then scan r InQuotes [] [] rows
          else if Ascii.eqb c JS.LF then scan r RowStart [] [] ([] :: rows)
          else None
      | FieldStart =>
          if Ascii.eqb c JS.dquote then scan r InQuotes [] row rows else None
      | InQuotes =>
          if Ascii.eqb c JS.dquote then scan r QuoteSeen cell row rows
          else scan r InQuotes (c :: cell) row rows
      | QuoteSeen =>
          if Ascii.eqb c JS.dquote then scan r InQuotes (JS.dquote :: cell) row rows
          else if Ascii.eqb c "," then scan r FieldStart [] (cellOf cell :: row) rows
          else if Ascii.eqb c JS.LF then
            scan r RowStart [] [] (rev (cellOf cell :: row) :: rows)
          else None
      end
  end.

Definition parse (s : string) : option (list (list string)) :=
  scan s RowStart [] [] [].

(** What the reader does once a row is complete: it stops at the end of
    the text and goes on with the next row after a line feed. *)
Definition finish (rest : string) (row : list string) (rows : list (list string))
  : option (list (list string)) :=
  match rest with
  | EmptyString => Some (rev (row :: rows))
  | String _ r => scan r RowStart [] [] (row :: rows)
  end.

(** The text after a row: nothing, or a line feed and more text. *)
Definition rowEnd (rest : string) : Prop :=
  rest = EmptyString \/ exists r, rest = String JS.LF r.

End Csv.

Module Decimal.

Definition digitValue (c : ascii) : Z := Z.of_nat (nat_of_ascii c) - 48.

(** The number a string of digits denotes, leading zeros allowed. *)
Fixpoint valueOf (s : string) (acc : Z) : Z :=
  match s with
  | EmptyString => acc
  | String c r => valueOf r (10 * acc + digitValue c)
  end.

(** The text before the first point and the text after it. *)
Fixpoint splitPoint (s : string) : option (string * string) :=
  match s with
  | EmptyString => None
  | String c r =>
      if Ascii.eqb c "." then Some (EmptyString, r)
      else match splitPoint r with
           | Some (int, frac) => Some (String c int, frac)
           | None => None
           end
  end.

(** The amount written as an optional minus sign, digits, a point and
    digits; [None] for any other text. *)
Definition readAmount (s : string) : option Q :=
  let negative := match s with String c _ => Ascii.eqb c "-" | EmptyString => false end in
  let body := if negative then JS.drop 1 s else s in
  match splitPoint body with
  | Some (int, frac) =>
      if Spec.allDigits int && Spec.allDigits frac &&
         negb (String.eqb int "") && negb (String.eqb frac "")
      then
        let v := (inject_Z (valueOf (int ++ frac) 0) /
                  inject_Z (10 ^ Z.of_nat (length frac)))%Q in
        Some (if negative then (- v)%Q else v)
      else None
  | None => None
  end.

End Decimal.

(** The sample ledger with its records stored in the opposite order. *)
Definition shuffledData : DataContext :=
  @Store.dataContext Sample.utc [Sample.bhavin; Sample.asha]
    [Sample.o3; Sample.o2; Sample.o1] [Sample.p2; Sample.p1].
(** * Proofs *)

(** ** Exceptions *)

Lemma mapM_Forall2 {A B : Type} (f : A -> option B) (l : list A) (l' : list B) :
  mapM f l = Some l' -> Forall2 (fun x y => f x = Some y) l l'.
Proof.
  revert l'; induction l as [|x r IH]; intros l' H; simpl in H.
  - inversion H; constructor.
  - destruct (f x) as [y|] eqn:Hx; simpl in H; [|discriminate].
    destruct (mapM f r) as [ys|] eqn:Hr; simpl in H; [|discriminate].
    inversion H; subst. constructor; auto.
Qed.

Lemma mapM_total {A B : Type} (f : A -> option B) (l : list A) :
  Forall (fun x => f x <> None) l -> exists l', mapM f l = Some l'.
Proof.
  induction 1 as [|x r Hx _ [ys IH]]; simpl.
  - eexists; reflexivity.
  - destruct (f x) as [y|]; [|congruence]. rewrite IH. simpl. eexists; reflexivity.
Qed.

Lemma mapM_total_b {A B : Type} (f : A -> option B) (l : list A) :
  forallb (fun x => match f x with Some _ => true | None => false end) l = true ->
  exists l', mapM f l = Some l'.
Proof.
  intros H. apply mapM_total. rewrite forallb_forall in H. apply Forall_forall.
  intros x Hx. specialize (H x Hx). destruct (f x); [discriminate | discriminate].
Qed.

(** ** The sort *)

Section SortFacts.
Context {engine : JS.Engine} {A : Type} (comparefn : A -> A -> option Z).

Lemma sort_insert_Permutation x l :
  Permutation (x :: l) (JS.sort_insert comparefn x l).
Proof.
  induction l as [|y r IH]; simpl; [reflexivity|].
  destruct (0 <? JS.SortCompare comparefn x y); [|reflexivity].
  rewrite perm_swap. constructor. exact IH.
Qed.

Lemma stable_sort_Permutation l : Permutation l (JS.stable_sort comparefn l).
Proof.
  induction l as [|x r IH]; simpl; [reflexivity|].
  rewrite <- sort_insert_Permutation. constructor. exact IH.
Qed.

(** Whatever the comparator, the sort rearranges. *)
Lemma sort_Permutation l : Permutation l (JS.sort comparefn l).
Proof.
  unfold JS.sort. destruct (JS.consistent comparefn l).
  - apply stable_sort_Permutation.
  - apply JS.sort_implementation_defined_Permutation.
Qed.

(** The comparator is consistent on [l] when it is the difference of a
    rank. *)
Variable rank : A -> Z.

Definition ranked (l : list A) : Prop :=
  forall a b, In a l -> In b l -> comparefn a b = Some (rank a - rank b).

Lemma ranked_Permutation l l' : Permutation l l' -> ranked l -> ranked l'.
Proof.
  intros P H a b Ha Hb.
  apply H; eapply Permutation_in; try eassumption; symmetry; assumption.
Qed.

Lemma ranked_tail x l : ranked (x :: l) -> ranked l.
Proof. intros H a b Ha Hb; apply H; right; assumption. Qed.

Lemma ranked_skip x y l : ranked (x :: y :: l) -> ranked (x :: l).
Proof.
  intros H a b Ha Hb; apply H; simpl in *; tauto.
Qed.

Lemma SortCompare_ranked x y l :
  ranked l -> In x l -> In y l -> JS.SortCompare comparefn x y = rank x - rank y.
Proof. intros H Hx Hy. unfold JS.SortCompare. rewrite (H x y Hx Hy). reflexivity. Qed.

(** A comparator that is the difference of a rank is consistent. *)
Lemma consistent_ranked l : ranked l -> JS.consistent comparefn l = true.
Proof.
  intros H. unfold JS.consistent.
  apply forallb_forall. intros a Ha. apply andb_true_iff. split.
  { unfold JS.cmp_eq. rewrite (H a a Ha Ha). apply Z.eqb_eq. lia. }
  apply forallb_forall. intros b Hb.
  unfold JS.cmp_lt, JS.cmp_eq, JS.cmp_gt.
  rewrite (H a b Ha Hb), (H b a Hb Ha).
  apply andb_true_iff. split.
  { destruct (Z.ltb_spec (rank a - rank b) 0), (Z.eqb_spec (rank a - rank b) 0),
      (Z.ltb_spec 0 (rank a - rank b)), (Z.eqb_spec (rank b - rank a) 0);
      simpl; try reflexivity; lia. }
  apply forallb_forall. intros c Hc.
  rewrite (H b c Hb Hc), (H a c Ha Hc).
  destruct (Z.ltb_spec (rank a - rank b) 0), (Z.eqb_spec (rank a - rank b) 0),
    (Z.ltb_spec 0 (rank a - rank b)),
    (Z.ltb_spec (rank b - rank c) 0), (Z.eqb_spec (rank b - rank c) 0),
    (Z.ltb_spec 0 (rank b - rank c)),
    (Z.ltb_spec (rank a - rank c) 0), (Z.eqb_spec (rank a - rank c) 0),
    (Z.ltb_spec 0 (rank a - rank c));
    simpl; try reflexivity; lia.
Qed.

(** With such a comparator the result is the one the language fixes. *)
Lemma sort_ranked l : ranked l -> JS.sort comparefn l = JS.stable_sort comparefn l.
Proof. intros H. unfold JS.sort. rewrite (consistent_ranked l H). reflexivity. Qed.

Let le (a b : A) : Prop := rank a <= rank b.

Lemma sort_insert_sorted x l :
  ranked (x :: l) -> StronglySorted le l ->
  StronglySorted le (JS.sort_insert comparefn x l).
Proof.
  induction l as [|y r IH]; intros Hr Hs; simpl.
  - constructor; constructor.
  - rewrite (SortCompare_ranked x y _ Hr) by (simpl; tauto).
    inversion Hs as [|? ? Hs' Hall]; subst.
    destruct (0 <? rank x - rank y) eqn:E.
    + apply Z.ltb_lt in E. constructor.
      * apply IH; [eapply ranked_skip; eassumption | assumption].
      * eapply Permutation_Forall; [apply sort_insert_Permutation|].
        constructor; [unfold le; lia | assumption].
    + apply Z.ltb_ge in E. constructor; [assumption|].
      constructor; [unfold le; lia|].
      eapply Forall_impl; [|exact Hall]. unfold le; intros; lia.
Qed.

Lemma stable_sort_sorted l : ranked l -> StronglySorted le (JS.stable_sort comparefn l).
Proof.
  induction l as [|x r IH]; intros Hr; simpl; [constructor|].
  apply sort_insert_sorted.
  - eapply ranked_Permutation; [|exact Hr]. constructor. apply stable_sort_Permutation.
  - apply IH. eapply ranked_tail; eassumption.
Qed.

Lemma sort_sorted l : ranked l -> StronglySorted le (JS.sort comparefn l).
Proof. intros Hr. rewrite (sort_ranked l Hr). apply stable_sort_sorted. exact Hr. Qed.

(** Stability: the elements of one rank keep their order. *)
Lemma sort_insert_stable x l t :
  ranked (x :: l) ->
  filter (fun a => rank a =? t) (JS.sort_insert comparefn x l) =
  filter (fun a => rank a =? t) (x :: l).
Proof.
  induction l as [|y r IH]; intros Hr; [reflexivity|].
  cbn [JS.sort_insert].
  rewrite (SortCompare_ranked x y _ Hr) by (simpl; tauto).
  destruct (0 <? rank x - rank y) eqn:E; [|reflexivity].
  apply Z.ltb_lt in E.
  cbn [filter]. rewrite IH by (eapply ranked_skip; eassumption).
  cbn [filter].
  destruct (rank y =? t) eqn:Ey; [|reflexivity].
  apply Z.eqb_eq in Ey.
  destruct (rank x =? t) eqn:Ex; [apply Z.eqb_eq in Ex; lia | reflexivity].
Qed.

Lemma stable_sort_stable l t :
  ranked l ->
  filter (fun a => rank a =? t) (JS.stable_sort comparefn l) =
  filter (fun a => rank a =? t) l.
Proof.
  induction l as [|x r IH]; intros Hr; [reflexivity|].
  cbn [JS.stable_sort]. rewrite sort_insert_stable.
  - cbn [filter]. rewrite IH by (eapply ranked_tail; eassumption). reflexivity.
  - eapply ranked_Permutation; [|exact Hr]. constructor. apply stable_sort_Permutation.
Qed.

Lemma sort_stable l t :
  ranked l ->
  filter (fun a => rank a =? t) (JS.sort comparefn l) = filter (fun a => rank a =? t) l.
Proof. intros Hr. rewrite (sort_ranked l Hr). apply stable_sort_stable. exact Hr. Qed.
End SortFacts.

Lemma forallb_Permutation {A : Type} (p : A -> bool) (l l' : list A) :
  Permutation l l' -> forallb p l = true -> forallb p l' = true.
Proof.
  intros P H. rewrite forallb_forall in *. intros x Hx. apply H.
  eapply Permutation_in; [symmetry; eassumption | assumption].
Qed.

(** Sorting records on the time value of a date field, earliest first or
    latest first: the two comparators of the components. *)
Section SortByDate.
Context {engine : JS.Engine} {dates : DateFns} {A : Type} (key : A -> string).

Let ascending (a b : A) : option Z :=
  JS.time_sub (getTime (parseISO (key a))) (getTime (parseISO (key b))).

Let descending (a b : A) : option Z :=
  JS.time_sub (getTime (parseISO (key b))) (getTime (parseISO (key a))).

Let valid (l : list A) : Prop := forallb (fun a => Spec.isValid (key a)) l = true.

(** Splits on the time values of [a] and [b], which the hypothesis [Hv]
    on the list makes valid dates. *)
Ltac by_times Hv a b Ha Hb :=
  let Va := fresh "Va" in
  let Vb := fresh "Vb" in
  pose proof (Hv a Ha) as Va; pose proof (Hv b Hb) as Vb;
  unfold Spec.isValid, Spec.rank, Spec.notAfter, Spec.timeOf in *;
  destruct (getTime (parseISO (key a))); [|discriminate];
  destruct (getTime (parseISO (key b))); [|discriminate].

Lemma ascending_ranked l : valid l -> ranked ascending (fun a => Spec.rank (key a)) l.
Proof.
  intros H a b Ha Hb. unfold valid in H. rewrite forallb_forall in H.
  unfold ascending. by_times H a b Ha Hb. reflexivity.
Qed.

Lemma descending_ranked l : valid l -> ranked descending (fun a => - Spec.rank (key a)) l.
Proof.
  intros H a b Ha Hb. unfold valid in H. rewrite forallb_forall in H.
  unfold descending. by_times H a b Ha Hb. simpl. f_equal. lia.
Qed.

(** From a list sorted on a rank to a list sorted on the dates. *)
Lemma sorted_on_dates (r : A -> Z) (R : A -> A -> Prop) (l : list A) :
  (forall a b, Spec.isValid (key a) = true -> Spec.isValid (key b) = true ->
               r a <= r b -> R a b) ->
  valid l -> StronglySorted (fun a b => r a <= r b) l -> StronglySorted R l.
Proof.
  intros HR Hv Hs. unfold valid in Hv. rewrite forallb_forall in Hv.
  induction Hs as [|a l Hs IH Hall]; constructor.
  - apply IH. intros x Hx. apply Hv. right. exact Hx.
  - rewrite Forall_forall in *. intros b Hb. specialize (Hall b Hb).
    apply HR; [apply Hv; left; reflexivity | apply Hv; right; exact Hb | exact Hall].
Qed.

Lemma onDate_rank (r : A -> Z) (t t' : Z) (l : list A) :
  (forall a x, Spec.timeOf (key a) = Some x -> (r a =? t') = (x =? t)) ->
  valid l ->
  filter (fun a => Spec.onDate t (key a)) l = filter (fun a => r a =? t') l.
Proof.
  intros Hr Hv. unfold valid in Hv. rewrite forallb_forall in Hv.
  apply filter_ext_in. intros a Ha. specialize (Hv a Ha).
  unfold Spec.onDate, Spec.isValid in *.
  destruct (Spec.timeOf (key a)) as [x|] eqn:E; [|discriminate].
  symmetry. apply Hr. exact E.
Qed.

Theorem sort_ascending l :
  valid l ->
  StronglySorted (fun a b => Spec.notAfter (key a) (key b)) (JS.sort ascending l) /\
  forall t, filter (fun a => Spec.onDate t (key a)) (JS.sort ascending l) =
            filter (fun a => Spec.onDate t (key a)) l.
Proof.
  intros Hv. pose proof (ascending_ranked l Hv) as Hr.
  assert (Hv' : valid (JS.sort ascending l)).
  { eapply forallb_Permutation; [apply sort_Permutation | exact Hv]. }
  assert (Hrank : forall a x, Spec.timeOf (key a) = Some x ->
                              forall t, (Spec.rank (key a) =? t) = (x =? t)).
  { intros a x Hx t. unfold Spec.rank. rewrite Hx. reflexivity. }
  split.
  - apply (sorted_on_dates (fun a => Spec.rank (key a))); [|exact Hv'|].
    + intros a b Va Vb Hle. unfold Spec.isValid, Spec.rank, Spec.notAfter in *.
      destruct (Spec.timeOf (key a)); [|discriminate].
      destruct (Spec.timeOf (key b)); [|discriminate]. exact Hle.
    + exact (sort_sorted ascending _ l Hr).
  - intros t.
    rewrite (onDate_rank (fun a => Spec.rank (key a)) t t _ (fun a x H => Hrank a x H t) Hv').
    rewrite (onDate_rank (fun a => Spec.rank (key a)) t t _ (fun a x H => Hrank a x H t) Hv).
    exact (sort_stable ascending _ l t Hr).
Qed.

Theorem sort_descending l :
  valid l ->
  StronglySorted (fun a b => Spec.notAfter (key b) (key a)) (JS.sort descending l) /\
  forall t, filter (fun a => Spec.onDate t (key a)) (JS.sort descending l) =
            filter (fun a => Spec.onDate t (key a)) l.
Proof.
  intros Hv. pose proof (descending_ranked l Hv) as Hr.
  assert (Hv' : valid (JS.sort descending l)).
  { eapply forallb_Permutation; [apply sort_Permutation | exact Hv]. }
  assert (Hrank : forall a x, Spec.timeOf (key a) = Some x ->
                              forall t, (- Spec.rank (key a) =? - t) = (x =? t)).
  { intros a x Hx t. unfold Spec.rank. rewrite Hx.
    destruct (Z.eqb_spec x t), (Z.eqb_spec (- x) (- t)); try reflexivity; lia. }
  split.
  - apply (sorted_on_dates (fun a => - Spec.rank (key a))); [|exact Hv'|].
    + intros a b Va Vb Hle. unfold Spec.isValid, Spec.rank, Spec.notAfter in *.
      destruct (Spec.timeOf (key a)); [|discriminate].
      destruct (Spec.timeOf (key b)); [|discriminate]. lia.
    + exact (sort_sorted descending _ l Hr).
  - intros t.
    rewrite (onDate_rank (fun a => - Spec.rank (key a)) t (- t) _
                         (fun a x H => Hrank a x H t) Hv').
    rewrite (onDate_rank (fun a => - Spec.rank (key a)) t (- t) _
                         (fun a x H => Hrank a x H t) Hv).
    exact (sort_stable descending _ l (- t) Hr).
Qed.
End SortByDate.

(** ** Sums *)

Lemma sum_app (l1 l2 : list Q) : (Spec.sum (l1 ++ l2) == Spec.sum l1 + Spec.sum l2)%Q.
Proof.
  induction l1 as [|x r IH]; simpl; [ring|]. rewrite IH. ring.
Qed.

Lemma sum_Permutation (l1 l2 : list Q) :
  Permutation l1 l2 -> (Spec.sum l1 == Spec.sum l2)%Q.
Proof.
  induction 1 as [|x l l' _ IH|x y l|l l' l'' _ IH1 _ IH2]; simpl.
  - reflexivity.
  - rewrite IH. reflexivity.
  - ring.
  - rewrite IH1. exact IH2.
Qed.

Lemma sum_zero {A : Type} (l : list A) : (Spec.sum (map (fun _ => 0%Q) l) == 0)%Q.
Proof.
  induction l as [|x r IH]; simpl; [reflexivity|]. rewrite IH. ring.
Qed.

(** ** Doubles

    The rounding of the arithmetic, over the rationals. *)

Section NumberFacts.
Local Open Scope Q_scope.

Lemma pow2_pos (e : Z) : 0 < JS.pow2 e.
Proof. apply Qpower_0_lt. reflexivity. Qed.

Lemma pow2_plus (a b : Z) : JS.pow2 (a + b) == JS.pow2 a * JS.pow2 b.
Proof. apply Qpower_plus. discriminate. Qed.

Lemma pow2_opp (a : Z) : JS.pow2 (- a) == / JS.pow2 a.
Proof. apply Qpower_opp. Qed.

Lemma pow2_Z (e : Z) : (0 <= e)%Z -> JS.pow2 e == inject_Z (2 ^ e).
Proof. intros H. symmetry. apply Zpower_Qpower. exact H. Qed.

Lemma pow2_lt (a b : Z) : (a < b)%Z -> JS.pow2 a < JS.pow2 b.
Proof. intros H. apply Qpower_lt_compat_l; [exact H | reflexivity]. Qed.

Lemma pow2_le (a b : Z) : (a <= b)%Z -> JS.pow2 a <= JS.pow2 b.
Proof. intros H. apply Qpower_le_compat_l; [exact H | discriminate]. Qed.

Lemma pow2_lt_inv (a b : Z) : JS.pow2 a < JS.pow2 b -> (a < b)%Z.
Proof. intros H. apply (Qpower_lt_compat_l_inv 2); [exact H | reflexivity]. Qed.

Lemma pow2_minus (a b : Z) : JS.pow2 (a - b) == JS.pow2 a / JS.pow2 b.
Proof. unfold Z.sub, Qdiv. rewrite pow2_plus, pow2_opp. reflexivity. Qed.

(** Division by a power of two is multiplication by the opposite power. *)
Lemma div_pow2 (x : Q) (e : Z) : x / JS.pow2 e == x * JS.pow2 (- e).
Proof. unfold Qdiv. rewrite pow2_opp. reflexivity. Qed.

Lemma mul_pow2_lt (x y : Q) (e : Z) : x < y <-> x * JS.pow2 e < y * JS.pow2 e.
Proof. symmetry. apply Qmult_lt_r. apply pow2_pos. Qed.

Lemma mul_pow2_le (x y : Q) (e : Z) : x <= y <-> x * JS.pow2 e <= y * JS.pow2 e.
Proof. symmetry. apply Qmult_le_r. apply pow2_pos. Qed.

Lemma mul_pow2_cancel (x : Q) (e : Z) : x * JS.pow2 e * JS.pow2 (- e) == x.
Proof.
  rewrite <- Qmult_assoc, <- pow2_plus, Z.add_opp_diag_r. unfold JS.pow2. simpl. ring.
Qed.

(** [ilog2 x] is the exponent of the binade of [x]. *)
Lemma ilog2_spec (x : Q) :
  0 < x -> JS.pow2 (JS.ilog2 x) <= x /\ x < JS.pow2 (JS.ilog2 x + 1).
Proof.
  intros Hx. destruct x as [n d]. unfold JS.ilog2. cbn [Qnum Qden].
  assert (Hn : (0 < n)%Z).
  { unfold Qlt in Hx. simpl in Hx. lia. }
  destruct (Z.log2_spec n Hn) as [Hn1 Hn2].
  destruct (Z.log2_spec (Zpos d) (Pos2Z.is_pos d)) as [Hd1 Hd2].
  pose proof (Z.log2_nonneg n) as Ha. pose proof (Z.log2_nonneg (Zpos d)) as Hb.
  set (a := Z.log2 n) in *. set (b := Z.log2 (Zpos d)) in *.
  assert (Hq : n # d == inject_Z n * / inject_Z (Zpos d)) by (apply Qmake_Qdiv).
  assert (Hlow : JS.pow2 (a - b - 1) <= n # d).
  { apply (mul_pow2_le _ _ (b + 1)). rewrite <- pow2_plus.
    replace (a - b - 1 + (b + 1))%Z with a by lia.
    rewrite !pow2_Z by lia.
    unfold Qle, Qmult, inject_Z. simpl. nia. }
  assert (Hup : n # d < JS.pow2 (a - b + 1)).
  { apply (mul_pow2_lt _ _ b). rewrite <- pow2_plus.
    replace (a - b + 1 + b)%Z with (a + 1)%Z by lia.
    rewrite !pow2_Z by lia.
    unfold Qlt, Qmult, inject_Z. simpl. nia. }
  destruct (Qle_bool (JS.pow2 (a - b)) (n # d)) eqn:E.
  - apply Qle_bool_iff in E. split; [exact E | exact Hup].
  - split.
    + exact Hlow.
    + replace (a - b - 1 + 1)%Z with (a - b)%Z by lia.
      apply Qnot_le_lt. intros H. apply Qle_bool_iff in H. congruence.
Qed.

Lemma ilog2_unique (x : Q) (k : Z) :
  JS.pow2 k <= x -> x < JS.pow2 (k + 1) -> JS.ilog2 x = k.
Proof.
  intros Hl Hu.
  assert (Hx : 0 < x) by (eapply Qlt_le_trans; [apply pow2_pos | exact Hl]).
  destruct (ilog2_spec x Hx) as [Hl' Hu'].
  assert (H1 : (k < JS.ilog2 x + 1)%Z).
  { apply pow2_lt_inv. eapply Qle_lt_trans; eassumption. }
  assert (H2 : (JS.ilog2 x < k + 1)%Z).
  { apply pow2_lt_inv. eapply Qle_lt_trans; eassumption. }
  lia.
Qed.

Lemma ilog2_Qeq (x y : Q) : 0 < x -> x == y -> JS.ilog2 x = JS.ilog2 y.
Proof.
  intros Hx E. destruct (ilog2_spec x Hx) as [Hl Hu].
  symmetry. apply ilog2_unique; rewrite <- E; assumption.
Qed.

(** ** Rounding to an integer *)

Lemma roundTiesToEven_Qeq (r r' : Q) :
  r == r' -> JS.roundTiesToEven r = JS.roundTiesToEven r'.
Proof.
  intros E. unfold JS.roundTiesToEven.
  rewrite (Qfloor_comp _ _ E).
  assert (Ec : (r - inject_Z (Qfloor r') ?= 1 # 2) = (r' - inject_Z (Qfloor r') ?= 1 # 2)).
  { apply Qcompare_comp; [rewrite E; reflexivity | reflexivity]. }
  rewrite Ec. reflexivity.
Qed.

Lemma roundTiesToEven_Z (n : Z) : JS.roundTiesToEven (inject_Z n) = n.
Proof.
  unfold JS.roundTiesToEven. rewrite Qfloor_Z.
  assert (E : (inject_Z n - inject_Z n ?= 1 # 2) = Lt).
  { apply Qlt_alt. setoid_replace (inject_Z n - inject_Z n) with 0 by ring. reflexivity. }
  rewrite E. reflexivity.
Qed.

Lemma roundTiesToEven_floor (r : Q) :
  (Qfloor r <= JS.roundTiesToEven r <= Qfloor r + 1)%Z.
Proof.
  unfold JS.roundTiesToEven.
  destruct (r - inject_Z (Qfloor r) ?= 1 # 2); [destruct (Z.even (Qfloor r))| |]; lia.
Qed.

Lemma roundTiesToEven_ge (r : Q) (n : Z) : inject_Z n <= r -> (n <= JS.roundTiesToEven r)%Z.
Proof.
  intros H. pose proof (roundTiesToEven_floor r) as [Hl _].
  apply Qfloor_resp_le in H. rewrite Qfloor_Z in H. lia.
Qed.

Lemma roundTiesToEven_le (r : Q) (n : Z) : r <= inject_Z n -> (JS.roundTiesToEven r <= n)%Z.
Proof.
  intros H. destruct (Qeq_dec r (inject_Z n)) as [E|E].
  - rewrite (roundTiesToEven_Qeq _ _ E), roundTiesToEven_Z. lia.
  - assert (Hlt : r < inject_Z n).
    { apply Qle_lteq in H as [H|H]; [exact H | contradiction]. }
    pose proof (roundTiesToEven_floor r) as [_ Hu].
    assert (Hf : (Qfloor r < n)%Z).
    { apply Z.lt_nge. intros Hge. apply (Qlt_not_le _ _ Hlt).
      eapply Qle_trans; [|apply Qfloor_le]. rewrite <- Zle_Qle. exact Hge. }
    lia.
Qed.

(** ** The Number value of a real *)

Lemma NumberValue_Qeq (x y : Q) : x == y -> JS.NumberValue x = JS.NumberValue y.
Proof. intros E. unfold JS.NumberValue. rewrite (Qred_complete _ _ E). reflexivity. Qed.

#[global] Instance NumberValue_Proper : Proper (Qeq ==> Qeq) JS.NumberValue.
Proof. intros x y E. rewrite (NumberValue_Qeq _ _ E). reflexivity. Qed.

#[global] Instance add_Proper : Proper (Qeq ==> Qeq ==> Qeq) JS.add.
Proof. intros x x' Ex y y' Ey. unfold JS.add. rewrite Ex, Ey. reflexivity. Qed.

#[global] Instance sub_Proper : Proper (Qeq ==> Qeq ==> Qeq) JS.sub.
Proof. intros x x' Ex y y' Ey. unfold JS.sub. rewrite Ex, Ey. reflexivity. Qed.

#[global] Instance mul_Proper : Proper (Qeq ==> Qeq ==> Qeq) JS.mul.
Proof. intros x x' Ex y y' Ey. unfold JS.mul. rewrite Ex, Ey. reflexivity. Qed.

Lemma NumberValue_zero (x : Q) : x == 0 -> JS.NumberValue x = 0.
Proof. intros E. rewrite (NumberValue_Qeq _ _ E). reflexivity. Qed.

Lemma NumberValue_pos (x : Q) :
  0 < x ->
  JS.NumberValue x ==
  inject_Z (JS.roundTiesToEven (x / JS.pow2 (JS.exponentOf x))) * JS.pow2 (JS.exponentOf x).
Proof.
  intros Hx. unfold JS.NumberValue, JS.exponentOf.
  pose proof (Qred_correct x) as Hr.
  assert (Hpos : 0 < Qred x) by (rewrite Hr; exact Hx).
  assert (Habs : Qabs (Qred x) == x) by (rewrite Qabs_pos by (apply Qlt_le_weak; exact Hpos); exact Hr).
  assert (Hapos : 0 < Qabs (Qred x)) by (rewrite Habs; exact Hx).
  destruct (Qle_bool (Qabs (Qred x)) 0) eqn:E.
  { apply Qle_bool_iff in E. exfalso. apply (Qlt_not_le _ _ Hapos E). }
  destruct (Qlt_le_dec (Qred x) 0) as [Hneg|_].
  { exfalso. exact (Qlt_irrefl 0 (Qlt_trans _ _ _ Hpos Hneg)). }
  rewrite Qred_correct.
  rewrite (ilog2_Qeq _ _ Hapos Habs).
  assert (Ediv : Qabs (Qred x) / JS.pow2 (Z.max (JS.ilog2 x - 52) (-1074)) ==
                 x / JS.pow2 (Z.max (JS.ilog2 x - 52) (-1074))).
  { rewrite Habs. reflexivity. }
  rewrite (roundTiesToEven_Qeq _ _ Ediv). reflexivity.
Qed.

Lemma NumberValue_opp (x : Q) : JS.NumberValue (- x) == - JS.NumberValue x.
Proof.
  destruct (Qlt_le_dec 0 x) as [Hpos|Hle].
  - (* x positive *)
    unfold JS.NumberValue at 1. rewrite Qred_opp.
    assert (Hp : 0 < Qred x) by (rewrite Qred_correct; exact Hpos).
    assert (Habs : Qabs (- Qred x) = Qabs (Qred x)).
    { destruct (Qred x) as [a b]. unfold Qabs, Qopp. simpl. rewrite Z.abs_opp. reflexivity. }
    rewrite Habs.
    destruct (Qlt_le_dec (- Qred x) 0) as [_|Hge].
    2:{ exfalso. apply (Qlt_not_le _ _ Hp). apply Qopp_le_compat in Hge.
        rewrite Qopp_involutive in Hge. exact Hge. }
    unfold JS.NumberValue.
    destruct (Qlt_le_dec (Qred x) 0) as [Hlt|_].
    { exfalso. exact (Qlt_irrefl 0 (Qlt_trans _ _ _ Hp Hlt)). }
    destruct (Qle_bool (Qabs (Qred x)) 0); reflexivity.
  - apply Qle_lteq in Hle as [Hneg|Hz].
    + (* x negative *)
      unfold JS.NumberValue at 2.
      assert (Hn : Qred x < 0) by (rewrite Qred_correct; exact Hneg).
      assert (Habs : Qabs (Qred (- x)) = Qabs (Qred x)).
      { rewrite Qred_opp. destruct (Qred x) as [a b]. unfold Qabs, Qopp. simpl.
        rewrite Z.abs_opp. reflexivity. }
      destruct (Qlt_le_dec (Qred x) 0) as [_|Hge]; [|exfalso; apply (Qlt_not_le _ _ Hn Hge)].
      unfold JS.NumberValue. rewrite Habs.
      destruct (Qlt_le_dec (Qred (- x)) 0) as [Hlt|_].
      { exfalso. rewrite Qred_correct in Hlt. apply (Qlt_irrefl 0).
        eapply Qlt_trans; [|exact Hlt]. apply (Qopp_lt_compat x 0). exact Hneg. }
      destruct (Qle_bool (Qabs (Qred x)) 0); [reflexivity|].
      rewrite Qopp_involutive. reflexivity.
    + rewrite (NumberValue_zero x Hz).
      rewrite (NumberValue_zero (- x)) by (rewrite Hz; reflexivity). reflexivity.
Qed.

Lemma ilog2_scaled (m e : Z) :
  (0 < m)%Z -> JS.ilog2 (inject_Z m * JS.pow2 e) = (Z.log2 m + e)%Z.
Proof.
  intros Hm. destruct (Z.log2_spec m Hm) as [Hl Hu].
  pose proof (Z.log2_nonneg m) as Hn.
  apply ilog2_unique.
  - rewrite pow2_plus. apply mul_pow2_le. rewrite pow2_Z by exact Hn.
    rewrite <- Zle_Qle. exact Hl.
  - replace (Z.log2 m + e + 1)%Z with (Z.succ (Z.log2 m) + e)%Z by lia.
    rewrite pow2_plus. apply mul_pow2_lt. rewrite pow2_Z by lia.
    rewrite <- Zlt_Qlt. exact Hu.
Qed.

(** A positive double is its own Number value. *)
Lemma NumberValue_representable (m e : Z) :
  (0 < m <= 2 ^ 53)%Z -> (-1074 <= e)%Z ->
  JS.NumberValue (inject_Z m * JS.pow2 e) == inject_Z m * JS.pow2 e.
Proof.
  intros [Hm Hmax] He.
  assert (Hx : 0 < inject_Z m * JS.pow2 e).
  { apply Qmult_lt_0_compat; [rewrite <- (Zlt_Qlt 0); exact Hm | apply pow2_pos]. }
  rewrite (NumberValue_pos _ Hx). unfold JS.exponentOf. rewrite (ilog2_scaled m e Hm).
  pose proof (Z.log2_nonneg m) as Hn.
  assert (Hlog : (Z.log2 m <= 53)%Z).
  { apply Z.log2_le_mono in Hmax. rewrite Z.log2_pow2 in Hmax by lia. exact Hmax. }
  destruct (Z.eq_dec (Z.log2 m) 53) as [E53|N53].
  - (* m = 2^53 *)
    assert (Em : m = (2 ^ 53)%Z).
    { destruct (Z.log2_spec m Hm) as [Hl _]. rewrite E53 in Hl. lia. }
    rewrite E53. replace (Z.max (53 + e - 52) (-1074)) with (e + 1)%Z by lia.
    assert (Ediv : inject_Z m * JS.pow2 e / JS.pow2 (e + 1) == inject_Z (2 ^ 52)).
    { rewrite div_pow2, <- Qmult_assoc, <- pow2_plus.
      replace (e + - (e + 1))%Z with (-1)%Z by lia. subst m. reflexivity. }
    rewrite (roundTiesToEven_Qeq _ _ Ediv), roundTiesToEven_Z.
    rewrite pow2_plus. subst m. change (JS.pow2 1) with 2.
    change (inject_Z (2 ^ 53)) with (inject_Z (2 ^ 52) * 2). ring.
  - set (E := Z.max (Z.log2 m + e - 52) (-1074)).
    assert (HE : (E <= e)%Z) by (subst E; lia).
    assert (Ediv : inject_Z m * JS.pow2 e / JS.pow2 E == inject_Z (m * 2 ^ (e - E))).
    { rewrite div_pow2, <- Qmult_assoc, <- pow2_plus.
      replace (e + - E)%Z with (e - E)%Z by lia.
      rewrite pow2_Z by lia. rewrite inject_Z_mult. reflexivity. }
    rewrite (roundTiesToEven_Qeq _ _ Ediv), roundTiesToEven_Z.
    rewrite inject_Z_mult, <- pow2_Z by lia.
    rewrite <- Qmult_assoc, <- pow2_plus.
    replace (e - E + E)%Z with e by lia. reflexivity.
Qed.

(** The Number value of a positive real is [m * 2^e] with [m] at most
    [2^53] and [e] at least -1074. *)
Lemma NumberValue_image (x : Q) :
  0 < x ->
  exists m e : Z,
    (0 <= m <= 2 ^ 53)%Z /\ (-1074 <= e)%Z /\
    JS.NumberValue x == inject_Z m * JS.pow2 e.
Proof.
  intros Hx. exists (JS.roundTiesToEven (x / JS.pow2 (JS.exponentOf x))), (JS.exponentOf x).
  split; [|split; [unfold JS.exponentOf; lia | apply NumberValue_pos; exact Hx]].
  destruct (ilog2_spec x Hx) as [Hl Hu].
  split.
  - apply roundTiesToEven_ge. apply Qle_shift_div_l; [apply pow2_pos|].
    rewrite Qmult_0_l. apply Qlt_le_weak. exact Hx.
  - apply roundTiesToEven_le. apply Qle_shift_div_r; [apply pow2_pos|].
    rewrite <- pow2_Z by lia. rewrite <- pow2_plus.
    apply Qlt_le_weak. eapply Qlt_le_trans; [exact Hu|].
    apply pow2_le. unfold JS.exponentOf. lia.
Qed.

(** Rounding twice is rounding once: the result of an operation is a
    double. *)
Lemma NumberValue_idempotent (x : Q) :
  JS.NumberValue (JS.NumberValue x) == JS.NumberValue x.
Proof.
  assert (Hpos : forall y, 0 < y -> JS.NumberValue (JS.NumberValue y) == JS.NumberValue y).
  { intros y Hy. destruct (NumberValue_image y Hy) as (m & e & [Hm0 Hm] & He & Hv).
    rewrite (NumberValue_Qeq _ _ Hv), Hv.
    destruct (Z.eq_dec m 0) as [->|Hne].
    - rewrite NumberValue_zero by (rewrite Qmult_0_l; reflexivity).
      rewrite Qmult_0_l. reflexivity.
    - apply NumberValue_representable; lia. }
  destruct (Qlt_le_dec 0 x) as [Hx|Hx]; [apply Hpos; exact Hx|].
  apply Qle_lteq in Hx as [Hx|Hx].
  - assert (Hy : 0 < - x) by (apply (Qopp_lt_compat x 0); exact Hx).
    assert (Ex : x == - - x) by (rewrite Qopp_involutive; reflexivity).
    rewrite (NumberValue_Qeq _ _ Ex).
    assert (Eo : JS.NumberValue (- - x) == - JS.NumberValue (- x)) by apply NumberValue_opp.
    rewrite (NumberValue_Qeq _ _ Eo), NumberValue_opp, (Hpos _ Hy), Eo. reflexivity.
  - rewrite (NumberValue_zero x Hx). reflexivity.
Qed.

(** Rounding keeps the sign of a real that is not below the smallest
    double in magnitude. *)
Lemma NumberValue_positive (x : Q) : JS.pow2 (-1074) <= x -> 0 < JS.NumberValue x.
Proof.
  intros Hmin.
  assert (Hx : 0 < x) by (eapply Qlt_le_trans; [apply pow2_pos | exact Hmin]).
  rewrite (NumberValue_pos x Hx).
  destruct (ilog2_spec x Hx) as [Hl _].
  assert (HE : JS.pow2 (JS.exponentOf x) <= x).
  { unfold JS.exponentOf.
    destruct (Z.max_spec (JS.ilog2 x - 52) (-1074)) as [[_ ->]|[_ ->]]; [exact Hmin|].
    eapply Qle_trans; [|exact Hl]. apply pow2_le. lia. }
  apply Qmult_lt_0_compat; [|apply pow2_pos].
  rewrite <- (Zlt_Qlt 0).
  assert (H1 : (1 <= JS.roundTiesToEven (x / JS.pow2 (JS.exponentOf x)))%Z).
  { apply roundTiesToEven_ge. apply Qle_shift_div_l; [apply pow2_pos|].
    rewrite Qmult_1_l. exact HE. }
  lia.
Qed.

Lemma NumberValue_nonneg (x : Q) : 0 <= x -> 0 <= JS.NumberValue x.
Proof.
  intros Hx. apply Qle_lteq in Hx as [Hx|Hx].
  - destruct (NumberValue_image x Hx) as (m & e & [Hm0 _] & _ & Hv). rewrite Hv.
    apply Qmult_le_0_compat; [rewrite <- (Zle_Qle 0); exact Hm0|].
    apply Qlt_le_weak. apply pow2_pos.
  - rewrite (NumberValue_zero x) by (symmetry; exact Hx). apply Qle_refl.
Qed.

(** ** Doubles as multiples of the smallest one *)

Lemma onGrid_zero : Spec.onGrid 0.
Proof. exists 0%Z. rewrite Qmult_0_l. reflexivity. Qed.

Lemma onGrid_Qeq (x y : Q) : x == y -> Spec.onGrid x -> Spec.onGrid y.
Proof. intros E [z Hz]. exists z. rewrite <- E. exact Hz. Qed.

Lemma onGrid_opp (x : Q) : Spec.onGrid x -> Spec.onGrid (- x).
Proof. intros [z Hz]. exists (- z)%Z. rewrite Hz, inject_Z_opp. ring. Qed.

Lemma onGrid_minus (x y : Q) : Spec.onGrid x -> Spec.onGrid y -> Spec.onGrid (x - y).
Proof.
  intros [a Ha] [b Hb]. exists (a - b)%Z. rewrite Ha, Hb. unfold Z.sub.
  rewrite inject_Z_plus, inject_Z_opp. ring.
Qed.

Lemma onGrid_NumberValue (x : Q) : Spec.onGrid (JS.NumberValue x).
Proof.
  assert (Hpos : forall y, 0 < y -> Spec.onGrid (JS.NumberValue y)).
  { intros y Hy. destruct (NumberValue_image y Hy) as (m & e & _ & He & Hv).
    exists (m * 2 ^ (e + 1074))%Z. rewrite Hv, inject_Z_mult, <- pow2_Z by lia.
    rewrite <- Qmult_assoc, <- pow2_plus.
    replace (e + 1074 + -1074)%Z with e by lia. reflexivity. }
  destruct (Qlt_le_dec 0 x) as [Hx|Hx]; [apply Hpos; exact Hx|].
  apply Qle_lteq in Hx as [Hx|Hx].
  - assert (Hy : 0 < - x) by (apply (Qopp_lt_compat x 0); exact Hx).
    apply (onGrid_Qeq (- JS.NumberValue (- x))).
    + rewrite <- NumberValue_opp. rewrite (NumberValue_Qeq (- - x) x); [reflexivity|].
      apply Qopp_involutive.
    + apply onGrid_opp. apply Hpos. exact Hy.
  - rewrite (NumberValue_zero x Hx). apply onGrid_zero.
Qed.

(** A negative multiple of the smallest double rounds to a negative
    double: the difference of two doubles has the sign of the exact
    difference. *)
Lemma NumberValue_negative (x : Q) : Spec.onGrid x -> x < 0 -> JS.NumberValue x < 0.
Proof.
  intros [z Hz] Hx.
  assert (Hzneg : (z < 0)%Z).
  { apply Z.lt_nge. intros Hge. apply (Qlt_not_le _ _ Hx). rewrite Hz.
    apply Qmult_le_0_compat; [rewrite <- (Zle_Qle 0); exact Hge|].
    apply Qlt_le_weak. apply pow2_pos. }
  assert (Hmin : JS.pow2 (-1074) <= - x).
  { rewrite Hz. setoid_replace (- (inject_Z z * JS.pow2 (-1074)))
      with (inject_Z (- z) * JS.pow2 (-1074)) by (rewrite inject_Z_opp; ring).
    rewrite <- (Qmult_1_l (JS.pow2 (-1074))) at 1.
    apply mul_pow2_le. rewrite <- (Zle_Qle 1). lia. }
  pose proof (NumberValue_positive _ Hmin) as Hp.
  rewrite (NumberValue_Qeq x (- - x)) by (rewrite Qopp_involutive; reflexivity).
  rewrite NumberValue_opp.
  apply (Qopp_lt_compat 0 (JS.NumberValue (- x))). exact Hp.
Qed.

(** A whole number of magnitude at most [2^53] is a double. *)
Lemma NumberValue_whole (z : Z) :
  (Z.abs z <= 2 ^ 53)%Z -> JS.NumberValue (inject_Z z) == inject_Z z.
Proof.
  intros Hz.
  assert (Hpos : forall n, (0 < n <= 2 ^ 53)%Z -> JS.NumberValue (inject_Z n) == inject_Z n).
  { intros n Hn.
    assert (E : inject_Z n == inject_Z n * JS.pow2 0) by (change (JS.pow2 0) with 1; ring).
    rewrite E. apply NumberValue_representable; lia. }
  destruct (Z.lt_trichotomy z 0) as [Hneg|[->|Hp]].
  - assert (E : inject_Z z == - inject_Z (- z)) by (rewrite inject_Z_opp; ring).
    rewrite E, NumberValue_opp, Hpos by lia. reflexivity.
  - reflexivity.
  - apply Hpos. lia.
Qed.

(** ** Running sums *)

Lemma reduce_map {A : Type} (f : A -> Q) (l : list A) (acc : Q) :
  JS.reduce (fun sum x => JS.add sum (f x)) acc l = fold_left JS.add (map f l) acc.
Proof.
  unfold JS.reduce. revert acc. induction l as [|x r IH]; intros acc; [reflexivity|].
  simpl. apply IH.
Qed.

Lemma add_eq (x x' y y' : Q) : x == x' -> y == y' -> JS.add x y = JS.add x' y'.
Proof.
  intros Ex Ey. unfold JS.add.
  rewrite (NumberValue_Qeq x x' Ex), (NumberValue_Qeq y y' Ey). reflexivity.
Qed.

Lemma fold_add_Qeq (l : list Q) (acc acc' : Q) :
  acc == acc' -> fold_left JS.add l acc == fold_left JS.add l acc'.
Proof.
  intros E. destruct l as [|x r]; [exact E|]. simpl.
  rewrite (add_eq acc acc' x x E (Qeq_refl x)). reflexivity.
Qed.

(** On doubles the operations round the exact result. *)
Lemma sub_doubles (x y : Q) :
  JS.NumberValue x == x -> JS.NumberValue y == y -> JS.sub x y == JS.NumberValue (x - y).
Proof. intros Hx Hy. unfold JS.sub. rewrite Hx, Hy. reflexivity. Qed.

Lemma add_doubles (x y : Q) :
  JS.NumberValue x == x -> JS.NumberValue y == y -> JS.add x y == JS.NumberValue (x + y).
Proof. intros Hx Hy. unfold JS.add. rewrite Hx, Hy. reflexivity. Qed.

Lemma mul_doubles (x y : Q) :
  JS.NumberValue x == x -> JS.NumberValue y == y -> JS.mul x y == JS.NumberValue (x * y).
Proof. intros Hx Hy. unfold JS.mul. rewrite Hx, Hy. reflexivity. Qed.

(** The running sum is a double at every step. *)
Lemma fold_add_double (l : list Q) (acc : Q) :
  JS.NumberValue acc == acc ->
  JS.NumberValue (fold_left JS.add l acc) == fold_left JS.add l acc.
Proof.
  revert acc. induction l as [|x r IH]; intros acc H; [exact H|].
  simpl. apply IH. apply NumberValue_idempotent.
Qed.

Lemma fold_add_onGrid (l : list Q) (acc : Q) :
  Spec.onGrid acc -> Spec.onGrid (fold_left JS.add l acc).
Proof.
  revert acc. induction l as [|x r IH]; intros acc H; [exact H|].
  simpl. apply IH. apply onGrid_NumberValue.
Qed.

(** Adding zero to a double leaves it as it is. *)
Lemma add_zero (acc x : Q) : JS.NumberValue acc == acc -> x == 0 -> JS.add acc x == acc.
Proof.
  intros H E. unfold JS.add. rewrite (NumberValue_zero x E), Qplus_0_r.
  rewrite NumberValue_idempotent. exact H.
Qed.

(** The summands that are zero can be left out of a running sum. *)
Lemma fold_add_skip_zeros {A : Type} (f : A -> Q) (keep : A -> bool) (l : list A) (acc : Q) :
  (forall x, In x l -> keep x = false -> f x == 0) ->
  JS.NumberValue acc == acc ->
  fold_left JS.add (map f l) acc == fold_left JS.add (map f (filter keep l)) acc.
Proof.
  revert acc. induction l as [|x r IH]; intros acc Hz Hacc; [reflexivity|].
  cbn [map filter fold_left].
  assert (Hr : forall y, In y r -> keep y = false -> f y == 0).
  { intros y Hy. apply Hz. right. exact Hy. }
  destruct (keep x) eqn:Ek.
  - cbn [map fold_left]. apply IH; [exact Hr | apply NumberValue_idempotent].
  - rewrite (fold_add_Qeq _ _ acc).
    + apply IH; assumption.
    + apply add_zero; [exact Hacc | apply Hz; [left; reflexivity | exact Ek]].
Qed.

(** Whole amounts of bounded magnitude add without rounding. *)
Lemma fold_add_whole (l : list Q) (a : Z) :
  forallb Spec.isWhole l = true ->
  (Z.abs a + fold_right Z.add 0 (map (fun x => Z.abs (Qfloor x)) l) <= 2 ^ 53)%Z ->
  fold_left JS.add l (inject_Z a) == inject_Z a + Spec.sum l.
Proof.
  revert a. induction l as [|x r IH]; intros a Hw Hb.
  - simpl. ring.
  - cbn [forallb map fold_right] in *. apply andb_true_iff in Hw as [Hx Hr].
    unfold Spec.isWhole in Hx. apply Qeq_bool_iff in Hx.
    cbn [fold_left Spec.sum fold_right].
    assert (Hnn : (0 <= fold_right Z.add 0 (map (fun x => Z.abs (Qfloor x)) r))%Z).
    { clear. induction r as [|y r IH]; simpl; lia. }
    assert (Es : JS.add (inject_Z a) x == inject_Z (a + Qfloor x)).
    { rewrite (add_eq _ (inject_Z a) _ (inject_Z (Qfloor x)) (Qeq_refl _) Hx).
      unfold JS.add. rewrite !NumberValue_whole by lia.
      rewrite <- inject_Z_plus. apply NumberValue_whole. lia. }
    rewrite (fold_add_Qeq _ _ _ Es), IH; [|exact Hr | lia].
    rewrite inject_Z_plus. set (fx := inject_Z (Qfloor x)) in *. clearbody fx.
    rewrite Hx. unfold Spec.sum. ring.
Qed.

Lemma doubleSum_whole (l : list Q) :
  Spec.wholeAmounts l = true -> Spec.doubleSum l == Spec.sum l.
Proof.
  intros H. unfold Spec.wholeAmounts in H. apply andb_true_iff in H as [Hw Hb].
  apply Z.leb_le in Hb. unfold Spec.doubleSum.
  change 0 with (inject_Z 0). rewrite fold_add_whole; [ring | exact Hw | simpl; lia].
Qed.

Lemma wholeAmounts_Permutation (l l' : list Q) :
  Permutation l l' -> Spec.wholeAmounts l = true -> Spec.wholeAmounts l' = true.
Proof.
  intros P H. unfold Spec.wholeAmounts in *. apply andb_true_iff in H as [Hw Hb].
  apply andb_true_iff. split; [exact (forallb_Permutation _ _ _ P Hw)|].
  assert (E : fold_right Z.add 0%Z (map (fun x => Z.abs (Qfloor x)) l) =
              fold_right Z.add 0%Z (map (fun x => Z.abs (Qfloor x)) l')).
  { clear Hw Hb. induction P as [|x l l' _ IH|x y l|l l' l'' _ IH1 _ IH2]; simpl.
    - reflexivity.
    - rewrite IH. reflexivity.
    - lia.
    - congruence. }
  rewrite <- E. exact Hb.
Qed.

End NumberFacts.

(** ** Printing of numbers *)

(** The arithmetic and the printing functions at work.  A decimal
    literal of a program is the double nearest to it: [1.005] lies below
    1.005 and prints as 1.00, [8.345] above 8.345 and prints as 8.35; one
    eighth is a tie and takes the larger digit.  Sums, differences and
    products are rounded before they are printed. *)
Example NumberValue_ex1 :
  JS.NumberValue (1 # 10) = (3602879701896397 # 36028797018963968)%Q.
Proof. vm_compute. reflexivity. Qed.
Example NumberValue_ex2 : JS.NumberValue (51 # 2) = (51 # 2)%Q.
Proof. vm_compute. reflexivity. Qed.
Example NumberValue_ex3 : JS.NumberValue (JS.pow2 (-1075)) = 0%Q.
Proof. vm_compute. reflexivity. Qed.
Example NumberValue_ex4 : JS.isFinite (JS.NumberValue (JS.pow2 1024 - JS.pow2 970)) = false.
Proof. vm_compute. reflexivity. Qed.
Example add_ex1 :
  JS.toFixed (JS.add (JS.NumberValue (2 # 100)) (1 # 8)) 2 = "0.14" /\
  JS.toFixed (JS.NumberValue (2 # 100) + (1 # 8)) 2 = "0.15".
Proof. split; vm_compute; reflexivity. Qed.
Example add_ex2 :
  JS.Number_toString (JS.add (JS.NumberValue (1 # 10)) (JS.NumberValue (2 # 10))) =
  "0.30000000000000004".
Proof. vm_compute. reflexivity. Qed.
Example sub_ex1 :
  JS.toFixed (JS.sub (JS.NumberValue (211 # 1000)) (JS.NumberValue (76 # 1000))) 2 = "0.14" /\
  JS.toFixed (JS.NumberValue (211 # 1000) - JS.NumberValue (76 # 1000)) 2 = "0.13".
Proof. split; vm_compute; reflexivity. Qed.
Example mul_ex1 :
  JS.toFixed (JS.mul (JS.NumberValue (4021 # 100)) (3 # 2)) 2 = "60.31" /\
  JS.toFixed (JS.NumberValue (4021 # 100) * (3 # 2)) 2 = "60.32".
Proof. split; vm_compute; reflexivity. Qed.
Example toFixed_ex1 : JS.toFixed (51 # 2) 2 = "25.50".
Proof. vm_compute. reflexivity. Qed.
Example toFixed_ex2 : JS.toFixed 0%Q 2 = "0.00".
Proof. vm_compute. reflexivity. Qed.
Example toFixed_ex3 : JS.toFixed (JS.NumberValue (- (1 # 1000))) 2 = "-0.00".
Proof. vm_compute. reflexivity. Qed.
Example toFixed_ex4 : JS.toFixed (JS.NumberValue (1005 # 1000)) 2 = "1.00".
Proof. vm_compute. reflexivity. Qed.
Example toFixed_ex5 : JS.toFixed (JS.NumberValue (8345 # 1000)) 2 = "8.35".
Proof. vm_compute. reflexivity. Qed.
Example toFixed_ex6 : JS.toFixed (1 # 8) 2 = "0.13".
Proof. vm_compute. reflexivity. Qed.
Example toFixed_ex7 : JS.toFixed (- (5 # 2)) 0 = "-3".
Proof. vm_compute. reflexivity. Qed.
Example toFixed_ex8 : JS.toFixed (inject_Z (10 ^ 21)) 2 = "1e+21".
Proof. vm_compute. reflexivity. Qed.
Example toFixed_ex9 :
  JS.toFixed (JS.NumberValue (inject_Z (- 123456 * 10 ^ 20))) 2 = "-1.23456e+25".
Proof. vm_compute. reflexivity. Qed.
Example toFixed_ex10 :
  JS.toFixed (inject_Z (10 ^ 21 - 2 ^ 17)) 2 = "999999999999999868928.00".
Proof. vm_compute. reflexivity. Qed.
Example toString_ex1 : JS.Number_toString (3 # 2) = "1.5".
Proof. vm_compute. reflexivity. Qed.
Example toString_ex2 : JS.Number_toString 2 = "2".
Proof. vm_compute. reflexivity. Qed.
Example toString_ex3 : JS.Number_toString (JS.NumberValue (1 # 1000)) = "0.001".
Proof. vm_compute. reflexivity. Qed.
Example toString_ex4 : JS.Number_toString (JS.NumberValue (1 # 10000000)) = "1e-7".
Proof. vm_compute. reflexivity. Qed.
Example toString_ex5 : JS.Number_toString (- (25 # 100)) = "-0.25".
Proof. vm_compute. reflexivity. Qed.
Example toString_ex6 : JS.Number_toString 1200 = "1200".
Proof. vm_compute. reflexivity. Qed.
Example toString_ex7 :
  JS.Number_toString (JS.NumberValue (12345 # 10000000000)) = "0.0000012345".
Proof. vm_compute. reflexivity. Qed.
Example toString_ex8 :
  JS.Number_toString (JS.NumberValue (12345 # 100000000000)) = "1.2345e-7".
Proof. vm_compute. reflexivity. Qed.
Example toString_ex9 :
  JS.Number_toString (JS.NumberValue (inject_Z (123 * 10 ^ 19))) = "1.23e+21".
Proof. vm_compute. reflexivity. Qed.
Example toString_ex10 : JS.Number_toString (JS.NumberValue (1 # 10)) = "0.1".
Proof. vm_compute. reflexivity. Qed.
Example toString_ex11 : JS.Number_toString (JS.pow2 (-1074)) = "5e-324".
Proof. vm_compute. reflexivity. Qed.
Example toString_ex12 :
  JS.Number_toString (JS.pow2 1024 - JS.pow2 971) = "1.7976931348623157e+308".
Proof. vm_compute. reflexivity. Qed.
Example toString_ex13 : JS.Number_toString (JS.NumberValue (inject_Z (10 ^ 23))) = "1e+23".
Proof. vm_compute. reflexivity. Qed.

Section PrintingFacts.

Lemma length_append (s1 s2 : string) : length (s1 ++ s2) = (length s1 + length s2)%nat.
Proof. induction s1 as [|c r IH]; simpl; [reflexivity | rewrite IH; reflexivity]. Qed.

Lemma length_repeat_char c n : length (JS.repeat_char c n) = n.
Proof. induction n as [|n IH]; simpl; [reflexivity | rewrite IH; reflexivity]. Qed.

Lemma take_drop n s : JS.take n s ++ JS.drop n s = s.
Proof.
  revert s; induction n as [|n IH]; intros [|c r]; simpl; try reflexivity.
  rewrite IH. reflexivity.
Qed.

Lemma length_take n s : (n <= length s)%nat -> length (JS.take n s) = n.
Proof.
  revert s; induction n as [|n IH]; intros [|c r] H; simpl in *; try reflexivity; try lia.
  rewrite IH by lia. reflexivity.
Qed.

Lemma length_drop n s : length (JS.drop n s) = (length s - n)%nat.
Proof.
  revert s; induction n as [|n IH]; intros [|c r]; simpl; try reflexivity.
  apply IH.
Qed.

Lemma allDigits_append s1 s2 :
  Spec.allDigits (s1 ++ s2) = Spec.allDigits s1 && Spec.allDigits s2.
Proof.
  induction s1 as [|c r IH]; simpl; [reflexivity|].
  rewrite IH, andb_assoc. reflexivity.
Qed.

Lemma allDigits_take n s : Spec.allDigits s = true -> Spec.allDigits (JS.take n s) = true.
Proof.
  revert s; induction n as [|n IH]; intros [|c r] H; simpl in *; try reflexivity.
  apply andb_true_iff in H as [Hc Hr]. rewrite Hc, (IH _ Hr). reflexivity.
Qed.

Lemma allDigits_drop n s : Spec.allDigits s = true -> Spec.allDigits (JS.drop n s) = true.
Proof.
  revert s; induction n as [|n IH]; intros [|c r] H; simpl in *; try reflexivity; try assumption.
  apply andb_true_iff in H as [_ Hr]. apply IH; assumption.
Qed.

Lemma allDigits_repeat_zero n : Spec.allDigits (JS.repeat_char "0" n) = true.
Proof. induction n as [|n IH]; simpl; [reflexivity | exact IH]. Qed.

Lemma allDigits_string_of_uint d : Spec.allDigits (NilEmpty.string_of_uint d) = true.
Proof. induction d; simpl; try reflexivity; assumption. Qed.

Lemma allDigits_digits n : Spec.allDigits (JS.digits n) = true.
Proof.
  unfold JS.digits, NilZero.string_of_uint.
  destruct (N.to_uint (Z.to_N n)); try reflexivity;
    apply (allDigits_string_of_uint (_ _)).
Qed.

Lemma digits_nonempty n : (1 <= length (JS.digits n))%nat.
Proof.
  unfold JS.digits, NilZero.string_of_uint.
  destruct (N.to_uint (Z.to_N n)); simpl; lia.
Qed.

(** The digits after the sign of [toFixed(2)] below [10^21]. *)
Lemma toFixed2_small (x : Q) :
  (Qabs x < inject_Z (10 ^ 21))%Q ->
  exists int frac,
    JS.toFixed x 2 = (if Qlt_le_dec (Qred x) 0 then "-" else "") ++ int ++ "." ++ frac /\
    int <> "" /\ Spec.allDigits int = true /\
    length frac = 2%nat /\ Spec.allDigits frac = true.
Proof.
  intros H. unfold JS.toFixed.
  destruct (Qle_bool (inject_Z (10 ^ 21)) (Qabs (Qred x))) eqn:E.
  { apply Qle_bool_iff in E. exfalso. apply (Qlt_not_le _ _ H).
    rewrite <- (Qabs_wd _ _ (Qred_correct x)). exact E. }
  set (n := Qfloor (Qabs (Qred x) * inject_Z (10 ^ Z.of_nat 2) + (1 # 2))).
  pose proof (digits_nonempty n) as Hlen. pose proof (allDigits_digits n) as Hd.
  set (m := JS.digits n) in *. set (k := length m) in *.
  set (m' := if (k <=? 2)%nat then JS.repeat_char "0" (2 + 1 - k) ++ m else m).
  set (k' := if (k <=? 2)%nat then (2 + 1)%nat else k).
  assert (Hk' : length m' = k' /\ (3 <= k')%nat /\ Spec.allDigits m' = true).
  { subst m' k'. destruct (k <=? 2)%nat eqn:E'.
    - apply Nat.leb_le in E'. rewrite length_append, length_repeat_char.
      rewrite allDigits_append, allDigits_repeat_zero, Hd. fold k. repeat split; lia.
    - apply Nat.leb_gt in E'. fold k. repeat split; try lia. exact Hd. }
  destruct Hk' as (Hl & Hk3 & Hall).
  exists (JS.take (k' - 2) m'), (JS.drop (k' - 2) m'). repeat split.
  - intros Habs. apply (f_equal length) in Habs.
    rewrite length_take in Habs by lia. simpl in Habs. lia.
  - apply allDigits_take; exact Hall.
  - rewrite length_drop. lia.
  - apply allDigits_drop; exact Hall.
Qed.

Lemma toFixed_Qeq (x y : Q) (f : nat) : (x == y)%Q -> JS.toFixed x f = JS.toFixed y f.
Proof. intros H. unfold JS.toFixed. rewrite (Qred_complete _ _ H). reflexivity. Qed.

Lemma toFixed2_twoDecimals (x : Q) :
  (Qabs x < inject_Z (10 ^ 21))%Q -> Spec.twoDecimals (JS.toFixed x 2).
Proof.
  intros H. destruct (toFixed2_small x H) as (int & frac & Heq & Hne & Hint & Hlen & Hfrac).
  exists (if Qlt_le_dec (Qred x) 0 then "-" else ""), int, frac.
  repeat split; try assumption.
  destruct (Qlt_le_dec (Qred x) 0); [right | left]; reflexivity.
Qed.

Lemma toFixed_negative (x : Q) (f : nat) :
  (x < 0)%Q -> JS.toFixed x f = "-" ++ JS.toFixed (- x) f.
Proof.
  intros H. unfold JS.toFixed. rewrite Qred_opp.
  assert (Hx : (Qred x < 0)%Q) by (rewrite Qred_correct; exact H).
  assert (Habs : Qabs (- Qred x) = Qabs (Qred x)).
  { destruct (Qred x) as [a b]. unfold Qabs, Qopp. simpl. rewrite Z.abs_opp. reflexivity. }
  rewrite Habs.
  destruct (Qlt_le_dec (Qred x) 0) as [_|Hge]; [|exfalso; apply (Qlt_not_le _ _ Hx Hge)].
  destruct (Qlt_le_dec (- Qred x) 0) as [Hlt|_]; [|reflexivity].
  exfalso. apply (Qlt_irrefl 0). apply Qlt_trans with (- Qred x)%Q; [|exact Hlt].
  apply (Qopp_lt_compat (Qred x) 0). exact Hx.
Qed.

Lemma toFixed2_zero (x : Q) : (x == 0)%Q -> JS.toFixed x 2 = "0.00".
Proof. intros H. rewrite (toFixed_Qeq _ _ 2 H). reflexivity. Qed.

Lemma gt_zero_iff (x : Q) : JS.gt x 0%Q = true <-> (0 < x)%Q.
Proof.
  unfold JS.gt. rewrite negb_true_iff. split; intros H.
  - apply Qnot_le_lt. intros Hle. apply Qle_bool_iff in Hle. congruence.
  - destruct (Qle_bool x 0) eqn:E; [|reflexivity].
    apply Qle_bool_iff in E. exfalso. apply (Qlt_not_le _ _ H E).
Qed.

Lemma currency_not_dash (x : Q) : currency x <> "-".
Proof. unfold currency, rupee. simpl. discriminate. Qed.

End PrintingFacts.

(** ** The CSV text *)

Section CsvFacts.
Import Statements.






Lemma append_assoc (a b c : string) : (a ++ b) ++ c = a ++ (b ++ c).
Proof. induction a as [|x r IH]; simpl; [reflexivity | rewrite IH; reflexivity]. Qed.

End CsvFacts.

(** ** The calendar

    The day number of a civil date and the civil date of a day number are
    inverse to each other on the dates of the calendar. *)

Lemma days_from_civil_from_days z :
  let '(y, m, d) := Calendar.civil_from_days z in Calendar.days_from_civil y m d = z.
Proof.
  unfold Calendar.civil_from_days. cbv zeta.
  set (z' := z + 719468).
  set (era := z' / 146097).
  set (doe := z' - era * 146097).
  assert (Hdoe : 0 <= doe <= 146096) by (subst doe era; Z.div_mod_to_equations; lia).
  assert (Hz : z = era * 146097 + doe - 719468) by (subst doe z'; lia).
  clearbody doe. clearbody era. clear z'.
  set (yoe := (doe - doe / 1460 + doe / 36524 - doe / 146096) / 365).
  assert (Hyoe : 0 <= yoe <= 399) by (subst yoe; Z.div_mod_to_equations; lia).
  set (doy := doe - (365 * yoe + yoe / 4 - yoe / 100)).
  assert (Hdoy : 0 <= doy <= 365).
  { subst doy yoe. Z.div_mod_to_equations. lia. }
  assert (Hdoe' : doe = yoe * 365 + yoe / 4 - yoe / 100 + doy) by (subst doy; lia).
  clearbody doy. clearbody yoe.
  set (mp := (5 * doy + 2) / 153).
  assert (Hmp : 0 <= mp <= 11) by (subst mp; Z.div_mod_to_equations; lia).
  set (d := doy - (153 * mp + 2) / 5 + 1).
  assert (Hd : doy = (153 * mp + 2) / 5 + d - 1) by (subst d; lia).
  clearbody d. clearbody mp.
  unfold Calendar.days_from_civil.
  destruct (mp <? 10) eqn:E; [apply Z.ltb_lt in E | apply Z.ltb_ge in E].
  - replace (mp + 3 <=? 2) with false by (symmetry; apply Z.leb_gt; lia).
    replace (2 <? mp + 3) with true by (symmetry; apply Z.ltb_lt; lia).
    replace (mp + 3 - 3) with mp by lia.
    replace ((yoe + era * 400) / 400) with era by (Z.div_mod_to_equations; lia).
    replace (yoe + era * 400 - era * 400) with yoe by lia. lia.
  - replace (mp - 9 <=? 2) with true by (symmetry; apply Z.leb_le; lia).
    replace (2 <? mp - 9) with false by (symmetry; apply Z.ltb_ge; lia).
    replace (mp - 9 + 9) with mp by lia.
    replace (yoe + era * 400 + 1 - 1) with (yoe + era * 400) by lia.
    replace ((yoe + era * 400) / 400) with era by (Z.div_mod_to_equations; lia).
    replace (yoe + era * 400 - era * 400) with yoe by lia. lia.
Qed.

Lemma civil_day_range z :
  let '(y, m, d) := Calendar.civil_from_days z in 1 <= m <= 12 /\ 1 <= d <= Calendar.daysInMonth y m.
Proof.
  unfold Calendar.civil_from_days. cbv zeta.
  set (z' := z + 719468).
  set (era := z' / 146097).
  set (doe := z' - era * 146097).
  assert (Hdoe : 0 <= doe <= 146096) by (subst doe era; Z.div_mod_to_equations; lia).
  clearbody doe. clearbody era. clear z'.
  set (yoe := (doe - doe / 1460 + doe / 36524 - doe / 146096) / 365).
  assert (Hyoe : 0 <= yoe <= 399) by (subst yoe; Z.div_mod_to_equations; lia).
  set (doy := doe - (365 * yoe + yoe / 4 - yoe / 100)).
  assert (Hdoy : 0 <= doy <= 365).
  { subst doy yoe. Z.div_mod_to_equations. lia. }
  assert (Hleap : doy = 365 -> (yoe + 1) mod 4 = 0 /\ ((yoe + 1) mod 100 <> 0 \/ yoe = 399)).
  { subst doy yoe. Z.div_mod_to_equations. lia. }
  clearbody doy. clearbody yoe. clear Hdoe doe.
  set (mp := (5 * doy + 2) / 153).
  assert (Hmp : 0 <= mp <= 11) by (subst mp; Z.div_mod_to_equations; lia).
  set (d := doy - (153 * mp + 2) / 5 + 1).
  assert (Hmpd : (mp = 0 \/ mp = 1 \/ mp = 2 \/ mp = 3 \/ mp = 4 \/ mp = 5 \/ mp = 6 \/ mp = 7 \/ mp = 8 \/ mp = 9 \/ mp = 10 \/ mp = 11)) by lia.
  assert (Hdl : 1 <= d).
  { subst d mp. Z.div_mod_to_equations. lia. }
  assert (Hdu : d <= 31 /\ ((mp = 1 \/ mp = 3 \/ mp = 6 \/ mp = 8) -> d <= 30) /\ (mp = 11 -> d <= 29 /\ (d = 29 -> doy = 365))).
  { subst d mp. Z.div_mod_to_equations. lia. }
  clearbody d. clearbody mp.
  unfold Calendar.daysInMonth, Calendar.isLeapYear.
  destruct (mp <? 10) eqn:E; [apply Z.ltb_lt in E | apply Z.ltb_ge in E].
  - replace (mp + 3 <=? 2) with false by (symmetry; apply Z.leb_gt; lia).
    split; [lia|]. split; [lia|].
    replace (mp + 3 =? 2) with false by (symmetry; apply Z.eqb_neq; lia).
    destruct Hmpd as [H|[H|[H|[H|[H|[H|[H|[H|[H|[H|[H|H]]]]]]]]]]]; subst mp; simpl; lia.
  - replace (mp - 9 <=? 2) with true by (symmetry; apply Z.leb_le; lia).
    split; [lia|]. split; [lia|].
    assert (mp = 10 \/ mp = 11) as [H|H] by lia; subst mp; simpl; [lia|].
    destruct Hdu as (_ & _ & Hfeb). destruct (Hfeb eq_refl) as [H29 Hd29].
    destruct (Z.eq_dec d 29) as [Heq|Hne].
    + destruct (Hleap (Hd29 Heq)) as [H4 H100].
      assert (Hy4 : (yoe + era * 400 + 1) mod 4 = 0) by (Z.div_mod_to_equations; lia).
      rewrite Hy4. simpl.
      destruct H100 as [H100|H399].
      * assert (Hy100 : (yoe + era * 400 + 1) mod 100 <> 0) by (Z.div_mod_to_equations; lia).
        apply Z.eqb_neq in Hy100. rewrite Hy100. simpl. lia.
      * assert (Hy400 : (yoe + era * 400 + 1) mod 400 = 0) by (Z.div_mod_to_equations; lia).
        rewrite Hy400. rewrite orb_true_r. lia.
    + destruct (_ || _); lia.
Qed.

Lemma civil_from_days_from_civil y m d :
  1 <= m <= 12 -> 1 <= d <= Calendar.daysInMonth y m ->
  Calendar.civil_from_days (Calendar.days_from_civil y m d) = (y, m, d).
Proof.
  intros Hm Hd.
  unfold Calendar.days_from_civil.
  set (y1 := if m <=? 2 then y - 1 else y).
  set (mp := if 2 <? m then m - 3 else m + 9).
  assert (Hy1 : y = if m <=? 2 then y1 + 1 else y1).
  { subst y1. destruct (m <=? 2); lia. }
  assert (Hmp : 0 <= mp <= 11 /\ m = if mp <? 10 then mp + 3 else mp - 9).
  { subst mp. destruct (2 <? m) eqn:E; [apply Z.ltb_lt in E | apply Z.ltb_ge in E].
    - replace (m - 3 <? 10) with true by (symmetry; apply Z.ltb_lt; lia). lia.
    - replace (m + 9 <? 10) with false by (symmetry; apply Z.ltb_ge; lia). lia. }
  assert (Hmle : (m <=? 2) = negb (mp <? 10)).
  { subst mp. destruct (2 <? m) eqn:E; [apply Z.ltb_lt in E | apply Z.ltb_ge in E].
    - replace (m - 3 <? 10) with true by (symmetry; apply Z.ltb_lt; lia).
      apply Z.leb_gt. lia.
    - replace (m + 9 <? 10) with false by (symmetry; apply Z.ltb_ge; lia).
      apply Z.leb_le. lia. }
  clearbody mp. clearbody y1.
  set (era := y1 / 400).
  set (yoe := y1 - era * 400).
  assert (Hyoe : 0 <= yoe <= 399) by (subst yoe era; Z.div_mod_to_equations; lia).
  assert (Hy1' : y1 = yoe + era * 400) by (subst yoe; lia).
  (* bound on the day from the month length *)
  assert (Hdm : d <= 31 /\ ((mp = 1 \/ mp = 3 \/ mp = 6 \/ mp = 8) -> d <= 30) /\
                (mp = 11 -> d <= 29 /\
                            (d = 29 -> (yoe + 1) mod 4 = 0 /\ ((yoe + 1) mod 100 <> 0 \/ yoe = 399)))).
  { revert Hd. unfold Calendar.daysInMonth, Calendar.isLeapYear.
    destruct Hmp as [Hr Hmeq].
    assert (Hmpd : (mp = 0 \/ mp = 1 \/ mp = 2 \/ mp = 3 \/ mp = 4 \/ mp = 5 \/ mp = 6 \/
                    mp = 7 \/ mp = 8 \/ mp = 9 \/ mp = 10 \/ mp = 11)) by lia.
    destruct Hmpd as [H|[H|[H|[H|[H|[H|[H|[H|[H|[H|[H|H]]]]]]]]]]]; subst mp;
      simpl in Hmeq; subst m; simpl; try lia.
    simpl in Hy1. intros Hd. split; [|split; [lia|]].
    { destruct (_ || _); lia. }
    intros _. split; [destruct (_ || _); lia|]. intros Hd29.
    destruct ((y mod 4 =? 0) && negb (y mod 100 =? 0) || (y mod 400 =? 0)) eqn:El; [|lia].
    apply orb_true_iff in El. destruct El as [El|El].
    - apply andb_true_iff in El as [E4 E100]. apply Z.eqb_eq in E4.
      apply negb_true_iff in E100. apply Z.eqb_neq in E100.
      clear Hd. Z.div_mod_to_equations. lia.
    - apply Z.eqb_eq in El. clear Hd. Z.div_mod_to_equations. lia. }
  clearbody yoe. clearbody era.
  set (doy := (153 * mp + 2) / 5 + d - 1).
  assert (Hdoy : 0 <= doy <= 365 /\ (5 * doy + 2) / 153 = mp /\
                 (doy = 365 -> (yoe + 1) mod 4 = 0 /\ ((yoe + 1) mod 100 <> 0 \/ yoe = 399))).
  { destruct Hmp as [Hr _]. destruct Hd as [Hd1 _]. clear Hy1 Hmle Hy1' Hm.
    subst doy. Z.div_mod_to_equations. lia. }
  assert (Hd' : d = doy - (153 * mp + 2) / 5 + 1) by (subst doy; lia).
  clearbody doy.
  set (doe := yoe * 365 + yoe / 4 - yoe / 100 + doy).
  assert (Hdoe : 0 <= doe <= 146096 /\
                 (doe - doe / 1460 + doe / 36524 - doe / 146096) / 365 = yoe).
  { destruct Hdoy as (Hr & _ & Hl). clear Hdm Hd' Hy1 Hmle Hy1' Hm Hd Hmp.
    subst doe. Z.div_mod_to_equations. lia. }
  assert (Hdoy' : doy = doe - (365 * yoe + yoe / 4 - yoe / 100)) by (subst doe; lia).
  clearbody doe.
  unfold Calendar.civil_from_days. cbv zeta.
  replace (era * 146097 + doe - 719468 + 719468) with (era * 146097 + doe) by lia.
  replace ((era * 146097 + doe) / 146097) with era by (Z.div_mod_to_equations; lia).
  replace (era * 146097 + doe - era * 146097) with doe by lia.
  destruct Hdoe as [_ Hyoe']. rewrite Hyoe'. rewrite <- Hdoy'.
  destruct Hdoy as (_ & Hmp' & _). rewrite Hmp'. rewrite <- Hd'.
  destruct Hmp as [_ Hmeq]. rewrite <- Hmeq. rewrite Hmle.
  rewrite Hy1, Hmle, Hy1'. destruct (mp <? 10); reflexivity.
Qed.

(** The week and the month of a moment, in any time zone. *)
Section CalendarPeriods.
Variable offset : Z.

Lemma localDay_startOfDay d : Calendar.localDay offset (Calendar.startOfDay offset d) = d.
Proof.
  unfold Calendar.localDay, Calendar.startOfDay, Calendar.toLocal, Calendar.fromLocal,
    Calendar.msPerDay, Calendar.msPerMinute.
  Z.div_mod_to_equations. lia.
Qed.

Lemma localDay_endOfDay d : Calendar.localDay offset (Calendar.endOfDay offset d) = d.
Proof.
  unfold Calendar.localDay, Calendar.endOfDay, Calendar.toLocal, Calendar.fromLocal,
    Calendar.msPerDay, Calendar.msPerMinute.
  Z.div_mod_to_equations. lia.
Qed.

Lemma day_contains t :
  Calendar.startOfDay offset (Calendar.localDay offset t) <= t <=
  Calendar.endOfDay offset (Calendar.localDay offset t).
Proof.
  unfold Calendar.localDay, Calendar.startOfDay, Calendar.endOfDay, Calendar.toLocal,
    Calendar.fromLocal, Calendar.msPerDay, Calendar.msPerMinute.
  Z.div_mod_to_equations. lia.
Qed.

Lemma startOfDay_mono d d' :
  d <= d' -> Calendar.startOfDay offset d <= Calendar.startOfDay offset d'.
Proof.
  unfold Calendar.startOfDay, Calendar.fromLocal, Calendar.msPerDay. lia.
Qed.

Lemma endOfDay_mono d d' :
  d <= d' -> Calendar.endOfDay offset d <= Calendar.endOfDay offset d'.
Proof.
  unfold Calendar.endOfDay, Calendar.fromLocal, Calendar.msPerDay. lia.
Qed.

(** The week of [t] runs from a Sunday, first millisecond, to the
    following Saturday, last millisecond, and holds [t]. *)
Theorem week_bounds t :
  exists s e,
    Calendar.startOfWeek offset (Some t) = Some s /\
    Calendar.endOfWeek offset (Some t) = Some e /\
    Calendar.getDay offset s = 0 /\
    Calendar.getDay offset e = 6 /\
    s <= t <= e /\
    e - s = 7 * Calendar.msPerDay - 1.
Proof.
  eexists. eexists. split; [reflexivity|]. split; [reflexivity|].
  pose proof (day_contains t) as Ht.
  set (L := Calendar.localDay offset t) in *.
  assert (Hw : 0 <= Calendar.getDay offset t <= 6).
  { unfold Calendar.getDay. Z.div_mod_to_equations. lia. }
  assert (Hw' : Calendar.getDay offset t = (L + 4) mod 7) by reflexivity.
  set (w := Calendar.getDay offset t) in *.
  split; [|split; [|split]].
  - unfold Calendar.getDay at 1. rewrite localDay_startOfDay.
    Z.div_mod_to_equations. lia.
  - unfold Calendar.getDay at 1. rewrite localDay_endOfDay.
    Z.div_mod_to_equations. lia.
  - pose proof (startOfDay_mono (L - w) L ltac:(lia)).
    pose proof (endOfDay_mono L (L + (6 - w)) ltac:(lia)). lia.
  - unfold Calendar.startOfDay, Calendar.endOfDay, Calendar.fromLocal, Calendar.msPerDay.
    lia.
Qed.

Lemma days_from_civil_day y m d :
  Calendar.days_from_civil y m d = Calendar.days_from_civil y m 1 + d - 1.
Proof. unfold Calendar.days_from_civil. lia. Qed.

(** The month of [t] runs from the first day of its civil month, first
    millisecond, to the last day of that month, last millisecond, and
    holds [t]. *)
Theorem month_bounds t :
  exists y m d s e,
    Calendar.civil_from_days (Calendar.localDay offset t) = (y, m, d) /\
    Calendar.startOfMonth offset (Some t) = Some s /\
    Calendar.endOfMonth offset (Some t) = Some e /\
    Calendar.civil_from_days (Calendar.localDay offset s) = (y, m, 1) /\
    Calendar.civil_from_days (Calendar.localDay offset e) = (y, m, Calendar.daysInMonth y m) /\
    s <= t <= e.
Proof.
  pose proof (day_contains t) as Ht.
  pose proof (civil_day_range (Calendar.localDay offset t)) as Hrange.
  pose proof (days_from_civil_from_days (Calendar.localDay offset t)) as Hback.
  unfold Calendar.startOfMonth, Calendar.endOfMonth. cbn [bind].
  destruct (Calendar.civil_from_days (Calendar.localDay offset t)) as [[y m] d].
  destruct Hrange as [Hm Hd].
  exists y, m, d. eexists. eexists.
  split; [reflexivity|]. split; [reflexivity|]. split; [reflexivity|].
  rewrite localDay_startOfDay, localDay_endOfDay.
  split; [apply civil_from_days_from_civil; lia|].
  split; [apply civil_from_days_from_civil; lia|].
  rewrite (days_from_civil_day y m d) in Hback.
  pose proof (startOfDay_mono (Calendar.days_from_civil y m 1)
                (Calendar.localDay offset t) ltac:(lia)).
  pose proof (endOfDay_mono (Calendar.localDay offset t)
                (Calendar.days_from_civil y m (Calendar.daysInMonth y m))
                ltac:(rewrite (days_from_civil_day y m (Calendar.daysInMonth y m)); lia)).
  lia.
Qed.
End CalendarPeriods.

(** ** The statement *)

Section StatementFacts.
Context {engine : JS.Engine} {dates : DateFns} {data : DataContext}.
Import Statements.

Lemma transactions_Permutation filters :
  Permutation (combined filters) (transactions filters).
Proof. apply sort_Permutation. Qed.

Lemma totalBilled_fold txs : totalBilled txs = Spec.doubleSum (map billed txs).
Proof. apply reduce_map. Qed.

Lemma totalPaid_fold txs : totalPaid txs = Spec.doubleSum (map paid txs).
Proof. apply reduce_map. Qed.

Lemma totalBilled_double txs : (JS.NumberValue (totalBilled txs) == totalBilled txs)%Q.
Proof. rewrite totalBilled_fold. apply fold_add_double. reflexivity. Qed.

Lemma totalPaid_double txs : (JS.NumberValue (totalPaid txs) == totalPaid txs)%Q.
Proof. rewrite totalPaid_fold. apply fold_add_double. reflexivity. Qed.

(** The pending amount is the rounded difference of the two totals. *)
Lemma pending_rounded txs :
  (JS.sub (totalBilled txs) (totalPaid txs) ==
   JS.NumberValue (totalBilled txs - totalPaid txs))%Q.
Proof. apply sub_doubles; [apply totalBilled_double | apply totalPaid_double]. Qed.

Lemma totalBilled_onGrid txs : Spec.onGrid (totalBilled txs).
Proof. rewrite totalBilled_fold. apply fold_add_onGrid. apply onGrid_zero. Qed.

Lemma totalPaid_onGrid txs : Spec.onGrid (totalPaid txs).
Proof. rewrite totalPaid_fold. apply fold_add_onGrid. apply onGrid_zero. Qed.

Lemma billed_combined filters :
  map billed (combined filters) =
  (map Order.totalAmount (getFilteredOrders (filterParams filters)) ++
   map (fun _ => 0%Q) (getFilteredPayments (filterParams filters)))%list.
Proof. unfold combined. rewrite map_app, !map_map. reflexivity. Qed.

Lemma paid_combined filters :
  map paid (combined filters) =
  (map (fun _ => 0%Q) (getFilteredOrders (filterParams filters)) ++
   map Payment.amount (getFilteredPayments (filterParams filters)))%list.
Proof. unfold combined. rewrite map_app, !map_map. reflexivity. Qed.

Lemma filter_Permutation {A : Type} (p : A -> bool) (l l' : list A) :
  Permutation l l' -> Permutation (filter p l) (filter p l').
Proof.
  induction 1 as [|x l l' _ IH|x y l|l l' l'' _ IH1 _ IH2]; simpl.
  - constructor.
  - destruct (p x); [constructor|]; exact IH.
  - destruct (p x), (p y); try reflexivity. apply perm_swap.
  - eapply perm_trans; eassumption.
Qed.

Lemma orders_of_combined filters :
  filter Spec.isOrder (combined filters) =
  map orderTransaction (getFilteredOrders (filterParams filters)).
Proof.
  unfold combined. rewrite filter_app.
  assert (Ho : forall l, filter Spec.isOrder (map orderTransaction l) = map orderTransaction l).
  { induction l as [|o l IH]; simpl; [reflexivity | rewrite IH; reflexivity]. }
  assert (Hp : forall l, filter Spec.isOrder (map paymentTransaction l) = []).
  { induction l as [|q l IH]; simpl; [reflexivity | exact IH]. }
  rewrite Ho, Hp, app_nil_r. reflexivity.
Qed.

Lemma payments_of_combined filters :
  filter Spec.isPayment (combined filters) =
  map paymentTransaction (getFilteredPayments (filterParams filters)).
Proof.
  unfold combined. rewrite filter_app.
  assert (Ho : forall l, filter Spec.isPayment (map orderTransaction l) = []).
  { induction l as [|o l IH]; simpl; [reflexivity | exact IH]. }
  assert (Hp : forall l, filter Spec.isPayment (map paymentTransaction l) =
                         map paymentTransaction l).
  { induction l as [|q l IH]; simpl; [reflexivity | rewrite IH; reflexivity]. }
  rewrite Ho, Hp. reflexivity.
Qed.

(** The billed amounts of the order rows are the totals of the filtered
    orders, rearranged; likewise the paid amounts of the payment rows. *)
Lemma billed_of_orders filters :
  Permutation (map billed (filter Spec.isOrder (transactions filters)))
              (map Order.totalAmount (getFilteredOrders (filterParams filters))).
Proof.
  rewrite <- (filter_Permutation _ _ _ (transactions_Permutation filters)).
  rewrite orders_of_combined, map_map. reflexivity.
Qed.

Lemma paid_of_payments filters :
  Permutation (map paid (filter Spec.isPayment (transactions filters)))
              (map Payment.amount (getFilteredPayments (filterParams filters))).
Proof.
  rewrite <- (filter_Permutation _ _ _ (transactions_Permutation filters)).
  rewrite payments_of_combined, map_map. reflexivity.
Qed.

Lemma transaction_origin filters tx :
  In tx (transactions filters) ->
  (exists o, tx = orderTransaction o) \/ (exists q, tx = paymentTransaction q).
Proof.
  intros H. apply (Permutation_in _ (Permutation_sym (transactions_Permutation filters))) in H.
  unfold combined in H. apply in_app_or in H as [H|H]; apply in_map_iff in H as (r & Hr & _);
    [left | right]; exists r; symmetry; exact Hr.
Qed.

(** A payment row adds nothing to the total billed, an order row nothing
    to the total paid: the running sum is a double, which adding zero
    leaves as it is. *)
Lemma totalBilled_orders filters :
  (totalBilled (transactions filters) ==
   Spec.doubleSum (map billed (filter Spec.isOrder (transactions filters))))%Q.
Proof.
  rewrite totalBilled_fold. unfold Spec.doubleSum. apply fold_add_skip_zeros.
  - intros tx Htx Hk. destruct (transaction_origin filters tx Htx) as [[o ->]|[q ->]].
    + discriminate Hk.
    + reflexivity.
  - reflexivity.
Qed.

Lemma totalPaid_payments filters :
  (totalPaid (transactions filters) ==
   Spec.doubleSum (map paid (filter Spec.isPayment (transactions filters))))%Q.
Proof.
  rewrite totalPaid_fold. unfold Spec.doubleSum. apply fold_add_skip_zeros.
  - intros tx Htx Hk. destruct (transaction_origin filters tx Htx) as [[o ->]|[q ->]].
    + reflexivity.
    + discriminate Hk.
  - reflexivity.
Qed.

End StatementFacts.

Section RenderingFacts.
Context {engine : JS.Engine} {dates : DateFns} {data : DataContext}.
Import Statements.

Lemma rows_of (pattern : string) (c : bool) (cell : JS.number -> string)
      (row : Transaction -> option (list string)) (txs : list Transaction) :
  (forall tx, row tx =
              (d <- format (new_Date (date tx)) pattern ;;
               Some (d :: optional c [customerName tx] ++
                     [description tx; cell (billed tx); cell (paid tx)])%list)) ->
  forallb (fun tx => Spec.formats new_Date pattern (date tx)) txs = true ->
  exists rows, mapM row txs = Some rows /\ Spec.bodyRows pattern c cell txs rows.
Proof.
  intros Hrow Hok.
  destruct (mapM_total_b row txs) as [rows Hrows].
  { rewrite forallb_forall in *. intros tx Htx. specialize (Hok tx Htx).
    rewrite Hrow. unfold Spec.formats in Hok.
    destruct (format (new_Date (date tx)) pattern); [reflexivity | discriminate]. }
  exists rows. split; [exact Hrows|].
  apply mapM_Forall2 in Hrows. eapply Forall2_impl; [|exact Hrows].
  intros tx r Hr. cbv beta in Hr. rewrite Hrow in Hr.
  destruct (format (new_Date (date tx)) pattern) as [d|]; [|discriminate].
  exists d. split; [reflexivity|]. simpl in Hr. destruct c; simpl in *; congruence.
Qed.

Lemma optional_columns (c : bool) (d n desc b p : string) :
  (d :: optional c [n] ++ [desc; b; p])%list = Spec.columns c d n desc b p.
Proof. destruct c; reflexivity. Qed.

(** The on-screen page. *)
Lemma render_rows filters :
  Spec.tableDatesOk filters = true ->
  exists rows,
    Spec.bodyRows "MMM dd, yyyy" (includeCustomerName filters) amountCell
                  (transactions filters) rows /\
    render filters =
    Some {| activePeriodButtons :=
              filter (fun p => String.eqb (period filters) p) ["today"; "week"; "month"];
            dateFromInput := dateFrom filters;
            dateToInput := dateTo filters;
            customerSelect := customer filters;
            totalAmountCard := currency (totalBilled (transactions filters));
            receivedAmountCard := currency (totalPaid (transactions filters));
            pendingAmountCard :=
              currency (JS.sub (totalBilled (transactions filters))
                               (totalPaid (transactions filters)));
            details :=
              match transactions filters with
              | [] => NoTransactions "No transactions found"
                                     "Try adjusting your filters to see results"
              | _ => Table (Spec.headerRow (includeCustomerName filters)) rows
              end |}.
Proof.
  intros Hok.
  destruct (rows_of "MMM dd, yyyy" (includeCustomerName filters) amountCell
              (tableRow filters) (transactions filters)) as (rows & Hrows & Hall).
  { intros tx. reflexivity. }
  { exact Hok. }
  exists rows. split; [exact Hall|].
  unfold render. rewrite Hrows.
  destruct (transactions filters) as [|tx txs]; [reflexivity|].
  cbn [List.length Nat.eqb bind]. unfold tableHead. rewrite optional_columns. reflexivity.
Qed.

(** The PDF document. *)
Variable lastAutoTable_finalY : AutoTableOptions -> Z.

Lemma generatePDF_calls filters :
  Spec.pdfDatesOk filters = true ->
  exists from to rows customerLine,
    format (parseISO (dateFrom filters)) "MMM dd, yyyy" = Some from /\
    format (parseISO (dateTo filters)) "MMM dd, yyyy" = Some to /\
    Spec.bodyRows "dd/MM/yyyy" (includeCustomerName filters) amountCell
                  (transactions filters) rows /\
    (customerLine = [] \/ exists name, customerLine = [text ("Customer: " ++ name) 20 48]) /\
    let options :=
      {| head := [Spec.headerRow (includeCustomerName filters)];
         body := rows;
         startY := 60;
         styles_fontSize := 9;
         headStyles_fillColor := [14; 165; 233];
         columnStyles_halign_right :=
           [if includeCustomerName filters then 3 else 2;
            if includeCustomerName filters then 4 else 3] |} in
    let finalY := lastAutoTable_finalY options + 15 in
    generatePDF lastAutoTable_finalY filters =
    Some ([setFontSize 20;
           text "Jay Goga Milk Supplier" 20 20;
           setFontSize 14;
           text "Account Statement" 20 30;
           setFontSize 10;
           text ("Period: " ++ from ++ " to " ++ to) 20 40] ++
          customerLine ++
          [autoTable options;
           setFontSize 12;
           text ("Total Amount: " ++ currency (totalBilled (transactions filters))) 20 finalY;
           text ("Received Amount: " ++ currency (totalPaid (transactions filters)))
                20 (finalY + 8);
           setFontSize 14;
           text ("Pending Amount: " ++
                 currency (JS.sub (totalBilled (transactions filters))
                                  (totalPaid (transactions filters))))
                20 (finalY + 20);
           save ("account-statement-" ++ dateFrom filters ++ "-to-" ++
                 dateTo filters ++ ".pdf")])%list.
Proof.
  intros Hok. unfold Spec.pdfDatesOk in Hok.
  apply andb_true_iff in Hok as [Hok Hrowsok]. apply andb_true_iff in Hok as [Hfrom Hto].
  unfold Spec.formats in Hfrom, Hto.
  destruct (format (parseISO (dateFrom filters)) "MMM dd, yyyy") as [from|] eqn:Efrom;
    [|discriminate].
  destruct (format (parseISO (dateTo filters)) "MMM dd, yyyy") as [to|] eqn:Eto;
    [|discriminate].
  destruct (rows_of "dd/MM/yyyy" (includeCustomerName filters) amountCell
              (pdfRow filters) (transactions filters)) as (rows & Hrows & Hall).
  { intros tx. reflexivity. }
  { exact Hrowsok. }
  exists from, to, rows. eexists. split; [reflexivity|]. split; [reflexivity|].
  split; [exact Hall|].
  unfold generatePDF. rewrite Efrom, Eto, Hrows. cbn [bind].
  unfold pdfHead. rewrite optional_columns. fold (Spec.headerRow (includeCustomerName filters)).
  split; [|reflexivity].
  destruct (String.eqb (customer filters) ""); [left; reflexivity|].
  right. eexists. reflexivity.
Qed.

(** The CSV rows. *)
Lemma csvTable_rows filters :
  Spec.csvDatesOk filters = true ->
  exists rows,
    Spec.bodyRows "yyyy-MM-dd" (includeCustomerName filters) (fun x => JS.toFixed x 2)
                  (transactions filters) rows /\
    csvTable filters =
    Some ([Spec.headerRow (includeCustomerName filters)] ++
          rows ++
          [[]; Spec.columns (includeCustomerName filters) "" "" "Total"
                            (JS.toFixed (totalBilled (transactions filters)) 2)
                            (JS.toFixed (totalPaid (transactions filters)) 2)])%list.
Proof.
  intros Hok.
  destruct (rows_of "yyyy-MM-dd" (includeCustomerName filters) (fun x => JS.toFixed x 2)
              (csvDataRow filters) (transactions filters)) as (rows & Hrows & Hall).
  { intros tx. reflexivity. }
  { exact Hok. }
  exists rows. split; [exact Hall|].
  unfold csvTable. rewrite Hrows. cbn [bind].
  unfold csvHeaders, csvTotalRow. rewrite !optional_columns. reflexivity.
Qed.
End RenderingFacts.

Section ShowsFacts.
Context {engine : JS.Engine} {dates : DateFns} {data : DataContext}.
Import Statements.

Lemma tableShows_ok filters :
  Spec.tableDatesOk filters = true -> Spec.tableShows filters amountCell.
Proof.
  intros H. destruct (render_rows filters H) as (rows & Hrows & Hr).
  eexists. exists rows. split; [exact Hr|]. split; [exact Hrows | reflexivity].
Qed.

Lemma pdfShows_ok finalY filters :
  Spec.pdfDatesOk filters = true -> Spec.pdfShows finalY filters amountCell.
Proof.
  intros H.
  destruct (generatePDF_calls finalY filters H)
    as (from & to & rows & line & _ & _ & Hrows & _ & Hcalls).
  cbv zeta in Hcalls. eexists. eexists. split; [exact Hcalls|].
  split; [apply in_or_app; right; apply in_or_app; right; left; reflexivity|].
  split; [reflexivity | exact Hrows].
Qed.

Lemma csvShows_ok filters :
  Spec.csvDatesOk filters = true -> Spec.csvShows filters (fun x => JS.toFixed x 2).
Proof.
  intros H. destruct (csvTable_rows filters H) as (rows & Hrows & Hr).
  exists rows. split; [exact Hr | exact Hrows].
Qed.

End ShowsFacts.

(** ** The customer history *)

Section HistoryFacts.
Context {engine : JS.Engine} {dates : DateFns} {data : DataContext}.
Import CustomerDetailsModal.

Lemma renderOrder_cards (l : list Order.t) :
  forallb (fun o => Spec.formats parseISO "MMM dd, yyyy" (Order.orderDate o)) l = true ->
  exists cards, mapM renderOrder l = Some cards /\ Forall2 Spec.cardOf l cards.
Proof.
  intros Hok.
  destruct (mapM_total_b renderOrder l) as [cards Hcards].
  { rewrite forallb_forall in *. intros o Ho. specialize (Hok o Ho).
    unfold Spec.formats in Hok. unfold renderOrder.
    destruct (format (parseISO (Order.orderDate o)) "MMM dd, yyyy");
      [reflexivity | discriminate]. }
  exists cards. split; [exact Hcards|].
  apply mapM_Forall2 in Hcards. eapply Forall2_impl; [|exact Hcards].
  intros o card Hr. cbv beta in Hr. unfold renderOrder in Hr.
  destruct (format (parseISO (Order.orderDate o)) "MMM dd, yyyy") as [d|] eqn:E;
    [|discriminate].
  simpl in Hr. injection Hr as Hr. subst card.
  exists d. repeat split. exact E.
Qed.
End HistoryFacts.

(** ** The claims *)

(** C1, as the code has it.  For every filter window whose running sums
    stay finite, the total billed of the statement is the sum, added
    left to right from zero in the order of the statement and rounded to
    a double after every addition, of the billed amounts of its order
    rows; these amounts are the [totalAmount]s of the orders that
    [getFilteredOrders] returns for the window, rearranged by the sort;
    a payment row adds zero and changes nothing.  Likewise the total paid
    and the [amount]s of the payments that [getFilteredPayments] returns.
    When the amounts are whole numbers whose magnitudes add up to at most
    2^53, no addition rounds and the totals are the exact sums.  An order
    enters with its [totalAmount] as billed and 0 as paid, a payment with
    0 as billed and its [amount] as paid. *)
Theorem C1_totals_are_double_sums_in_statement_order :
  forall (engine : JS.Engine) (dates : DateFns) (data : DataContext)
         (filters : Statements.Filters),
    let fp := Statements.filterParams filters in
    let txs := Statements.transactions filters in
    let billedOfOrders := map Statements.billed (filter Spec.isOrder txs) in
    let paidOfPayments := map Statements.paid (filter Spec.isPayment txs) in
    Spec.finiteSum (map Statements.billed txs) = true ->
    Spec.finiteSum (map Statements.paid txs) = true ->
    (Statements.totalBilled txs == Spec.doubleSum billedOfOrders)%Q /\
    (Statements.totalPaid txs == Spec.doubleSum paidOfPayments)%Q /\
    Permutation billedOfOrders (map Order.totalAmount (getFilteredOrders fp)) /\
    Permutation paidOfPayments (map Payment.amount (getFilteredPayments fp)) /\
    (Spec.wholeAmounts (map Order.totalAmount (getFilteredOrders fp)) = true ->
     (Statements.totalBilled txs ==
      Spec.sum (map Order.totalAmount (getFilteredOrders fp)))%Q) /\
    (Spec.wholeAmounts (map Payment.amount (getFilteredPayments fp)) = true ->
     (Statements.totalPaid txs ==
      Spec.sum (map Payment.amount (getFilteredPayments fp)))%Q) /\
    map (fun tx => (Statements.billed tx, Statements.paid tx)) (Statements.combined filters) =
      (map (fun o => (Order.totalAmount o, 0%Q)) (getFilteredOrders fp) ++
       map (fun p => (0%Q, Payment.amount p)) (getFilteredPayments fp))%list /\
    FilterParams.customer fp =
      (if String.eqb (Statements.customer filters) "" then None
       else Some (Statements.customer filters)) /\
    FilterParams.dateFrom fp = Statements.dateFrom filters /\
    FilterParams.dateTo fp = Statements.dateTo filters.
Proof.
  intros engine dates data filters fp txs billedOfOrders paidOfPayments _ _.
  pose proof (totalBilled_orders filters) as Hb.
  pose proof (totalPaid_payments filters) as Hp.
  pose proof (billed_of_orders filters) as Pb.
  pose proof (paid_of_payments filters) as Pp.
  split; [exact Hb|]. split; [exact Hp|]. split; [exact Pb|]. split; [exact Pp|].
  split; [|split].
  - intros Hw. subst txs. rewrite Hb.
    rewrite doubleSum_whole by (exact (wholeAmounts_Permutation _ _ (Permutation_sym Pb) Hw)).
    apply sum_Permutation. exact Pb.
  - intros Hw. subst txs. rewrite Hp.
    rewrite doubleSum_whole by (exact (wholeAmounts_Permutation _ _ (Permutation_sym Pp) Hw)).
    apply sum_Permutation. exact Pp.
  - split; [|repeat split].
    unfold Statements.combined. rewrite map_app, !map_map. reflexivity.
Qed.

Lemma C1_witness :
  (Statements.totalBilled
     (Statements.transactions (engine := Sample.engine) (dates := Sample.utc)
                              (data := Sample.data) Sample.january) ==
   Spec.doubleSum [100; 51 # 2; 50])%Q /\
  (Statements.totalPaid
     (Statements.transactions (engine := Sample.engine) (dates := Sample.utc)
                              (data := Sample.data) Sample.january) ==
   Spec.doubleSum [40; 60])%Q /\
  (Spec.doubleSum [100; 51 # 2; 50] == 351 # 2)%Q /\
  (Statements.totalPaid
     (Statements.transactions (engine := Sample.engine) (dates := Sample.utc)
                              (data := Sample.data) Sample.january) == 100)%Q.
Proof.
  destruct (C1_totals_are_double_sums_in_statement_order Sample.engine Sample.utc Sample.data
              Sample.january eq_refl eq_refl) as (Hb & Hp & _ & _ & _ & Hwhole & _).
  split; [exact Hb|]. split; [exact Hp|]. split; [reflexivity|].
  rewrite (Hwhole eq_refl). reflexivity.
Defined.

(** C1 fails as stated.  Three orders of 0.282, 0.3 and 0.093, returned
    latest first, are added earliest first: the card reads 0.68, while
    their sum in exact arithmetic, and also their sum added in the order
    in which they were returned, print as 0.67. *)
Lemma C1_counterexample_sum_depends_on_rounding_and_order :
  let txs := Statements.transactions (engine := Sample.engine) (dates := Sample.utc)
                                     (data := Sample.paise) Sample.january in
  let amounts := map Order.totalAmount
                     (getFilteredOrders (DataContext := Sample.paise)
                                        (Statements.filterParams Sample.january)) in
  amounts = [JS.NumberValue (282 # 1000); JS.NumberValue (3 # 10); JS.NumberValue (93 # 1000)] /\
  Spec.finiteSum (map Statements.billed txs) = true /\
  ~ (Statements.totalBilled txs == Spec.sum amounts)%Q /\
  ~ (Statements.totalBilled txs == Spec.doubleSum amounts)%Q /\
  (exists view,
      Statements.render (engine := Sample.engine) (dates := Sample.utc)
                        (data := Sample.paise) Sample.january = Some view /\
      Statements.totalAmountCard view = rupee ++ "0.68") /\
  currency (Spec.sum amounts) = rupee ++ "0.67" /\
  currency (Spec.doubleSum amounts) = rupee ++ "0.67".
Proof.
  intros txs amounts.
  split; [reflexivity|]. split; [vm_compute; reflexivity|].
  split.
  { intros H. apply (toFixed_Qeq _ _ 2) in H. vm_compute in H. discriminate H. }
  split.
  { intros H. apply (toFixed_Qeq _ _ 2) in H. vm_compute in H. discriminate H. }
  split; [eexists; split; [vm_compute; reflexivity | reflexivity]|].
  split; vm_compute; reflexivity.
Qed.

(** C2. When every date of the filtered orders and payments parses, the
    transactions come out in non-decreasing order of their parsed date,
    and the transactions of one date keep the order of the merged input:
    the orders of that date, as returned, then its payments, as
    returned. *)
Theorem C2_transactions_sorted_by_date_stable :
  forall (engine : JS.Engine) (dates : DateFns) (data : DataContext) (filters : Statements.Filters),
    forallb (fun tx => Spec.isValid (Statements.date tx)) (Statements.combined filters) = true ->
    StronglySorted (fun a b => Spec.notAfter (Statements.date a) (Statements.date b))
                   (Statements.transactions filters) /\
    forall t : Z,
      filter (fun tx => Spec.onDate t (Statements.date tx)) (Statements.transactions filters) =
      (filter (fun tx => Spec.onDate t (Statements.date tx))
              (map Statements.orderTransaction
                   (getFilteredOrders (Statements.filterParams filters))) ++
       filter (fun tx => Spec.onDate t (Statements.date tx))
              (map Statements.paymentTransaction
                   (getFilteredPayments (Statements.filterParams filters))))%list.
Proof.
  intros engine dates data filters Hvalid.
  destruct (sort_ascending Statements.date (Statements.combined filters) Hvalid)
    as [Hsorted Hstable].
  split.
  - exact Hsorted.
  - intros t. rewrite <- filter_app. exact (Hstable t).
Qed.

Lemma C2_witness :
  StronglySorted (fun a b => @Spec.notAfter Sample.utc (Statements.date a) (Statements.date b))
                 (@Statements.transactions Sample.engine Sample.utc Sample.data Sample.january) /\
  filter (fun tx => @Spec.onDate Sample.utc 1704844800000 (Statements.date tx))
         (@Statements.transactions Sample.engine Sample.utc Sample.data Sample.january) =
    [@Statements.orderTransaction Sample.o1; @Statements.paymentTransaction Sample.p1].
Proof.
  destruct (C2_transactions_sorted_by_date_stable Sample.engine Sample.utc Sample.data Sample.january eq_refl)
    as (Hsorted & Hstable).
  split; [exact Hsorted|]. rewrite Hstable. reflexivity.
Defined.

(** C3, as the code has it.  When the totals and their difference are
    finite, the pending amount shown on the summary card and in the PDF
    footer is the currency form of total billed minus total paid, the
    difference being rounded to a double; it is not clamped: when total
    paid exceeds total billed the pending amount is negative and the
    text shows a minus sign followed by the excess, and both renderings
    are produced as for any other statement; otherwise the pending
    amount is not negative. *)
Theorem C3_pending_is_the_double_difference :
  forall (engine : JS.Engine) (dates : DateFns) (data : DataContext)
         (finalY : Statements.AutoTableOptions -> Z) (filters : Statements.Filters),
    let txs := Statements.transactions filters in
    let pending := JS.sub (Statements.totalBilled txs) (Statements.totalPaid txs) in
    Spec.totalsInRange filters = true ->
    (Spec.tableDatesOk filters = true ->
     exists view, Statements.render filters = Some view /\
                  Statements.pendingAmountCard view = currency pending) /\
    (Spec.pdfDatesOk filters = true ->
     exists calls y, Statements.generatePDF finalY filters = Some calls /\
                     In (Statements.text ("Pending Amount: " ++ currency pending) 20 y) calls) /\
    ((Statements.totalBilled txs < Statements.totalPaid txs)%Q ->
     (pending < 0)%Q /\
     currency pending =
     rupee ++ "-" ++
     JS.toFixed (JS.sub (Statements.totalPaid txs) (Statements.totalBilled txs)) 2) /\
    ((Statements.totalPaid txs <= Statements.totalBilled txs)%Q -> (0 <= pending)%Q).
Proof.
  intros engine dates data finalY filters txs pending _. split; [|split; [|split]].
  - intros H. destruct (render_rows filters H) as (rows & _ & Hr).
    eexists. split; [exact Hr | reflexivity].
  - intros H.
    destruct (generatePDF_calls finalY filters H)
      as (from & to & rows & line & _ & _ & _ & _ & Hcalls).
    cbv zeta in Hcalls. eexists. eexists. split; [exact Hcalls|].
    apply in_or_app; right. apply in_or_app; right.
    do 5 right. left. reflexivity.
  - intros H.
    assert (Hneg : (pending < 0)%Q).
    { subst pending. rewrite pending_rounded. apply NumberValue_negative.
      - apply onGrid_minus; [apply totalBilled_onGrid | apply totalPaid_onGrid].
      - lra. }
    split; [exact Hneg|]. unfold currency. f_equal.
    rewrite (toFixed_negative _ _ Hneg). f_equal. apply toFixed_Qeq.
    subst pending. rewrite pending_rounded.
    rewrite (sub_doubles _ _ (totalPaid_double txs) (totalBilled_double txs)).
    rewrite <- NumberValue_opp. apply NumberValue_Proper. ring.
  - intros H. subst pending. rewrite pending_rounded. apply NumberValue_nonneg. lra.
Qed.

Lemma C3_witness :
  (exists view,
      Statements.render (engine := Sample.engine) (dates := Sample.utc) (data := Sample.data)
                        Sample.januaryBhavin = Some view /\
      Statements.pendingAmountCard view = rupee ++ "-14.50") /\
  (exists calls y,
      Statements.generatePDF (engine := Sample.engine) (dates := Sample.utc)
                             (data := Sample.data) Sample.finalY Sample.januaryBhavin =
        Some calls /\
      In (Statements.text ("Pending Amount: " ++ rupee ++ "-14.50") 20 y) calls) /\
  (JS.sub (Statements.totalBilled
             (Statements.transactions (engine := Sample.engine) (dates := Sample.utc)
                                      (data := Sample.data) Sample.januaryBhavin))
          (Statements.totalPaid
             (Statements.transactions (engine := Sample.engine) (dates := Sample.utc)
                                      (data := Sample.data) Sample.januaryBhavin)) < 0)%Q.
Proof.
  destruct (C3_pending_is_the_double_difference Sample.engine Sample.utc Sample.data
              Sample.finalY Sample.januaryBhavin eq_refl) as (Hcard & Hpdf & Hneg & _).
  split; [|split].
  - apply Hcard. reflexivity.
  - apply Hpdf. reflexivity.
  - apply Hneg. reflexivity.
Defined.

(** C3 fails as stated.  With one order of 0.211 and one payment of
    0.076 the two totals are these amounts; the card reads 0.14, the
    rounding of their difference as a double, while total billed minus
    total paid, taken exactly, prints as 0.13. *)
Lemma C3_counterexample_difference_is_rounded :
  let txs := Statements.transactions (engine := Sample.engine) (dates := Sample.utc)
                                     (data := Sample.small) Sample.january in
  Spec.totalsInRange (engine := Sample.engine) (dates := Sample.utc) (data := Sample.small)
                     Sample.january = true /\
  (Statements.totalBilled txs == JS.NumberValue (211 # 1000))%Q /\
  (Statements.totalPaid txs == JS.NumberValue (76 # 1000))%Q /\
  (exists view,
      Statements.render (engine := Sample.engine) (dates := Sample.utc)
                        (data := Sample.small) Sample.january = Some view /\
      Statements.totalAmountCard view = rupee ++ "0.21" /\
      Statements.receivedAmountCard view = rupee ++ "0.08" /\
      Statements.pendingAmountCard view = rupee ++ "0.14") /\
  currency (Statements.totalBilled txs - Statements.totalPaid txs)%Q = rupee ++ "0.13" /\
  ~ (JS.sub (Statements.totalBilled txs) (Statements.totalPaid txs) ==
     Statements.totalBilled txs - Statements.totalPaid txs)%Q.
Proof.
  intros txs.
  split; [vm_compute; reflexivity|].
  split; [vm_compute; reflexivity|]. split; [vm_compute; reflexivity|].
  split; [eexists; split; [vm_compute; reflexivity | repeat split]|].
  split; [vm_compute; reflexivity|].
  intros H. apply (toFixed_Qeq _ _ 2) in H. vm_compute in H. discriminate H.
Qed.



(** C5. In the on-screen table (drawn when there is a transaction), in
    the PDF table and in the CSV rows, the header and every row carry the
    customer column exactly when the customer of the filter is the empty
    string; with a customer selected the column is absent from all
    three. *)
Theorem C5_customer_column_iff_no_customer :
  forall (engine : JS.Engine) (dates : DateFns) (data : DataContext)
         (finalY : Statements.AutoTableOptions -> Z) (filters : Statements.Filters),
    let c := Statements.includeCustomerName filters in
    (Spec.tableDatesOk filters = true -> Spec.tableShows filters Statements.amountCell) /\
    (Spec.pdfDatesOk filters = true -> Spec.pdfShows finalY filters Statements.amountCell) /\
    (Spec.csvDatesOk filters = true -> Spec.csvShows filters (fun x => JS.toFixed x 2)) /\
    (In "Customer" (Spec.headerRow c) <-> Statements.customer filters = "") /\
    (Statements.customer filters = "" ->
     Spec.headerRow c = ["Date"; "Customer"; "Description"; "Billed"; "Paid"] /\
     forall d n desc b p, Spec.columns c d n desc b p = [d; n; desc; b; p]) /\
    (Statements.customer filters <> "" ->
     Spec.headerRow c = ["Date"; "Description"; "Billed"; "Paid"] /\
     forall d n desc b p, Spec.columns c d n desc b p = [d; desc; b; p]).
Proof.
  intros engine dates data finalY filters c.
  split; [apply tableShows_ok|]. split; [apply pdfShows_ok|]. split; [apply csvShows_ok|].
  subst c. unfold Statements.includeCustomerName.
  destruct (String.eqb_spec (Statements.customer filters) "") as [E|E].
  - split; [split; [intros _; exact E | intros _; simpl; tauto]|].
    split; [intros _; split; reflexivity | intros H; contradiction].
  - split.
    { split; [|intros H; contradiction].
      simpl. intros [H|[H|[H|[H|[]]]]]; discriminate. }
    split; [intros H; contradiction | intros _; split; reflexivity].
Qed.

Lemma C5_witness :
  Spec.tableShows (engine := Sample.engine) (dates := Sample.utc) (data := Sample.data) Sample.januaryAsha
                  Statements.amountCell /\
  Spec.pdfShows (engine := Sample.engine) (dates := Sample.utc) (data := Sample.data) Sample.finalY Sample.januaryAsha
                Statements.amountCell /\
  Spec.csvShows (engine := Sample.engine) (dates := Sample.utc) (data := Sample.data) Sample.januaryAsha
                (fun x => JS.toFixed x 2) /\
  Spec.headerRow (Statements.includeCustomerName Sample.januaryAsha) =
    ["Date"; "Description"; "Billed"; "Paid"] /\
  Spec.headerRow (Statements.includeCustomerName Sample.january) =
    ["Date"; "Customer"; "Description"; "Billed"; "Paid"].
Proof.
  destruct (C5_customer_column_iff_no_customer Sample.engine Sample.utc Sample.data Sample.finalY
              Sample.januaryAsha) as (Ht & Hp & Hc & _ & _ & Hwith).
  destruct (C5_customer_column_iff_no_customer Sample.engine Sample.utc Sample.data Sample.finalY
              Sample.january) as (_ & _ & _ & _ & Hwithout & _).
  split; [apply Ht; reflexivity|]. split; [apply Hp; reflexivity|].
  split; [apply Hc; reflexivity|].
  split; [apply Hwith; discriminate | apply Hwithout; reflexivity].
Defined.

(** C6, as the code has it.  A billed or paid amount of zero is shown as
    the dash in the on-screen table and in the PDF body, whose cells are
    printed by [amountCell]; the CSV rows print the same amounts by
    [toFixed(2)], which gives 0.00 for zero; and every amount whose
    magnitude is below ten to the power 21 is printed with exactly two
    decimal places. *)
Theorem C6_zero_is_dash_csv_is_literal_two_decimals_below_1e21 :
  forall (engine : JS.Engine) (dates : DateFns) (data : DataContext)
         (finalY : Statements.AutoTableOptions -> Z) (filters : Statements.Filters),
    (forall x : Q, (x == 0)%Q ->
                   Statements.amountCell x = "-" /\ JS.toFixed x 2 = "0.00") /\
    (Spec.tableDatesOk filters = true -> Spec.tableShows filters Statements.amountCell) /\
    (Spec.pdfDatesOk filters = true -> Spec.pdfShows finalY filters Statements.amountCell) /\
    (Spec.csvDatesOk filters = true -> Spec.csvShows filters (fun x => JS.toFixed x 2)) /\
    (forall x : Q, (Qabs x < inject_Z (10 ^ 21))%Q ->
                   Spec.twoDecimals (JS.toFixed x 2) /\
                   currency x = rupee ++ JS.toFixed x 2).
Proof.
  intros engine dates data finalY filters.
  split.
  { intros x Hx. split; [|apply toFixed2_zero; exact Hx].
    unfold Statements.amountCell.
    destruct (JS.gt x 0%Q) eqn:E; [|reflexivity].
    apply gt_zero_iff in E. rewrite Hx in E. exfalso. exact (Qlt_irrefl 0 E). }
  split; [apply tableShows_ok|]. split; [apply pdfShows_ok|]. split; [apply csvShows_ok|].
  intros x Hx. split; [apply toFixed2_twoDecimals; exact Hx | reflexivity].
Qed.

Lemma C6_witness :
  (Statements.amountCell 0%Q = "-" /\ JS.toFixed 0%Q 2 = "0.00") /\
  Spec.tableShows (engine := Sample.engine) (dates := Sample.utc) (data := Sample.data) Sample.january
                  Statements.amountCell /\
  Spec.pdfShows (engine := Sample.engine) (dates := Sample.utc) (data := Sample.data) Sample.finalY Sample.january
                Statements.amountCell /\
  Spec.csvShows (engine := Sample.engine) (dates := Sample.utc) (data := Sample.data) Sample.january
                (fun x => JS.toFixed x 2) /\
  Spec.twoDecimals (JS.toFixed (51 # 2) 2) /\
  currency (51 # 2) = rupee ++ "25.50".
Proof.
  destruct (C6_zero_is_dash_csv_is_literal_two_decimals_below_1e21
              Sample.engine Sample.utc Sample.data Sample.finalY Sample.january)
    as (Hzero & Ht & Hp & Hc & Htwo).
  split; [apply Hzero; reflexivity|].
  split; [apply Ht; reflexivity|]. split; [apply Hp; reflexivity|].
  split; [apply Hc; reflexivity|].
  destruct (Htwo (51 # 2)%Q) as (H2 & Hcur); [reflexivity|].
  split; [exact H2 | exact Hcur].
Defined.

(** C6 fails as stated: an order of ten to the power 21 rupees is shown
    as 1e+21 on the summary card, in the table and in the CSV row, which
    is not an amount with two decimal places. *)
Lemma C6_counterexample_amount_1e21 :
  JS.toFixed (inject_Z (10 ^ 21)) 2 = "1e+21" /\
  (exists view,
      @Statements.render Sample.engine Sample.utc Sample.bulkData Sample.january = Some view /\
      Statements.totalAmountCard view = rupee ++ "1e+21" /\
      Statements.details view =
        Statements.Table ["Date"; "Customer"; "Description"; "Billed"; "Paid"]
                         [["Jan 15, 2024"; "Asha"; "Order: "; rupee ++ "1e+21"; "-"]]) /\
  @Statements.csvTable Sample.engine Sample.utc Sample.bulkData Sample.january =
    Some [["Date"; "Customer"; "Description"; "Billed"; "Paid"];
          ["2024-01-15"; "Asha"; "Order: "; "1e+21"; "0.00"];
          [];
          [""; ""; "Total"; "1e+21"; "0.00"]] /\
  ~ Spec.twoDecimals "1e+21".
Proof.
  split; [vm_compute; reflexivity|].
  split; [eexists; split; [vm_compute; reflexivity | split; reflexivity]|].
  split; [vm_compute; reflexivity|].
  intros (sign & int & frac & Heq & Hsign & Hne & Hint & _ & _).
  destruct Hsign; subst sign; simpl in Heq; [|discriminate].
  destruct int as [|c int]; [contradiction|].
  simpl in Heq. injection Heq as Hc Heq. subst c.
  destruct int as [|c int]; simpl in Heq; [discriminate|].
  injection Heq as Hc _. subst c. simpl in Hint. discriminate.
Qed.

(** C7. The quick period today sets both bounds to the current date, week
    sets them to the start and the end of the week of the current date,
    month to the start and the end of its month, whatever the bounds were
    before; editing one date input sets the period to custom and leaves
    the other bound, and the customer, as they were. *)
Theorem C7_quick_periods_and_manual_edits :
  forall (dates : DateFns) (filters : Statements.Filters) (today : Date),
    (forall d,
        format today "yyyy-MM-dd" = Some d ->
        Statements.handlePeriodChange filters today "today" =
        Some {| Statements.customer := Statements.customer filters;
                Statements.dateFrom := d;
                Statements.dateTo := d;
                Statements.period := "today" |}) /\
    (forall d from to,
        format today "yyyy-MM-dd" = Some d ->
        format (startOfWeek today) "yyyy-MM-dd" = Some from ->
        format (endOfWeek today) "yyyy-MM-dd" = Some to ->
        Statements.handlePeriodChange filters today "week" =
        Some {| Statements.customer := Statements.customer filters;
                Statements.dateFrom := from;
                Statements.dateTo := to;
                Statements.period := "week" |}) /\
    (forall d from to,
        format today "yyyy-MM-dd" = Some d ->
        format (startOfMonth today) "yyyy-MM-dd" = Some from ->
        format (endOfMonth today) "yyyy-MM-dd" = Some to ->
        Statements.handlePeriodChange filters today "month" =
        Some {| Statements.customer := Statements.customer filters;
                Statements.dateFrom := from;
                Statements.dateTo := to;
                Statements.period := "month" |}) /\
    (forall value,
        Statements.onChangeDateFrom filters value =
        {| Statements.customer := Statements.customer filters;
           Statements.dateFrom := value;
           Statements.dateTo := Statements.dateTo filters;
           Statements.period := "custom" |}) /\
    (forall value,
        Statements.onChangeDateTo filters value =
        {| Statements.customer := Statements.customer filters;
           Statements.dateFrom := Statements.dateFrom filters;
           Statements.dateTo := value;
           Statements.period := "custom" |}).
Proof.
  intros dates filters today. repeat split.
  - intros d Hd. unfold Statements.handlePeriodChange. rewrite Hd. reflexivity.
  - intros d from to Hd Hfrom Hto. unfold Statements.handlePeriodChange.
    rewrite Hd. cbn [bind String.eqb Ascii.eqb Bool.eqb]. rewrite Hfrom, Hto. reflexivity.
  - intros d from to Hd Hfrom Hto. unfold Statements.handlePeriodChange.
    rewrite Hd. cbn [bind String.eqb Ascii.eqb Bool.eqb]. rewrite Hfrom, Hto. reflexivity.
Qed.

Lemma C7_witness :
  @Statements.handlePeriodChange Sample.utc Sample.february Sample.today "today" =
    Some {| Statements.customer := ""; Statements.dateFrom := "2024-01-05";
            Statements.dateTo := "2024-01-05"; Statements.period := "today" |} /\
  @Statements.handlePeriodChange Sample.utc Sample.february Sample.today "week" =
    Some {| Statements.customer := ""; Statements.dateFrom := "2023-12-31";
            Statements.dateTo := "2024-01-06"; Statements.period := "week" |} /\
  @Statements.handlePeriodChange Sample.utc Sample.february Sample.today "month" =
    Some {| Statements.customer := ""; Statements.dateFrom := "2024-01-01";
            Statements.dateTo := "2024-01-31"; Statements.period := "month" |} /\
  Statements.onChangeDateFrom Sample.january "2024-01-15" =
    {| Statements.customer := ""; Statements.dateFrom := "2024-01-15";
       Statements.dateTo := "2024-01-31"; Statements.period := "custom" |}.
Proof.
  destruct (C7_quick_periods_and_manual_edits Sample.utc Sample.february Sample.today)
    as (Htoday & Hweek & Hmonth & _ & _).
  destruct (C7_quick_periods_and_manual_edits Sample.utc Sample.january Sample.today)
    as (_ & _ & _ & Hfrom & _).
  split; [apply Htoday; reflexivity|].
  split; [apply (Hweek "2024-01-05"); reflexivity|].
  split; [apply (Hmonth "2024-01-05"); reflexivity|].
  apply Hfrom.
Defined.

(** C8. The history of a customer holds exactly the orders whose
    [customerId] is the customer's [id]; when their dates parse they come
    latest first, orders of one date in stored order; and each is
    rendered as a card with one line per item and its [totalAmount], the
    total of a line being the product of price and quantity as the
    program multiplies them, rounded to a double (and finite). *)
Theorem C8_customer_history_latest_first :
  forall (engine : JS.Engine) (dates : DateFns) (data : DataContext) (customer : Customer.t),
    let mine := filter (fun o => String.eqb (Order.customerId o) (Customer.id customer))
                       orders in
    let shown := CustomerDetailsModal.customerOrders customer in
    Permutation mine shown /\
    (forall o, In o shown <-> In o orders /\ Order.customerId o = Customer.id customer) /\
    (forallb (fun o => Spec.isValid (Order.orderDate o)) mine = true ->
     StronglySorted (fun a b => Spec.notAfter (Order.orderDate b) (Order.orderDate a)) shown /\
     forall t : Z,
       filter (fun o => Spec.onDate t (Order.orderDate o)) shown =
       filter (fun o => Spec.onDate t (Order.orderDate o)) mine) /\
    (Spec.historyDatesOk customer = true ->
     Spec.lineTotalsInRange customer = true ->
     exists view cards,
       CustomerDetailsModal.render customer = Some view /\
       Forall2 Spec.cardOf shown cards /\
       CustomerDetailsModal.history view =
         match shown with
         | [] => CustomerDetailsModal.NoOrders "No orders placed by this customer yet."
         | _ => CustomerDetailsModal.Orders cards
         end).
Proof.
  intros engine dates data customer mine shown.
  assert (Hperm : Permutation mine shown) by apply sort_Permutation.
  split; [exact Hperm|]. split.
  { intros o. split.
    - intros Ho. apply (Permutation_in _ (Permutation_sym Hperm)) in Ho.
      subst mine. apply filter_In in Ho as [Hin Heq].
      apply String.eqb_eq in Heq. split; assumption.
    - intros [Hin Heq]. apply (Permutation_in _ Hperm).
      subst mine. apply filter_In. split; [exact Hin|]. apply String.eqb_eq. exact Heq. }
  split.
  { intros Hvalid. exact (sort_descending Order.orderDate mine Hvalid). }
  intros Hok _. destruct (renderOrder_cards shown Hok) as (cards & Hcards & Hall).
  unfold CustomerDetailsModal.render. fold shown. rewrite Hcards.
  clearbody shown. clear Hperm Hok Hcards.
  destruct shown as [|o l]; eexists; exists cards;
    (split; [reflexivity|]); (split; [exact Hall | reflexivity]).
Qed.

Lemma C8_witness :
  CustomerDetailsModal.customerOrders (engine := Sample.engine) (dates := Sample.utc)
                                      (data := Sample.data) Sample.asha =
    [Sample.o1; Sample.o3] /\
  StronglySorted (fun a b => Spec.notAfter (dates := Sample.utc)
                                           (Order.orderDate b) (Order.orderDate a))
                 (CustomerDetailsModal.customerOrders
                    (engine := Sample.engine) (dates := Sample.utc) (data := Sample.data)
                    Sample.asha) /\
  (exists view cards,
      CustomerDetailsModal.render (engine := Sample.engine) (dates := Sample.utc)
                                  (data := Sample.data) Sample.asha = Some view /\
      Forall2 (Spec.cardOf (dates := Sample.utc))
              (CustomerDetailsModal.customerOrders
                 (engine := Sample.engine) (dates := Sample.utc) (data := Sample.data)
                 Sample.asha) cards /\
      CustomerDetailsModal.history view = CustomerDetailsModal.Orders cards) /\
  (exists view,
      CustomerDetailsModal.render (engine := Sample.engine) (dates := Sample.utc)
                                  (data := Sample.looseData) Sample.chetan = Some view /\
      CustomerDetailsModal.history view =
        CustomerDetailsModal.Orders
          [{| CustomerDetailsModal.card_key := "o7";
              CustomerDetailsModal.card_title := "Order on Jan 20, 2024";
              CustomerDetailsModal.card_status := "pending";
              CustomerDetailsModal.card_delivered := false;
              CustomerDetailsModal.card_lines :=
                [{| CustomerDetailsModal.item_label := "1.5x Milk";
                    CustomerDetailsModal.item_unitPrice := "(@ " ++ rupee ++ "40.21)";
                    CustomerDetailsModal.item_lineTotal := rupee ++ "60.31" |};
                 {| CustomerDetailsModal.item_label := "0.1x Cream";
                    CustomerDetailsModal.item_unitPrice := "(@ " ++ rupee ++ "80.00)";
                    CustomerDetailsModal.item_lineTotal := rupee ++ "8.00" |}];
              CustomerDetailsModal.card_total := "Order Total: " ++ rupee ++ "68.32" |}]).
Proof.
  destruct (C8_customer_history_latest_first Sample.engine Sample.utc Sample.data Sample.asha)
    as (_ & _ & Hsorted & Hrender).
  destruct (C8_customer_history_latest_first Sample.engine Sample.utc Sample.looseData
              Sample.chetan) as (_ & _ & _ & Hloose).
  split; [reflexivity|].
  split; [apply Hsorted; reflexivity|].
  split.
  - destruct (Hrender eq_refl eq_refl) as (view & cards & Hv & Hcards & Hh).
    exists view, cards. split; [exact Hv|]. split; [exact Hcards | exact Hh].
  - destruct (Hloose eq_refl eq_refl) as (view & cards & Hv & _ & _).
    exists view. split; [exact Hv|].
    vm_compute in Hv. injection Hv as <-. vm_compute. reflexivity.
Defined.

(** C9. When the window yields no order and no payment, the transaction
    list is empty, the page is rendered whatever the date library does,
    with the state No transactions found in place of the table, and the
    three totals read 0.00. *)
Theorem C9_empty_window_renders_empty_state :
  forall (engine : JS.Engine) (dates : DateFns) (data : DataContext) (filters : Statements.Filters),
    getFilteredOrders (Statements.filterParams filters) = [] ->
    getFilteredPayments (Statements.filterParams filters) = [] ->
    Statements.transactions filters = [] /\
    exists view,
      Statements.render filters = Some view /\
      Statements.details view =
        Statements.NoTransactions "No transactions found"
                                  "Try adjusting your filters to see results" /\
      Statements.totalAmountCard view = rupee ++ "0.00" /\
      Statements.receivedAmountCard view = rupee ++ "0.00" /\
      Statements.pendingAmountCard view = rupee ++ "0.00".
Proof.
  intros engine dates data filters Ho Hp.
  assert (Htx : Statements.transactions filters = []).
  { unfold Statements.transactions, Statements.combined. rewrite Ho, Hp. reflexivity. }
  split; [exact Htx|].
  unfold Statements.render. rewrite Htx. cbn [List.length Nat.eqb bind].
  eexists. split; [reflexivity|]. repeat split.
Qed.

Lemma C9_witness :
  @Statements.transactions Sample.engine Sample.utc Sample.data Sample.february = [] /\
  exists view,
    @Statements.render Sample.engine Sample.utc Sample.data Sample.february = Some view /\
    Statements.details view =
      Statements.NoTransactions "No transactions found"
                                "Try adjusting your filters to see results" /\
    Statements.totalAmountCard view = rupee ++ "0.00" /\
    Statements.receivedAmountCard view = rupee ++ "0.00" /\
    Statements.pendingAmountCard view = rupee ++ "0.00".
Proof.
  apply (C9_empty_window_renders_empty_state Sample.engine Sample.utc Sample.data Sample.february);
    reflexivity.
Defined.

(** C10. In the on-screen table and in the PDF body a billed or paid cell
    shows the currency amount exactly when the amount is greater than
    zero and the dash otherwise: the Paid cell of an order row and the
    Billed cell of a payment row are dashes, and so is the cell of a
    negative amount. *)
Theorem C10_amount_cell_positive_or_dash :
  forall (engine : JS.Engine) (dates : DateFns) (data : DataContext)
         (finalY : Statements.AutoTableOptions -> Z) (filters : Statements.Filters),
    (Spec.tableDatesOk filters = true -> Spec.tableShows filters Statements.amountCell) /\
    (Spec.pdfDatesOk filters = true -> Spec.pdfShows finalY filters Statements.amountCell) /\
    (forall x : Q, Statements.amountCell x = currency x <-> (0 < x)%Q) /\
    (forall x : Q, Statements.amountCell x = "-" <-> ~ (0 < x)%Q) /\
    (forall x : Q, (x < 0)%Q -> Statements.amountCell x = "-") /\
    (forall o, Statements.amountCell (Statements.paid (Statements.orderTransaction o)) = "-") /\
    (forall p, Statements.amountCell (Statements.billed (Statements.paymentTransaction p)) = "-").
Proof.
  intros engine dates data finalY filters.
  assert (Hpos : forall x : Q, (0 < x)%Q -> Statements.amountCell x = currency x).
  { intros x Hx. unfold Statements.amountCell.
    apply gt_zero_iff in Hx. rewrite Hx. reflexivity. }
  assert (Hdash : forall x : Q, ~ (0 < x)%Q -> Statements.amountCell x = "-").
  { intros x Hx. unfold Statements.amountCell.
    destruct (JS.gt x 0%Q) eqn:E; [|reflexivity].
    apply gt_zero_iff in E. contradiction. }
  split; [apply tableShows_ok|]. split; [apply pdfShows_ok|].
  split.
  { intros x. split; [|apply Hpos].
    intros H. apply Qnot_le_lt. intros Hle.
    rewrite Hdash in H by (apply Qle_not_lt; exact Hle).
    symmetry in H. exact (currency_not_dash x H). }
  split.
  { intros x. split; [|apply Hdash].
    intros H Hx. rewrite (Hpos x Hx) in H. exact (currency_not_dash x H). }
  split.
  { intros x Hx. apply Hdash. apply Qle_not_lt. apply Qlt_le_weak. exact Hx. }
  split; intros; reflexivity.
Qed.

Lemma C10_witness :
  Spec.tableShows (engine := Sample.engine) (dates := Sample.utc) (data := Sample.data) Sample.january
                  Statements.amountCell /\
  Spec.pdfShows (engine := Sample.engine) (dates := Sample.utc) (data := Sample.data) Sample.finalY Sample.january
                Statements.amountCell /\
  Statements.amountCell (51 # 2)%Q = rupee ++ "25.50" /\
  Statements.amountCell (- (29 # 2))%Q = "-".
Proof.
  destruct (C10_amount_cell_positive_or_dash Sample.engine Sample.utc Sample.data Sample.finalY
              Sample.january) as (Ht & Hp & Hcur & _ & Hneg & _ & _).
  split; [apply Ht; reflexivity|]. split; [apply Hp; reflexivity|].
  split; [apply Hcur; reflexivity | apply Hneg; reflexivity].
Defined.

(** ** The components on the calendar *)

Section OnTheCalendar.
Variable offset : Z.

Lemma append_empty_r (s : string) : s ++ "" = s.
Proof. induction s as [|c r IH]; simpl; [reflexivity | rewrite IH; reflexivity]. Qed.

Lemma format_iso (t : Z) :
  Calendar.format offset (Some t) "yyyy-MM-dd" =
  Some (Calendar.isoDate (Calendar.civil_from_days (Calendar.localDay offset t))).
Proof.
  unfold Calendar.format. cbn [bind].
  destruct (Calendar.civil_from_days (Calendar.localDay offset t)) as [[y m] d].
  unfold Calendar.isoDate.
  rewrite <- (append_empty_r (Calendar.addLeadingZeros d 2)). reflexivity.
Qed.

(** On the calendar the quick periods never throw: today gives the civil
    date of the moment for both bounds; week gives the Sunday on or
    before it and the Saturday on or after it; month gives the first and
    the last day of its civil month. *)
Theorem quick_periods_on_the_calendar (filters : Statements.Filters) (t : Z) :
  let dates := Calendar.dateFns offset in
  let L := Calendar.localDay offset t in
  let w := Calendar.getDay offset t in
  let '(y, m, d) := Calendar.civil_from_days L in
  Statements.handlePeriodChange (dates := dates) filters (Some t) "today" =
    Some {| Statements.customer := Statements.customer filters;
            Statements.dateFrom := Calendar.isoDate (y, m, d);
            Statements.dateTo := Calendar.isoDate (y, m, d);
            Statements.period := "today" |} /\
  Statements.handlePeriodChange (dates := dates) filters (Some t) "week" =
    Some {| Statements.customer := Statements.customer filters;
            Statements.dateFrom := Calendar.isoDate (Calendar.civil_from_days (L - w));
            Statements.dateTo := Calendar.isoDate (Calendar.civil_from_days (L + (6 - w)));
            Statements.period := "week" |} /\
  Statements.handlePeriodChange (dates := dates) filters (Some t) "month" =
    Some {| Statements.customer := Statements.customer filters;
            Statements.dateFrom := Calendar.isoDate (y, m, 1);
            Statements.dateTo := Calendar.isoDate (y, m, Calendar.daysInMonth y m);
            Statements.period := "month" |} /\
  0 <= w <= 6 /\ (L - w + 4) mod 7 = 0 /\ (L + (6 - w) + 4) mod 7 = 6 /\
  1 <= m <= 12 /\ 1 <= d <= Calendar.daysInMonth y m.
Proof.
  intros dates L w.
  pose proof (civil_day_range L) as Hrange.
  destruct (month_bounds offset t) as (y & m & d & s & e & Hc & Hs & He & Hcs & Hce & _).
  fold L in Hc. rewrite Hc in *.
  assert (Htoday : format (DateFns := dates) (Some t) "yyyy-MM-dd" =
                   Some (Calendar.isoDate (y, m, d))).
  { change (Calendar.format offset (Some t) "yyyy-MM-dd" = Some (Calendar.isoDate (y, m, d))).
    rewrite format_iso. fold L. rewrite Hc. reflexivity. }
  assert (Hmonth :
            format (DateFns := dates) (startOfMonth (DateFns := dates) (Some t)) "yyyy-MM-dd" =
              Some (Calendar.isoDate (y, m, 1)) /\
            format (DateFns := dates) (endOfMonth (DateFns := dates) (Some t)) "yyyy-MM-dd" =
              Some (Calendar.isoDate (y, m, Calendar.daysInMonth y m))).
  { change (Calendar.format offset (Calendar.startOfMonth offset (Some t)) "yyyy-MM-dd" =
              Some (Calendar.isoDate (y, m, 1)) /\
            Calendar.format offset (Calendar.endOfMonth offset (Some t)) "yyyy-MM-dd" =
              Some (Calendar.isoDate (y, m, Calendar.daysInMonth y m))).
    rewrite Hs, He, !format_iso, Hcs, Hce. split; reflexivity. }
  assert (Hweek :
            format (DateFns := dates) (startOfWeek (DateFns := dates) (Some t)) "yyyy-MM-dd" =
              Some (Calendar.isoDate (Calendar.civil_from_days (L - w))) /\
            format (DateFns := dates) (endOfWeek (DateFns := dates) (Some t)) "yyyy-MM-dd" =
              Some (Calendar.isoDate (Calendar.civil_from_days (L + (6 - w))))).
  { change (Calendar.format offset (Calendar.startOfWeek offset (Some t)) "yyyy-MM-dd" =
              Some (Calendar.isoDate (Calendar.civil_from_days (L - w))) /\
            Calendar.format offset (Calendar.endOfWeek offset (Some t)) "yyyy-MM-dd" =
              Some (Calendar.isoDate (Calendar.civil_from_days (L + (6 - w))))).
    unfold Calendar.startOfWeek, Calendar.endOfWeek. cbn [bind].
    rewrite !format_iso, localDay_startOfDay, localDay_endOfDay. split; reflexivity. }
  destruct Hmonth as [Hm1 Hm2]. destruct Hweek as [Hw1 Hw2].
  unfold Statements.handlePeriodChange. rewrite Htoday.
  cbn [bind String.eqb Ascii.eqb Bool.eqb]. rewrite Hm1, Hm2, Hw1, Hw2. cbn [bind fst snd].
  repeat split; try (apply Hrange).
  all: subst w; unfold Calendar.getDay; fold L; Z.div_mod_to_equations; lia.
Qed.
End OnTheCalendar.

(** The scenarios of the spec, run on the sample calendar. *)
Example scenario_order_then_payment :
  map (fun tx => (Statements.date tx, Statements.type tx,
                  Statements.billed tx, Statements.paid tx))
      (@Statements.transactions Sample.engine Sample.utc Sample.scenario1 Sample.january) =
    [("2024-01-05", Statements.order, 100%Q, 0%Q);
     ("2024-01-10", Statements.payment, 0%Q, 60%Q)] /\
  option_map (fun v => (Statements.totalAmountCard v, Statements.receivedAmountCard v,
                        Statements.pendingAmountCard v))
             (@Statements.render Sample.engine Sample.utc Sample.scenario1 Sample.january) =
    Some (rupee ++ "100.00", rupee ++ "60.00", rupee ++ "40.00").
Proof. split; vm_compute; reflexivity. Qed.

Example scenario_two_payments :
  option_map Statements.receivedAmountCard
             (@Statements.render Sample.engine Sample.utc Sample.scenario2 Sample.january) =
    Some (rupee ++ "50.00").
Proof. vm_compute. reflexivity. Qed.

(** In a zone behind UTC the date cell of a row shows the day before the
    stored date: [new Date] reads a date-only string as midnight UTC and
    [format] prints local time. *)
Example date_cell_behind_utc :
  @format (Calendar.dateFns (-300)) (@new_Date (Calendar.dateFns (-300)) "2024-01-05")
          "yyyy-MM-dd" = Some "2024-01-04" /\
  @format (Calendar.dateFns 330) (@new_Date (Calendar.dateFns 330) "2024-01-05")
          "yyyy-MM-dd" = Some "2024-01-05".
Proof. split; vm_compute; reflexivity. Qed.

(** * Further properties of the two components *)

Lemma mapM_None_b {A B : Type} (f : A -> option B) (l : list A) :
  forallb (fun x => match f x with Some _ => true | None => false end) l = false ->
  mapM f l = None.
Proof.
  induction l as [|x r IH]; simpl; [discriminate|].
  destruct (f x) as [y|]; [|reflexivity].
  simpl. intros H. rewrite (IH H). reflexivity.
Qed.

Lemma forallb_eq {A : Type} (p q : A -> bool) (l : list A) :
  (forall x, p x = q x) -> forallb p l = forallb q l.
Proof.
  intros H. induction l as [|x r IH]; simpl; [reflexivity|]. rewrite H, IH. reflexivity.
Qed.

Section Coverage.
Context {engine : JS.Engine} {dates : DateFns} {data : DataContext}.
Import Statements.

(** ** The aggregator *)

(** X1. The aggregator neither drops nor repeats a record: the transactions
    are a rearrangement of the filtered orders followed by the filtered
    payments, so there are as many of them as records, and each is the
    transaction of a returned order or of a returned payment. *)
Theorem transactions_keep_every_record (filters : Filters) :
  let os := getFilteredOrders (filterParams filters) in
  let ps := getFilteredPayments (filterParams filters) in
  Permutation (map orderTransaction os ++ map paymentTransaction ps) (transactions filters) /\
  List.length (transactions filters) = (List.length os + List.length ps)%nat /\
  List.length (filter (fun tx => match type tx with order => true | payment => false end)
                      (transactions filters)) = List.length os /\
  forall tx, In tx (transactions filters) <->
             (exists o, In o os /\ tx = orderTransaction o) \/
             (exists p, In p ps /\ tx = paymentTransaction p).
Proof.
  intros os ps.
  pose proof (transactions_Permutation filters) as P. unfold combined in P. fold os ps in P.
  split; [exact P|]. split; [|split].
  - rewrite <- (Permutation_length P), length_app, !length_map. reflexivity.
  - assert (Hcount : forall l l' : list Transaction, Permutation l l' ->
              List.length (filter (fun tx => match type tx with
                                             | order => true | payment => false end) l) =
              List.length (filter (fun tx => match type tx with
                                             | order => true | payment => false end) l')).
    { induction 1 as [|x l l' _ IH|x y l|l l' l'' _ IH1 _ IH2]; simpl.
      - reflexivity.
      - destruct (type x); simpl; congruence.
      - destruct (type x), (type y); reflexivity.
      - congruence. }
    rewrite <- (Hcount _ _ P), filter_app, length_app.
    assert (Ho : forall l, filter (fun tx => match type tx with
                                             | order => true | payment => false end)
                                  (map orderTransaction l) = map orderTransaction l).
    { induction l as [|o l IH]; simpl; [reflexivity | rewrite IH; reflexivity]. }
    assert (Hp : forall l, filter (fun tx => match type tx with
                                             | order => true | payment => false end)
                                  (map paymentTransaction l) = []).
    { induction l as [|p l IH]; simpl; [reflexivity | exact IH]. }
    rewrite Ho, Hp, length_map. simpl. lia.
  - intros tx. split.
    + intros H. apply (Permutation_in _ (Permutation_sym P)) in H.
      apply in_app_or in H as [H|H]; apply in_map_iff in H as (r & Hr & Hin);
        [left | right]; exists r; split; auto.
    + intros [(o & Ho & ->)|(p & Hp & ->)]; apply (Permutation_in _ P); apply in_or_app;
        [left | right]; apply in_map; assumption.
Qed.

(** ** When a rendering throws *)

Lemma rows_fail (pattern : string) (row : Transaction -> option (list string))
      (cells : Transaction -> string -> list string) (txs : list Transaction) :
  (forall tx, row tx = (d <- format (new_Date (date tx)) pattern ;; Some (cells tx d))) ->
  forallb (fun tx => Spec.formats new_Date pattern (date tx)) txs = false ->
  mapM row txs = None.
Proof.
  intros Hrow Hbad. apply mapM_None_b.
  rewrite (forallb_eq _ (fun tx => Spec.formats new_Date pattern (date tx))); [exact Hbad|].
  intros tx. rewrite Hrow. unfold Spec.formats.
  destruct (format (new_Date (date tx)) pattern); reflexivity.
Qed.

(** X2. The page throws exactly when there is a transaction and the date of
    some transaction cannot be formatted for the table; with no
    transaction it never throws. *)
Theorem render_throws_iff (filters : Filters) :
  render filters = None <->
  transactions filters <> [] /\ Spec.tableDatesOk filters = false.
Proof.
  split.
  - intros H. destruct (Spec.tableDatesOk filters) eqn:Hok.
    + destruct (render_rows filters Hok) as (rows & _ & Hr). congruence.
    + split; [|reflexivity]. intros Hnil. unfold Spec.tableDatesOk in Hok.
      rewrite Hnil in Hok. discriminate.
  - intros [Hne Hbad]. unfold render.
    destruct (transactions filters) as [|tx txs] eqn:Htxs; [contradiction|].
    cbn [List.length Nat.eqb].
    rewrite (rows_fail "MMM dd, yyyy" (tableRow filters)
               (fun tx d => d :: optional (String.eqb (customer filters) "") [customerName tx] ++
                            [description tx; amountCell (billed tx); amountCell (paid tx)])%list).
    + reflexivity.
    + intros tx'. reflexivity.
    + unfold Spec.tableDatesOk in Hbad. rewrite Htxs in Hbad. exact Hbad.
Qed.

(** X3. The CSV export throws exactly when the date of some transaction
    cannot be formatted; the bounds of the window, which only name the
    file, play no part. *)
Theorem exportToCSV_throws_iff (filters : Filters) :
  exportToCSV filters = None <-> Spec.csvDatesOk filters = false.
Proof.
  split.
  - intros H. destruct (Spec.csvDatesOk filters) eqn:Hok; [|reflexivity].
    destruct (csvTable_rows filters Hok) as (rows & _ & Hr).
    unfold exportToCSV in H. rewrite Hr in H. discriminate.
  - intros Hbad. unfold exportToCSV, csvTable.
    rewrite (rows_fail "yyyy-MM-dd" (csvDataRow filters)
               (fun tx d => d :: optional (includeCustomerName filters) [customerName tx] ++
                            [description tx; JS.toFixed (billed tx) 2;
                             JS.toFixed (paid tx) 2])%list).
    + reflexivity.
    + intros tx. reflexivity.
    + exact Hbad.
Qed.

Variable lastAutoTable_finalY : AutoTableOptions -> Z.

(** X4. The PDF export throws exactly when a bound of the window or the date
    of some transaction cannot be formatted: unlike the page and the CSV
    export, it needs both bounds to be dates even when the statement is
    empty. *)
Theorem generatePDF_throws_iff (filters : Filters) :
  generatePDF lastAutoTable_finalY filters = None <-> Spec.pdfDatesOk filters = false.
Proof.
  split.
  - intros H. destruct (Spec.pdfDatesOk filters) eqn:Hok; [|reflexivity].
    destruct (generatePDF_calls lastAutoTable_finalY filters Hok)
      as (from & to & rows & line & _ & _ & _ & _ & Hcalls).
    cbv zeta in Hcalls. congruence.
  - intros Hbad. unfold Spec.pdfDatesOk in Hbad. unfold generatePDF.
    unfold Spec.formats in Hbad.
    destruct (format (parseISO (dateFrom filters)) "MMM dd, yyyy"); [|reflexivity].
    destruct (format (parseISO (dateTo filters)) "MMM dd, yyyy"); [|reflexivity].
    cbn [andb bind] in *.
    rewrite (rows_fail "dd/MM/yyyy" (pdfRow filters)
               (fun tx d => d :: optional (includeCustomerName filters) [customerName tx] ++
                            [description tx; amountCell (billed tx);
                             amountCell (paid tx)])%list).
    + reflexivity.
    + intros tx. reflexivity.
    + exact Hbad.
Qed.


(** ** The PDF document *)

Lemma find_unique (k : string) (c : Customer.t) (l : list Customer.t) :
  NoDup (map Customer.id l) -> In c l -> Customer.id c = k ->
  JS.find (fun c' => String.eqb (Customer.id c') k) l = Some c.
Proof.
  unfold JS.find. induction l as [|x r IH]; intros Hnd Hin Hid; [contradiction|].
  simpl. inversion Hnd as [|? ? Hx Hr]; subst.
  destruct Hin as [->|Hin].
  - rewrite String.eqb_refl. reflexivity.
  - destruct (String.eqb_spec (Customer.id x) (Customer.id c)) as [E|E].
    + exfalso. apply Hx. rewrite E. apply in_map. exact Hin.
    + apply IH; auto.
Qed.

Lemma find_absent (k : string) (l : list Customer.t) :
  (forall c, In c l -> Customer.id c <> k) ->
  JS.find (fun c' => String.eqb (Customer.id c') k) l = None.
Proof.
  unfold JS.find. induction l as [|x r IH]; intros H; [reflexivity|].
  simpl. destruct (String.eqb_spec (Customer.id x) k) as [E|E].
  - exfalso. apply (H x); [left; reflexivity | exact E].
  - apply IH. intros c Hc. apply H. right. exact Hc.
Qed.

(** The calls of [generatePDF], with the customer line spelled out. *)
Lemma generatePDF_customerLine (filters : Filters) :
  Spec.pdfDatesOk filters = true ->
  exists from to rows options,
    head options = [Spec.headerRow (includeCustomerName filters)] /\
    body options = rows /\
    columnStyles_halign_right options =
      [if includeCustomerName filters then 3 else 2;
       if includeCustomerName filters then 4 else 3] /\
    Spec.bodyRows "dd/MM/yyyy" (includeCustomerName filters) amountCell
                  (transactions filters) rows /\
    generatePDF lastAutoTable_finalY filters =
    Some ([setFontSize 20;
           text "Jay Goga Milk Supplier" 20 20;
           setFontSize 14;
           text "Account Statement" 20 30;
           setFontSize 10;
           text ("Period: " ++ from ++ " to " ++ to) 20 40] ++
          (if String.eqb (customer filters) "" then []
           else [text ("Customer: " ++
                       match JS.find (fun c => String.eqb (Customer.id c) (customer filters))
                                     customers with
                       | Some c => if String.eqb (Customer.name c) ""
                                   then "All Customers" else Customer.name c
                       | None => "All Customers"
                       end) 20 48]) ++
          [autoTable options;
           setFontSize 12;
           text ("Total Amount: " ++ currency (totalBilled (transactions filters)))
                20 (lastAutoTable_finalY options + 15);
           text ("Received Amount: " ++ currency (totalPaid (transactions filters)))
                20 (lastAutoTable_finalY options + 15 + 8);
           setFontSize 14;
           text ("Pending Amount: " ++
                 currency (JS.sub (totalBilled (transactions filters))
                                  (totalPaid (transactions filters))))
                20 (lastAutoTable_finalY options + 15 + 20);
           save ("account-statement-" ++ dateFrom filters ++ "-to-" ++
                 dateTo filters ++ ".pdf")])%list.
Proof.
  intros Hok. unfold Spec.pdfDatesOk in Hok.
  apply andb_true_iff in Hok as [Hok Hrowsok]. apply andb_true_iff in Hok as [Hfrom Hto].
  unfold Spec.formats in Hfrom, Hto.
  destruct (format (parseISO (dateFrom filters)) "MMM dd, yyyy") as [from|] eqn:Efrom;
    [|discriminate].
  destruct (format (parseISO (dateTo filters)) "MMM dd, yyyy") as [to|] eqn:Eto;
    [|discriminate].
  destruct (rows_of "dd/MM/yyyy" (includeCustomerName filters) amountCell
              (pdfRow filters) (transactions filters)) as (rows & Hrows & Hall).
  { intros tx. reflexivity. }
  { exact Hrowsok. }
  exists from, to, rows. eexists.
  unfold generatePDF. rewrite Efrom, Eto, Hrows. cbn [bind].
  unfold pdfHead. rewrite optional_columns. fold (Spec.headerRow (includeCustomerName filters)).
  split; [|split; [|split; [|split; [exact Hall | reflexivity]]]]; reflexivity.
Qed.

(** X5. The customer line of the PDF.  With no customer selected the document
    has no line that starts with Customer:.  With one selected it has
    one, at (20, 48): it names the customer of that id when the ids of
    the data layer are distinct and the name is not empty, and reads All
    Customers when no customer has that id or the name is empty; an
    unknown id never makes the export throw. *)
Theorem pdf_customer_line (filters : Filters) :
  Spec.pdfDatesOk filters = true ->
  exists calls,
    generatePDF lastAutoTable_finalY filters = Some calls /\
    (customer filters = "" ->
     forall s x y, In (text s x y) calls -> prefix "Customer: " s = false) /\
    (customer filters <> "" ->
     exists name,
       In (text ("Customer: " ++ name) 20 48) calls /\
       (forall c, NoDup (map Customer.id customers) -> In c customers ->
                  Customer.id c = customer filters ->
                  name = if String.eqb (Customer.name c) ""
                         then "All Customers" else Customer.name c) /\
       ((forall c, In c customers -> Customer.id c <> customer filters) ->
        name = "All Customers")).
Proof.
  intros Hok.
  destruct (generatePDF_customerLine filters Hok)
    as (from & to & rows & options & _ & _ & _ & _ & Hcalls).
  eexists. split; [exact Hcalls|]. split.
  - intros Hc s x y Hin. rewrite Hc in Hin. cbn [String.eqb app] in Hin.
    simpl in Hin.
    repeat match goal with
           | H : _ \/ _ |- _ => destruct H as [H|H]
           | H : text _ _ _ = text _ _ _ |- _ => injection H as <- _ _; reflexivity
           | H : _ = text _ _ _ |- _ => discriminate H
           | H : False |- _ => contradiction
           end.
  - intros Hc. apply String.eqb_neq in Hc.
    eexists. split; [|split].
    + apply in_or_app; right. apply in_or_app; left. rewrite Hc. left. reflexivity.
    + intros c Hnd Hin Hid. rewrite (find_unique _ c _ Hnd Hin Hid). reflexivity.
    + intros Habsent. rewrite (find_absent _ _ Habsent). reflexivity.
Qed.

(** X6. The two columns that the PDF table aligns to the right are the
    Billed and the Paid column, whether or not the customer column is
    there. *)
Theorem pdf_right_aligned_columns (filters : Filters) :
  Spec.pdfDatesOk filters = true ->
  exists calls options header,
    generatePDF lastAutoTable_finalY filters = Some calls /\
    In (autoTable options) calls /\
    (forall options', In (autoTable options') calls -> options' = options) /\
    head options = [header] /\
    map (fun i => nth (Z.to_nat i) header "") (columnStyles_halign_right options) =
      ["Billed"; "Paid"].
Proof.
  intros Hok.
  destruct (generatePDF_customerLine filters Hok)
    as (from & to & rows & options & Hhead & _ & Hcols & _ & Hcalls).
  eexists. exists options. eexists. split; [exact Hcalls|].
  split; [apply in_or_app; right; apply in_or_app; right; left; reflexivity|].
  split.
  { intros options' Hin. apply in_app_or in Hin as [Hin|Hin].
    - simpl in Hin. repeat (destruct Hin as [Hin|Hin]; [discriminate|]). contradiction.
    - apply in_app_or in Hin as [Hin|Hin].
      + destruct (String.eqb (customer filters) ""); simpl in Hin;
          [contradiction | destruct Hin as [Hin|[]]; discriminate].
      + simpl in Hin. destruct Hin as [Hin|Hin]; [injection Hin as <-; reflexivity|].
        repeat (destruct Hin as [Hin|Hin]; [discriminate|]). contradiction. }
  split; [exact Hhead|].
  rewrite Hcols. unfold Spec.headerRow. destruct (includeCustomerName filters); reflexivity.
Qed.


(** ** The three renderings side by side *)

Lemma bodyRows_shape (pattern : string) (c : bool) (cell : JS.number -> string)
      (txs : list Transaction) (rows : list (list string)) :
  Spec.bodyRows pattern c cell txs rows ->
  List.length rows = List.length txs /\
  Forall (fun r => List.length r = List.length (Spec.headerRow c)) rows /\
  map (fun r => nth (if c then 2 else 1)%nat r "") rows = map description txs /\
  map (fun r => nth (if c then 3 else 2)%nat r "") rows = map (fun tx => cell (billed tx)) txs /\
  map (fun r => nth (if c then 4 else 3)%nat r "") rows = map (fun tx => cell (paid tx)) txs.
Proof.
  unfold Spec.bodyRows. induction 1 as [|tx r txs rows (d & _ & ->) _ IH].
  - repeat split; constructor.
  - destruct IH as (Hlen & Hw & Hd & Hb & Hp).
    split; [simpl; congruence|]. split; [constructor; [destruct c; reflexivity | exact Hw]|].
    cbn [map]. rewrite Hd, Hb, Hp. destruct c; repeat split; reflexivity.
Qed.

(** X7. In each rendering the body has one row per transaction, in the order
    of the statement; every row is as wide as the header; and the cells
    under Description, Billed and Paid are those of its transaction.  The
    totals row of the CSV is as wide as the header too. *)
Theorem rows_line_up_with_the_header (filters : Filters) :
  let c := includeCustomerName filters in
  let txs := transactions filters in
  let width := List.length (Spec.headerRow c) in
  let col (i : nat) (rows : list (list string)) := map (fun r => nth i r "") rows in
  exists iDescription iBilled iPaid,
    nth iDescription (Spec.headerRow c) "" = "Description" /\
    nth iBilled (Spec.headerRow c) "" = "Billed" /\
    nth iPaid (Spec.headerRow c) "" = "Paid" /\
    (Spec.tableDatesOk filters = true -> txs <> [] ->
     exists view tbody,
       render filters = Some view /\
       details view = Table (Spec.headerRow c) tbody /\
       List.length tbody = List.length txs /\
       Forall (fun r => List.length r = width) tbody /\
       col iDescription tbody = map description txs /\
       col iBilled tbody = map (fun tx => amountCell (billed tx)) txs /\
       col iPaid tbody = map (fun tx => amountCell (paid tx)) txs) /\
    (Spec.pdfDatesOk filters = true ->
     exists calls options,
       generatePDF lastAutoTable_finalY filters = Some calls /\
       In (autoTable options) calls /\
       head options = [Spec.headerRow c] /\
       List.length (body options) = List.length txs /\
       Forall (fun r => List.length r = width) (body options) /\
       col iDescription (body options) = map description txs /\
       col iBilled (body options) = map (fun tx => amountCell (billed tx)) txs /\
       col iPaid (body options) = map (fun tx => amountCell (paid tx)) txs) /\
    (Spec.csvDatesOk filters = true ->
     exists rows totals,
       csvTable filters = Some ([Spec.headerRow c] ++ rows ++ [[]] ++ [totals])%list /\
       List.length rows = List.length txs /\
       Forall (fun r => List.length r = width) (rows ++ [totals]) /\
       col iDescription rows = map description txs /\
       col iBilled rows = map (fun tx => JS.toFixed (billed tx) 2) txs /\
       col iPaid rows = map (fun tx => JS.toFixed (paid tx) 2) txs /\
       nth iDescription totals "" = "Total").
Proof.
  intros c txs width col. subst c txs width col. cbv beta.
  set (c := includeCustomerName filters).
  exists (if c then 2 else 1)%nat, (if c then 3 else 2)%nat, (if c then 4 else 3)%nat.
  split; [unfold Spec.headerRow; destruct c; reflexivity|].
  split; [unfold Spec.headerRow; destruct c; reflexivity|].
  split; [unfold Spec.headerRow; destruct c; reflexivity|].
  split; [|split].
  - intros Hok Hne. destruct (render_rows filters Hok) as (rows & Hrows & Hr).
    destruct (bodyRows_shape _ _ _ _ _ Hrows) as (Hlen & Hw & Hd & Hb & Hp).
    eexists. exists rows. split; [exact Hr|]. cbn [details].
    split; [|repeat split; assumption].
    destruct (transactions filters); [contradiction | reflexivity].
  - intros Hok.
    destruct (generatePDF_customerLine filters Hok)
      as (from & to & rows & options & Hhead & Hbody & _ & Hrows & Hcalls).
    destruct (bodyRows_shape _ _ _ _ _ Hrows) as (Hlen & Hw & Hd & Hb & Hp).
    eexists. exists options. split; [exact Hcalls|].
    split; [apply in_or_app; right; apply in_or_app; right; left; reflexivity|].
    rewrite Hbody. repeat split; assumption.
  - intros Hok. destruct (csvTable_rows filters Hok) as (rows & Hrows & Hr).
    destruct (bodyRows_shape _ _ _ _ _ Hrows) as (Hlen & Hw & Hd & Hb & Hp).
    exists rows. eexists. split; [exact Hr|].
    split; [exact Hlen|]. split.
    { apply Forall_app. split; [exact Hw|]. constructor; [|constructor].
      unfold Spec.headerRow. fold c. destruct c; reflexivity. }
    split; [exact Hd|]. split; [exact Hb|]. split; [exact Hp|].
    fold c. destruct c; reflexivity.
Qed.

(** X8. The page, the PDF footer and the totals row of the CSV show the same
    two totals: the cards and the footer as the rupee sign followed by
    the text that the CSV row holds. *)
Theorem renderings_agree_on_totals (filters : Filters) :
  Spec.tableDatesOk filters = true ->
  Spec.pdfDatesOk filters = true ->
  Spec.csvDatesOk filters = true ->
  exists view calls rows totals billedText paidText y,
    render filters = Some view /\
    generatePDF lastAutoTable_finalY filters = Some calls /\
    csvTable filters = Some (rows ++ [totals])%list /\
    totals = Spec.columns (includeCustomerName filters) "" "" "Total" billedText paidText /\
    totalAmountCard view = rupee ++ billedText /\
    receivedAmountCard view = rupee ++ paidText /\
    In (text ("Total Amount: " ++ totalAmountCard view) 20 y) calls /\
    In (text ("Received Amount: " ++ receivedAmountCard view) 20 (y + 8)) calls /\
    In (text ("Pending Amount: " ++ pendingAmountCard view) 20 (y + 20)) calls.
Proof.
  intros Ht Hp Hc.
  destruct (render_rows filters Ht) as (trows & _ & Hr).
  destruct (generatePDF_customerLine filters Hp)
    as (from & to & prows & options & _ & _ & _ & _ & Hcalls).
  destruct (csvTable_rows filters Hc) as (crows & _ & Hcsv).
  eexists. eexists.
  exists ([Spec.headerRow (includeCustomerName filters)] ++ crows ++ [[]])%list.
  eexists. eexists. eexists. eexists.
  split; [exact Hr|]. split; [exact Hcalls|].
  split; [rewrite Hcsv; rewrite <- !app_assoc; reflexivity|].
  split; [reflexivity|]. split; [reflexivity|]. split; [reflexivity|].
  cbn [totalAmountCard receivedAmountCard pendingAmountCard].
  repeat split; apply in_or_app; right; apply in_or_app; right; simpl; auto 10.
Qed.

(** X9. Whole amounts add without rounding, so with them the totals do
    not depend on the order in which the data layer returns the records:
    when the order totals are whole numbers whose magnitudes add up to at
    most 2^53, and the payment amounts too, two data layers that return
    the same orders and the same payments, in any order, give the same
    three texts.  (With amounts that are not whole the order matters.) *)
Theorem whole_totals_ignore_record_order (data' : DataContext) (filters : Filters) :
  Permutation (getFilteredOrders (DataContext := data) (filterParams filters))
              (getFilteredOrders (DataContext := data') (filterParams filters)) ->
  Permutation (getFilteredPayments (DataContext := data) (filterParams filters))
              (getFilteredPayments (DataContext := data') (filterParams filters)) ->
  Spec.wholeAmounts (map Order.totalAmount
                         (getFilteredOrders (DataContext := data) (filterParams filters))) =
    true ->
  Spec.wholeAmounts (map Payment.amount
                         (getFilteredPayments (DataContext := data) (filterParams filters))) =
    true ->
  let txs := transactions (data := data) filters in
  let txs' := transactions (data := data') filters in
  currency (totalBilled txs) = currency (totalBilled txs') /\
  currency (totalPaid txs) = currency (totalPaid txs') /\
  currency (JS.sub (totalBilled txs) (totalPaid txs)) =
  currency (JS.sub (totalBilled txs') (totalPaid txs')).
Proof.
  intros Po Pp Wo Wp txs txs'.
  assert (Hsum : forall (d : DataContext) (l : list Q),
             Permutation (map billed (filter Spec.isOrder (transactions (data := d) filters))) l ->
             Spec.wholeAmounts l = true ->
             (totalBilled (transactions (data := d) filters) == Spec.sum l)%Q).
  { intros d l P W. rewrite (totalBilled_orders (data := d) filters).
    rewrite doubleSum_whole by (exact (wholeAmounts_Permutation _ _ (Permutation_sym P) W)).
    apply sum_Permutation. exact P. }
  assert (Hsum' : forall (d : DataContext) (l : list Q),
             Permutation (map paid (filter Spec.isPayment (transactions (data := d) filters))) l ->
             Spec.wholeAmounts l = true ->
             (totalPaid (transactions (data := d) filters) == Spec.sum l)%Q).
  { intros d l P W. rewrite (totalPaid_payments (data := d) filters).
    rewrite doubleSum_whole by (exact (wholeAmounts_Permutation _ _ (Permutation_sym P) W)).
    apply sum_Permutation. exact P. }
  assert (Hb : (totalBilled txs == totalBilled txs')%Q).
  { subst txs txs'.
    rewrite (Hsum data _ (billed_of_orders (data := data) filters) Wo).
    rewrite (Hsum data' _ (perm_trans (billed_of_orders (data := data') filters)
                                      (Permutation_sym (Permutation_map _ Po))) Wo).
    reflexivity. }
  assert (Hp : (totalPaid txs == totalPaid txs')%Q).
  { subst txs txs'.
    rewrite (Hsum' data _ (paid_of_payments (data := data) filters) Wp).
    rewrite (Hsum' data' _ (perm_trans (paid_of_payments (data := data') filters)
                                       (Permutation_sym (Permutation_map _ Pp))) Wp).
    reflexivity. }
  unfold currency. repeat split; f_equal; apply toFixed_Qeq.
  - exact Hb.
  - exact Hp.
  - rewrite Hb, Hp. reflexivity.
Qed.


(** ** The filter controls *)

Lemma handlePeriodChange_period (filters f' : Filters) (today : Date) (p : string) :
  handlePeriodChange filters today p = Some f' -> period f' = p.
Proof.
  unfold handlePeriodChange.
  destruct (format today "yyyy-MM-dd") as [d|]; cbn [bind]; [|discriminate].
  destruct (String.eqb p "today");
    [|destruct (String.eqb p "week");
      [destruct (format (startOfWeek today) "yyyy-MM-dd") as [a|];
       [destruct (format (endOfWeek today) "yyyy-MM-dd") as [b|]|]
      |destruct (String.eqb p "month");
       [destruct (format (startOfMonth today) "yyyy-MM-dd") as [a|];
        [destruct (format (endOfMonth today) "yyyy-MM-dd") as [b|]|]|]]];
    cbn [bind fst snd]; intros H; try discriminate; injection H as <-; reflexivity.
Qed.

(** X10. A quick period settles the state: choosing the same period again on
    the same day changes nothing; the customer is never touched; the
    result of today, week and month does not depend on the state before;
    any other period name keeps the bounds and only records the name,
    and it still throws when the current date cannot be formatted. *)
Theorem handlePeriodChange_settles (filters : Filters) (today : Date) (p : string) :
  (forall f', handlePeriodChange filters today p = Some f' ->
              customer f' = customer filters /\ period f' = p /\
              handlePeriodChange f' today p = Some f') /\
  (isQuickPeriod p = true ->
   forall filters', customer filters' = customer filters ->
                    handlePeriodChange filters' today p = handlePeriodChange filters today p) /\
  (isQuickPeriod p = false ->
   handlePeriodChange filters today p =
   (d <- format today "yyyy-MM-dd" ;;
    Some {| customer := customer filters; dateFrom := dateFrom filters;
            dateTo := dateTo filters; period := p |})).
Proof.
  unfold isQuickPeriod, handlePeriodChange.
  destruct (format today "yyyy-MM-dd") as [d|] eqn:Ed; cbn [bind];
    [|repeat split; intros; try discriminate; reflexivity].
  destruct (String.eqb p "today") eqn:E1;
    [|destruct (String.eqb p "week") eqn:E2;
      [destruct (format (startOfWeek today) "yyyy-MM-dd") as [a|];
       [destruct (format (endOfWeek today) "yyyy-MM-dd") as [b|]|]
      |destruct (String.eqb p "month") eqn:E3;
       [destruct (format (startOfMonth today) "yyyy-MM-dd") as [a|];
        [destruct (format (endOfMonth today) "yyyy-MM-dd") as [b|]|]|]]];
    cbn [orb bind fst snd];
    (split; [|split]); intros; try discriminate;
    repeat match goal with
           | H : Some _ = Some _ |- _ => injection H as <-
           end;
    cbn [customer period dateFrom dateTo];
    try (repeat split; reflexivity);
    try congruence.
Qed.

(** X11. The page opens on the month period: its first state is the state
    that choosing month gives, from any state with no customer
    selected. *)
Theorem initial_state_is_the_month_period (now : Date) (filters : Filters) :
  customer filters = "" ->
  format now "yyyy-MM-dd" <> None ->
  initialFilters now = handlePeriodChange filters now "month".
Proof.
  intros Hc Hnow. unfold initialFilters, handlePeriodChange.
  destruct (format now "yyyy-MM-dd") as [d|]; [|congruence].
  cbn [bind String.eqb Ascii.eqb Bool.eqb].
  destruct (format (startOfMonth now) "yyyy-MM-dd") as [a|]; [|reflexivity].
  destruct (format (endOfMonth now) "yyyy-MM-dd") as [b|]; [|reflexivity].
  cbn [bind fst snd]. rewrite Hc. reflexivity.
Qed.

(** X12. The three inputs act on separate parts of the state: edits of the two
    dates and of the customer can be made in any order, a later edit of a
    field replaces an earlier one, selecting a customer keeps the window
    and the period, and it can be done before or after a quick period
    with the same result. *)
Theorem filter_inputs_are_independent (filters : Filters) (a b c : string) :
  onChangeDateFrom (onChangeDateTo filters b) a = onChangeDateTo (onChangeDateFrom filters a) b /\
  onChangeCustomer (onChangeDateFrom filters a) c = onChangeDateFrom (onChangeCustomer filters c) a /\
  onChangeCustomer (onChangeDateTo filters b) c = onChangeDateTo (onChangeCustomer filters c) b /\
  onChangeDateFrom (onChangeDateFrom filters b) a = onChangeDateFrom filters a /\
  onChangeDateTo (onChangeDateTo filters a) b = onChangeDateTo filters b /\
  onChangeCustomer (onChangeCustomer filters a) c = onChangeCustomer filters c /\
  FilterParams.dateFrom (filterParams (onChangeCustomer filters c)) = dateFrom filters /\
  FilterParams.dateTo (filterParams (onChangeCustomer filters c)) = dateTo filters /\
  period (onChangeCustomer filters c) = period filters /\
  forall today p,
    handlePeriodChange (onChangeCustomer filters c) today p =
    option_map (fun f => onChangeCustomer f c) (handlePeriodChange filters today p).
Proof.
  repeat split. intros today p. unfold handlePeriodChange.
  destruct (format today "yyyy-MM-dd") as [d|]; [|reflexivity]. cbn [bind].
  destruct (String.eqb p "today"); [reflexivity|].
  destruct (String.eqb p "week").
  { destruct (format (startOfWeek today) "yyyy-MM-dd"); [|reflexivity].
    destruct (format (endOfWeek today) "yyyy-MM-dd"); reflexivity. }
  destruct (String.eqb p "month").
  { destruct (format (startOfMonth today) "yyyy-MM-dd"); [|reflexivity].
    destruct (format (endOfMonth today) "yyyy-MM-dd"); reflexivity. }
  reflexivity.
Qed.

Lemma render_controls (filters : Filters) :
  Spec.tableDatesOk filters = true ->
  exists view,
    render filters = Some view /\
    activePeriodButtons view =
      (if isQuickPeriod (period filters) then [period filters] else []) /\
    dateFromInput view = dateFrom filters /\
    dateToInput view = dateTo filters /\
    customerSelect view = customer filters.
Proof.
  intros Hok. destruct (render_rows filters Hok) as (rows & _ & Hr).
  eexists. split; [exact Hr|]. cbn [activePeriodButtons dateFromInput dateToInput customerSelect].
  split; [|repeat split]. unfold isQuickPeriod. cbn [filter].
  destruct (String.eqb_spec (period filters) "today") as [E1|E1];
    destruct (String.eqb_spec (period filters) "week") as [E2|E2];
    destruct (String.eqb_spec (period filters) "month") as [E3|E3];
    cbn [orb]; try congruence; rewrite ?E1, ?E2, ?E3 in *; try discriminate; reflexivity.
Qed.

(** X13. Which quick-period button is lit.  After a quick period exactly its
    own button is lit and the date inputs show the new bounds; after a
    manual edit of a date no button is lit, the edited input shows the
    value typed and the other input is unchanged. *)
Theorem period_buttons_follow_the_state (filters : Filters) :
  (forall today p f',
      handlePeriodChange filters today p = Some f' ->
      Spec.tableDatesOk f' = true ->
      exists view,
        render f' = Some view /\
        activePeriodButtons view = (if isQuickPeriod p then [p] else []) /\
        dateFromInput view = dateFrom f' /\ dateToInput view = dateTo f') /\
  (forall value,
      Spec.tableDatesOk (onChangeDateFrom filters value) = true ->
      exists view,
        render (onChangeDateFrom filters value) = Some view /\
        activePeriodButtons view = [] /\
        dateFromInput view = value /\ dateToInput view = dateTo filters /\
        customerSelect view = customer filters) /\
  (forall value,
      Spec.tableDatesOk (onChangeDateTo filters value) = true ->
      exists view,
        render (onChangeDateTo filters value) = Some view /\
        activePeriodButtons view = [] /\
        dateFromInput view = dateFrom filters /\ dateToInput view = value /\
        customerSelect view = customer filters).
Proof.
  split; [|split].
  - intros today p f' Hf Hok.
    pose proof (handlePeriodChange_period _ _ _ _ Hf) as Hp.
    destruct (render_controls f' Hok) as (view & Hr & Hb & Hfrom & Hto & _).
    exists view. rewrite Hp in Hb. repeat split; assumption.
  - intros value Hok.
    destruct (render_controls _ Hok) as (view & Hr & Hb & Hfrom & Hto & Hc).
    exists view. repeat split; assumption.
  - intros value Hok.
    destruct (render_controls _ Hok) as (view & Hr & Hb & Hfrom & Hto & Hc).
    exists view. repeat split; assumption.
Qed.

(** X19. When more was paid than billed in the window (and the totals and
    their difference are finite), the pending card reads the rupee sign,
    then a minus sign, then the excess paid, as the program subtracts it,
    to two decimals: the sign comes after the currency sign, and nothing
    marks the card as a credit. *)
Theorem pending_card_of_an_overpaid_window (filters : Filters) :
  Spec.tableDatesOk filters = true ->
  Spec.totalsInRange filters = true ->
  (totalBilled (transactions filters) < totalPaid (transactions filters))%Q ->
  exists view,
    render filters = Some view /\
    pendingAmountCard view =
      rupee ++ "-" ++
      JS.toFixed (JS.sub (totalPaid (transactions filters))
                         (totalBilled (transactions filters))) 2.
Proof.
  intros Hok _ Hover. destruct (render_rows filters Hok) as (rows & _ & Hr).
  eexists. split; [exact Hr|]. cbn [pendingAmountCard]. unfold currency. f_equal.
  assert (Hneg : (JS.sub (totalBilled (transactions filters))
                         (totalPaid (transactions filters)) < 0)%Q).
  { rewrite pending_rounded. apply NumberValue_negative.
    - apply onGrid_minus; [apply totalBilled_onGrid | apply totalPaid_onGrid].
    - lra. }
  rewrite (toFixed_negative _ _ Hneg). f_equal. apply toFixed_Qeq.
  rewrite pending_rounded.
  rewrite (sub_doubles _ _ (totalPaid_double _) (totalBilled_double _)).
  rewrite <- NumberValue_opp. apply NumberValue_Proper. ring.
Qed.

End Coverage.

Section OnTheLedger.
Import Statements.

Lemma pdf_customer_line_witness :
  exists calls,
    generatePDF (engine := Sample.engine) (dates := Sample.utc) (data := Sample.data) Sample.finalY Sample.januaryAsha =
      Some calls /\
    In (text "Customer: Asha" 20 48) calls.
Proof.
  destruct (pdf_customer_line (engine := Sample.engine) (dates := Sample.utc) (data := Sample.data) Sample.finalY
              Sample.januaryAsha eq_refl) as (calls & Hcalls & _ & Hline).
  destruct (Hline ltac:(discriminate)) as (name & Hin & Hname & _).
  exists calls. split; [exact Hcalls|].
  rewrite (Hname Sample.asha) in Hin.
  - exact Hin.
  - repeat constructor; simpl; intuition discriminate.
  - left; reflexivity.
  - reflexivity.
Defined.

Lemma pdf_right_aligned_columns_witness :
  exists calls options header,
    generatePDF (engine := Sample.engine) (dates := Sample.utc) (data := Sample.data) Sample.finalY Sample.january =
      Some calls /\
    In (autoTable options) calls /\
    (forall options', In (autoTable options') calls -> options' = options) /\
    head options = [header] /\
    map (fun i => nth (Z.to_nat i) header "") (columnStyles_halign_right options) =
      ["Billed"; "Paid"].
Proof.
  exact (pdf_right_aligned_columns (engine := Sample.engine) (dates := Sample.utc) (data := Sample.data) Sample.finalY
           Sample.january eq_refl).
Defined.

Lemma renderings_agree_on_totals_witness :
  exists view calls rows totals billedText paidText y,
    render (engine := Sample.engine) (dates := Sample.utc) (data := Sample.data) Sample.januaryAsha = Some view /\
    generatePDF (engine := Sample.engine) (dates := Sample.utc) (data := Sample.data) Sample.finalY Sample.januaryAsha =
      Some calls /\
    csvTable (engine := Sample.engine) (dates := Sample.utc) (data := Sample.data) Sample.januaryAsha =
      Some (rows ++ [totals])%list /\
    totals = Spec.columns (includeCustomerName Sample.januaryAsha) "" "" "Total"
                          billedText paidText /\
    totalAmountCard view = rupee ++ billedText /\
    receivedAmountCard view = rupee ++ paidText /\
    In (text ("Total Amount: " ++ totalAmountCard view) 20 y) calls /\
    In (text ("Received Amount: " ++ receivedAmountCard view) 20 (y + 8)) calls /\
    In (text ("Pending Amount: " ++ pendingAmountCard view) 20 (y + 20)) calls.
Proof.
  exact (renderings_agree_on_totals (engine := Sample.engine) (dates := Sample.utc) (data := Sample.data) Sample.finalY
           Sample.januaryAsha eq_refl eq_refl eq_refl).
Defined.

Lemma whole_totals_ignore_record_order_witness :
  currency (totalBilled (transactions (engine := Sample.engine) (dates := Sample.utc)
                                      (data := Sample.data) Sample.januaryAsha)) =
  currency (totalBilled (transactions (engine := Sample.engine) (dates := Sample.utc)
                                      (data := shuffledData) Sample.januaryAsha)) /\
  currency (totalPaid (transactions (engine := Sample.engine) (dates := Sample.utc)
                                    (data := Sample.data) Sample.januaryAsha)) =
  currency (totalPaid (transactions (engine := Sample.engine) (dates := Sample.utc)
                                    (data := shuffledData) Sample.januaryAsha)).
Proof.
  destruct (whole_totals_ignore_record_order
              (engine := Sample.engine) (dates := Sample.utc) (data := Sample.data)
              shuffledData Sample.januaryAsha
              (Permutation_rev [Sample.o1; Sample.o3])
              (Permutation_refl [Sample.p1]) eq_refl eq_refl) as (Hb & Hp & _).
  split; [exact Hb | exact Hp].
Defined.

Lemma initial_state_is_the_month_period_witness :
  initialFilters (dates := Sample.utc) Sample.today =
  handlePeriodChange (dates := Sample.utc) Sample.february Sample.today "month".
Proof.
  apply (initial_state_is_the_month_period (dates := Sample.utc) Sample.today Sample.february).
  - reflexivity.
  - discriminate.
Defined.

Lemma pending_card_of_an_overpaid_window_witness :
  exists view,
    render (engine := Sample.engine) (dates := Sample.utc) (data := Sample.smallOverpaid)
           Sample.january = Some view /\
    pendingAmountCard view = rupee ++ "-0.14".
Proof.
  destruct (pending_card_of_an_overpaid_window
              (engine := Sample.engine) (dates := Sample.utc) (data := Sample.smallOverpaid)
              Sample.january eq_refl eq_refl eq_refl) as (view & Hview & Hcard).
  exists view. split; [exact Hview | exact Hcard].
Defined.

End OnTheLedger.

(** ** The customer history *)

Section HistoryCoverage.
Context {engine : JS.Engine} {dates : DateFns} {data : DataContext}.
Import CustomerDetailsModal.

(** X14. The modal throws exactly when the date of one of the customer's
    orders cannot be formatted; a customer without orders always gets
    the modal, with the message that no order was placed. *)
Theorem modal_throws_iff (customer : Customer.t) :
  (render customer = None <-> Spec.historyDatesOk customer = false) /\
  ((forall o, In o orders -> Order.customerId o <> Customer.id customer) ->
   exists view,
     render customer = Some view /\
     history view = NoOrders "No orders placed by this customer yet.").
Proof.
  split.
  - split.
    + intros H. destruct (Spec.historyDatesOk customer) eqn:Hok; [|reflexivity].
      destruct (renderOrder_cards _ Hok) as (cards & Hcards & _).
      unfold render in H. rewrite Hcards in H.
      destruct (0 <? List.length (customerOrders customer))%nat; discriminate.
    + intros Hbad. unfold render.
      assert (Hne : (0 <? List.length (customerOrders customer))%nat = true).
      { unfold Spec.historyDatesOk in Hbad.
        destruct (customerOrders customer); [discriminate | reflexivity]. }
      rewrite Hne.
      rewrite (mapM_None_b renderOrder (customerOrders customer)); [reflexivity|].
      unfold Spec.historyDatesOk in Hbad.
      rewrite (forallb_eq _ (fun o => Spec.formats parseISO "MMM dd, yyyy" (Order.orderDate o)));
        [exact Hbad|].
      intros o. unfold renderOrder, Spec.formats.
      destruct (format (parseISO (Order.orderDate o)) "MMM dd, yyyy"); reflexivity.
  - intros Hnone.
    assert (Hempty : customerOrders customer = []).
    { unfold customerOrders.
      assert (Hf : filter (fun order => String.eqb (Order.customerId order) (Customer.id customer))
                          orders = []).
      { induction orders as [|o l IH]; [reflexivity|].
        simpl. destruct (String.eqb_spec (Order.customerId o) (Customer.id customer)) as [E|E].
        - exfalso. apply (Hnone o); [left; reflexivity | exact E].
        - apply IH. intros o' Ho'. apply Hnone. right. exact Ho'. }
      rewrite Hf. reflexivity. }
    unfold render. rewrite Hempty. eexists. split; reflexivity.
Qed.

(** X15. The three figures at the top of the modal are the ones stored on the
    customer record: they are the same whatever orders the data layer
    holds and are not recomputed from the orders shown below them. *)
Theorem modal_summary_is_the_stored_one (data' : DataContext) (customer : Customer.t) :
  Spec.historyDatesOk (data := data) customer = true ->
  Spec.historyDatesOk (data := data') customer = true ->
  exists view view',
    render (data := data) customer = Some view /\
    render (data := data') customer = Some view' /\
    totalBilled view = currency (Customer.totalAmount customer) /\
    totalPaid view = currency (Customer.paidAmount customer) /\
    pending view = currency (Customer.pendingBalance customer) /\
    totalBilled view' = totalBilled view /\
    totalPaid view' = totalPaid view /\
    pending view' = pending view /\
    heading view' = heading view /\
    info_name view' = info_name view /\
    info_phone view' = info_phone view /\
    info_address view' = info_address view.
Proof.
  intros Hok Hok'.
  destruct (renderOrder_cards _ Hok) as (cards & Hcards & _).
  destruct (renderOrder_cards _ Hok') as (cards' & Hcards' & _).
  unfold render. rewrite Hcards, Hcards'.
  destruct (0 <? List.length (customerOrders (data := data) customer))%nat;
    destruct (0 <? List.length (customerOrders (data := data') customer))%nat;
    cbn [bind]; eexists; eexists; repeat split.
Qed.

End HistoryCoverage.

Lemma modal_summary_is_the_stored_one_witness :
  exists view view',
    CustomerDetailsModal.render (engine := Sample.engine) (dates := Sample.utc) (data := Sample.data) Sample.asha =
      Some view /\
    CustomerDetailsModal.render (engine := Sample.engine) (dates := Sample.utc) (data := Sample.bulkData) Sample.asha =
      Some view' /\
    CustomerDetailsModal.totalBilled view = rupee ++ "150.00" /\
    CustomerDetailsModal.totalBilled view' = rupee ++ "150.00" /\
    CustomerDetailsModal.pending view' = CustomerDetailsModal.pending view.
Proof.
  destruct (modal_summary_is_the_stored_one (engine := Sample.engine) (dates := Sample.utc) (data := Sample.data)
              Sample.bulkData Sample.asha eq_refl eq_refl)
    as (view & view' & Hv & Hv' & Hb & _ & _ & Hb' & _ & Hp & _).
  exists view, view'. split; [exact Hv|]. split; [exact Hv'|].
  split; [exact Hb|]. split; [rewrite Hb'; exact Hb | exact Hp].
Defined.

(** ** Reading the CSV back *)

Section CsvRoundTrip.
Import Statements.

Lemma scan_escaped (cell rest : string) (acc : list ascii) (row : list string)
      (rows : list (list string)) :
  Csv.scan (JS.replace_quotes cell ++ String JS.dquote rest) Csv.InQuotes acc row rows =
  Csv.scan rest Csv.QuoteSeen (rev (list_ascii_of_string cell) ++ acc)%list row rows.
Proof.
  revert acc. induction cell as [|c r IH]; intros acc.
  - cbn [JS.replace_quotes append Csv.scan]. rewrite Ascii.eqb_refl. reflexivity.
  - cbn [JS.replace_quotes list_ascii_of_string rev].
    rewrite <- app_assoc. cbn [app].
    destruct (Ascii.eqb c JS.dquote) eqn:E.
    + apply Ascii.eqb_eq in E. subst c.
      cbn [append Csv.scan]. rewrite !Ascii.eqb_refl. apply IH.
    + cbn [append Csv.scan]. rewrite E. apply IH.
Qed.

Lemma cellOf_rev (cell : string) :
  Csv.cellOf (rev (list_ascii_of_string cell) ++ [])%list = cell.
Proof.
  unfold Csv.cellOf. rewrite app_nil_r, rev_involutive.
  apply string_of_list_ascii_of_string.
Qed.

Lemma scan_field_end (cell rest : string) (row : list string) (rows : list (list string)) :
  Csv.rowEnd rest ->
  Csv.scan rest Csv.QuoteSeen (rev (list_ascii_of_string cell) ++ [])%list row rows =
  Csv.finish rest (rev (cell :: row)) rows.
Proof.
  intros [->|(r & ->)].
  - cbn [Csv.scan Csv.finish]. rewrite cellOf_rev. reflexivity.
  - cbn [Csv.scan Csv.finish].
    replace (Ascii.eqb JS.LF JS.dquote) with false by reflexivity.
    replace (Ascii.eqb JS.LF ",") with false by reflexivity.
    rewrite Ascii.eqb_refl, cellOf_rev. reflexivity.
Qed.

Lemma scan_fields (cells : list string) (c rest : string) (st : Csv.State)
      (cell0 : list ascii) (row : list string) (rows : list (list string)) :
  Csv.rowEnd rest ->
  (st = Csv.FieldStart \/ (st = Csv.RowStart /\ row = [])) ->
  Csv.scan (csvRow (c :: cells) ++ rest) st cell0 row rows =
  Csv.finish rest (rev row ++ c :: cells)%list rows.
Proof.
  intros Hrest. revert c st cell0 row.
  induction cells as [|c' cs IH]; intros c st cell0 row Hst.
  - unfold csvRow. cbn [map JS.join]. unfold csvField. cbn [append].
    rewrite append_assoc. cbn [append].
    assert (Hopen : Csv.scan (String JS.dquote
                                (JS.replace_quotes c ++ String JS.dquote rest))
                             st cell0 row rows =
                    Csv.scan (JS.replace_quotes c ++ String JS.dquote rest)
                             Csv.InQuotes [] row rows).
    { destruct Hst as [->|[-> ->]]; cbn [Csv.scan]; rewrite Ascii.eqb_refl; reflexivity. }
    rewrite Hopen, scan_escaped, scan_field_end by exact Hrest.
    reflexivity.
  - unfold csvRow. cbn [map]. change (JS.join "," (csvField c :: csvField c' :: map csvField cs))
      with (csvField c ++ "," ++ csvRow (c' :: cs)).
    unfold csvField at 1. cbn [append]. rewrite !append_assoc. cbn [append].
    assert (Hopen : forall tail,
               Csv.scan (String JS.dquote (JS.replace_quotes c ++ String JS.dquote tail))
                        st cell0 row rows =
               Csv.scan (JS.replace_quotes c ++ String JS.dquote tail)
                        Csv.InQuotes [] row rows).
    { intros tail.
      destruct Hst as [->|[-> ->]]; cbn [Csv.scan]; rewrite Ascii.eqb_refl; reflexivity. }
    rewrite Hopen, scan_escaped.
    cbn [Csv.scan].
    replace (Ascii.eqb "," JS.dquote) with false by reflexivity.
    rewrite Ascii.eqb_refl, cellOf_rev.
    rewrite (IH c' Csv.FieldStart [] (c :: row)) by (left; reflexivity).
    cbn [rev]. rewrite <- app_assoc. reflexivity.
Qed.

Lemma scan_row (cells : list string) (rest : string) (rows : list (list string)) :
  Csv.rowEnd rest ->
  Csv.scan (csvRow cells ++ rest) Csv.RowStart [] [] rows = Csv.finish rest cells rows.
Proof.
  intros Hrest. destruct cells as [|c cs].
  - unfold csvRow. cbn [map JS.join append].
    destruct Hrest as [->|(r & ->)]; cbn [Csv.scan Csv.finish]; [reflexivity|].
    replace (Ascii.eqb JS.LF JS.dquote) with false by reflexivity.
    rewrite Ascii.eqb_refl. reflexivity.
  - rewrite (scan_fields cs c rest Csv.RowStart [] [] rows Hrest) by (right; split; reflexivity).
    reflexivity.
Qed.

Lemma scan_rows (table : list (list string)) (r : list string) (rows : list (list string)) :
  Csv.scan (JS.join (String JS.LF EmptyString) (map csvRow (r :: table)))
           Csv.RowStart [] [] rows =
  Some (rev rows ++ r :: table)%list.
Proof.
  revert r rows. induction table as [|r' rs IH]; intros r rows.
  - cbn [map JS.join]. rewrite <- (append_empty_r (csvRow r)).
    rewrite scan_row by (left; reflexivity). reflexivity.
  - change (JS.join (String JS.LF EmptyString) (map csvRow (r :: r' :: rs)))
      with (csvRow r ++ String JS.LF (JS.join (String JS.LF EmptyString) (map csvRow (r' :: rs)))).
    rewrite scan_row by (right; eexists; reflexivity).
    cbn [Csv.finish]. rewrite IH. cbn [rev]. rewrite <- app_assoc. reflexivity.
Qed.

(** Any table with at least one row, written the way [exportToCSV] writes
    it, is read back as the same table, whatever its cells hold: quotes,
    commas and line feeds inside a cell included. *)
Lemma csv_text_reads_back (table : list (list string)) :
  table <> [] ->
  Csv.parse (JS.join (String JS.LF EmptyString) (map csvRow table)) = Some table.
Proof.
  intros Hne. destruct table as [|r rs]; [contradiction|].
  unfold Csv.parse. rewrite scan_rows. reflexivity.
Qed.

Context {engine : JS.Engine} {dates : DateFns} {data : DataContext}.

(** X16. The exported file read back gives the rows that were written: the
    header, one row per transaction, the empty row and the totals row,
    with every cell as it was. *)
Theorem exported_csv_reads_back (filters : Filters) :
  Spec.csvDatesOk filters = true ->
  exists file rows,
    exportToCSV filters = Some file /\
    csvTable filters = Some rows /\
    List.length rows = (List.length (transactions filters) + 3)%nat /\
    Csv.parse (csvContent file) = Some rows.
Proof.
  intros Hok. destruct (csvTable_rows filters Hok) as (rows & Hrows & Htable).
  eexists. eexists. unfold exportToCSV. rewrite Htable. cbn [bind].
  split; [reflexivity|]. split; [reflexivity|]. split.
  - cbn [app List.length]. rewrite length_app. cbn [List.length].
    rewrite <- (Forall2_length Hrows). lia.
  - cbn [csvContent]. apply csv_text_reads_back. discriminate.
Qed.

End CsvRoundTrip.

Lemma exported_csv_reads_back_witness :
  exists file rows,
    Statements.exportToCSV (engine := Sample.engine) (dates := Sample.utc) (data := Sample.data) Sample.januaryAsha =
      Some file /\
    Statements.csvTable (engine := Sample.engine) (dates := Sample.utc) (data := Sample.data) Sample.januaryAsha =
      Some rows /\
    List.length rows =
      (List.length (Statements.transactions (engine := Sample.engine) (dates := Sample.utc) (data := Sample.data)
                                            Sample.januaryAsha) + 3)%nat /\
    Csv.parse (Statements.csvContent file) = Some rows.
Proof.
  exact (exported_csv_reads_back (engine := Sample.engine) (dates := Sample.utc) (data := Sample.data)
           Sample.januaryAsha eq_refl).
Defined.

(** ** Reading an amount back *)

Section AmountRoundTrip.

Local Ltac digit_value :=
  match goal with
  | |- context [Decimal.digitValue ?c] =>
      let v := eval vm_compute in (Decimal.digitValue c) in
      change (Decimal.digitValue c) with v
  end.

Lemma valueOf_uint_acc (d : Decimal.uint) (p : positive) :
  Decimal.valueOf (NilEmpty.string_of_uint d) (Zpos p) = Zpos (Pos.of_uint_acc d p).
Proof.
  revert p. induction d; intros p; cbn [NilEmpty.string_of_uint Decimal.valueOf Pos.of_uint_acc];
    try reflexivity; digit_value; rewrite <- IHd; f_equal; lia.
Qed.

Lemma valueOf_uint (d : Decimal.uint) :
  Decimal.valueOf (NilEmpty.string_of_uint d) 0 = Z.of_N (N.of_uint d).
Proof.
  unfold N.of_uint.
  induction d; cbn [NilEmpty.string_of_uint Decimal.valueOf Pos.of_uint];
    try reflexivity; try exact IHd;
    digit_value; cbn [Z.of_N]; rewrite <- valueOf_uint_acc; f_equal.
Qed.

(** The digits of a number denote it. *)
Lemma valueOf_digits (n : Z) : 0 <= n -> Decimal.valueOf (JS.digits n) 0 = n.
Proof.
  intros Hn. unfold JS.digits, NilZero.string_of_uint.
  pose proof (DecimalN.Unsigned.of_to (Z.to_N n)) as Hback.
  pose proof (valueOf_uint (N.to_uint (Z.to_N n))) as Hv.
  rewrite Hback, Z2N.id in Hv by exact Hn.
  destruct (N.to_uint (Z.to_N n)); exact Hv.
Qed.

Lemma valueOf_zeros (j : nat) (s : string) :
  Decimal.valueOf (JS.repeat_char "0" j ++ s) 0 = Decimal.valueOf s 0.
Proof. induction j as [|j IH]; [reflexivity | exact IH]. Qed.

Lemma splitPoint_digits (int frac : string) :
  Spec.allDigits int = true ->
  Decimal.splitPoint (int ++ "." ++ frac) = Some (int, frac).
Proof.
  induction int as [|c r IH]; intros H; [reflexivity|].
  simpl in H. apply andb_true_iff in H as [Hc Hr].
  cbn [append Decimal.splitPoint].
  destruct (Ascii.eqb_spec c ".") as [->|_]; [discriminate Hc|].
  change (r ++ String "." frac) with (r ++ "." ++ frac). rewrite (IH Hr). reflexivity.
Qed.

(** The text of [toFixed(2)] below [10^21], with the number its digits
    denote. *)
Lemma toFixed2_value (x : Q) :
  (Qabs x < inject_Z (10 ^ 21))%Q ->
  exists int frac,
    JS.toFixed x 2 = (if Qlt_le_dec (Qred x) 0 then "-" else "") ++ int ++ "." ++ frac /\
    int <> "" /\ Spec.allDigits int = true /\
    length frac = 2%nat /\ Spec.allDigits frac = true /\
    Decimal.valueOf (int ++ frac) 0 =
      Qfloor (Qabs (Qred x) * inject_Z (10 ^ Z.of_nat 2) + (1 # 2)).
Proof.
  intros H. unfold JS.toFixed.
  destruct (Qle_bool (inject_Z (10 ^ 21)) (Qabs (Qred x))) eqn:E.
  { apply Qle_bool_iff in E. exfalso. apply (Qlt_not_le _ _ H).
    rewrite <- (Qabs_wd _ _ (Qred_correct x)). exact E. }
  set (n := Qfloor (Qabs (Qred x) * inject_Z (10 ^ Z.of_nat 2) + (1 # 2))).
  assert (Hn : 0 <= n).
  { subst n. rewrite <- (Qfloor_Z 0). apply Qfloor_resp_le.
    pose proof (Qabs_nonneg (Qred x)) as Ha.
    change (inject_Z (10 ^ Z.of_nat 2)) with (100 # 1)%Q. change (inject_Z 0) with 0%Q. lra. }
  pose proof (digits_nonempty n) as Hlen. pose proof (allDigits_digits n) as Hd.
  pose proof (valueOf_digits n Hn) as Hval.
  set (m := JS.digits n) in *. set (k := length m) in *.
  set (m' := if (k <=? 2)%nat then JS.repeat_char "0" (2 + 1 - k) ++ m else m).
  set (k' := if (k <=? 2)%nat then (2 + 1)%nat else k).
  assert (Hk' : length m' = k' /\ (3 <= k')%nat /\ Spec.allDigits m' = true /\
                Decimal.valueOf m' 0 = n).
  { subst m' k'. destruct (k <=? 2)%nat eqn:E'.
    - apply Nat.leb_le in E'. rewrite length_append, length_repeat_char.
      rewrite allDigits_append, allDigits_repeat_zero, Hd, valueOf_zeros. fold k.
      repeat split; lia.
    - apply Nat.leb_gt in E'. fold k. repeat split; try lia; assumption. }
  destruct Hk' as (Hl & Hk3 & Hall & Hv).
  exists (JS.take (k' - 2) m'), (JS.drop (k' - 2) m'). repeat split.
  - intros Habs. apply (f_equal length) in Habs.
    rewrite length_take in Habs by lia. simpl in Habs. lia.
  - apply allDigits_take; exact Hall.
  - rewrite length_drop. lia.
  - apply allDigits_drop; exact Hall.
  - rewrite take_drop. exact Hv.
Qed.

(** What [toFixed(2)] prints is the amount to the nearest hundredth: read
    back as a decimal number, the text of an amount below [10^21] in
    magnitude differs from the amount by at most half a hundredth, and
    is the amount itself when that is a whole number of hundredths. *)
Lemma toFixed2_reads_back (x : Q) :
  (Qabs x < inject_Z (10 ^ 21))%Q ->
  exists v,
    Decimal.readAmount (JS.toFixed x 2) = Some v /\
    (Qabs (v - x) <= 1 # 200)%Q /\
    (forall k : Z, (x == inject_Z k / inject_Z 100)%Q -> (v == x)%Q).
Proof.
  intros Hx.
  destruct (toFixed2_value x Hx) as (int & frac & Heq & Hne & Hint & Hlen & Hfrac & Hval).
  set (n := Qfloor (Qabs (Qred x) * inject_Z (10 ^ Z.of_nat 2) + (1 # 2))) in *.
  assert (Hread : Decimal.readAmount (JS.toFixed x 2) =
                  Some (if Qlt_le_dec (Qred x) 0
                        then (- (inject_Z n / inject_Z 100))%Q
                        else (inject_Z n / inject_Z 100)%Q)).
  { rewrite Heq. unfold Decimal.readAmount.
    assert (Hfne : String.eqb frac "" = false).
    { destruct frac; [discriminate Hlen | reflexivity]. }
    assert (Hine : String.eqb int "" = false).
    { destruct int; [contradiction | reflexivity]. }
    destruct (Qlt_le_dec (Qred x) 0) as [Hneg|Hpos].
    - cbn [append Ascii.eqb Bool.eqb JS.drop].
      change (int ++ String "." frac) with (int ++ "." ++ frac).
      rewrite (splitPoint_digits int frac Hint), Hint, Hfrac, Hine, Hfne, Hval, Hlen.
      reflexivity.
    - cbn [append].
      destruct int as [|c r]; [contradiction|].
      assert (Hc : Ascii.eqb c "-" = false).
      { simpl in Hint. apply andb_true_iff in Hint as [Hc _].
        destruct (Ascii.eqb_spec c "-") as [->|_]; [discriminate Hc | reflexivity]. }
      cbn [append]. rewrite Hc.
      change (String c (r ++ String "." frac)) with (String c r ++ "." ++ frac).
      rewrite (splitPoint_digits (String c r) frac Hint), Hint, Hfrac, Hine, Hfne, Hval, Hlen.
      reflexivity. }
  eexists. split; [exact Hread|].
  pose proof (Qfloor_le (Qabs (Qred x) * inject_Z (10 ^ Z.of_nat 2) + (1 # 2))) as Hlo.
  pose proof (Qlt_floor (Qabs (Qred x) * inject_Z (10 ^ Z.of_nat 2) + (1 # 2))) as Hhi.
  fold n in Hlo, Hhi. rewrite inject_Z_plus in Hhi.
  pose proof (Qred_correct x) as Hred.
  assert (Habs : (Qabs (Qred x) == if Qlt_le_dec (Qred x) 0 then - x else x)%Q).
  { destruct (Qlt_le_dec (Qred x) 0) as [Hneg|Hpos].
    - rewrite Qabs_neg by (apply Qlt_le_weak; exact Hneg). rewrite Hred. reflexivity.
    - rewrite Qabs_pos by exact Hpos. exact Hred. }
  change (inject_Z (10 ^ Z.of_nat 2)) with (100 # 1)%Q in *.
  change (inject_Z 100) with (100 # 1)%Q in *. change (inject_Z 1) with (1 # 1)%Q in *.
  unfold Qdiv. change (/ (100 # 1))%Q with (1 # 100)%Q.
  rewrite Habs in Hlo, Hhi.
  split.
  - set (q := inject_Z n) in *. clearbody q.
    apply Qabs_Qle_condition.
    destruct (Qlt_le_dec (Qred x) 0); split; lra.
  - intros k Hk.
    assert (Hk' : (x * (100 # 1) == inject_Z k)%Q).
    { rewrite Hk. unfold Qdiv. change (/ (100 # 1))%Q with (1 # 100)%Q. ring. }
    assert (Hn : n = if Qlt_le_dec (Qred x) 0 then - k else k).
    { destruct (Qlt_le_dec (Qred x) 0).
      - assert (Hl : (inject_Z n <= inject_Z (- k) + (1 # 2))%Q).
        { rewrite inject_Z_opp. lra. }
        assert (Hu : (inject_Z (- k) + (1 # 2) < inject_Z n + 1)%Q).
        { rewrite inject_Z_opp. lra. }
        clear - Hl Hu. unfold Qle, Qlt, Qplus, inject_Z in *. simpl in *. lia.
      - assert (Hl : (inject_Z n <= inject_Z k + (1 # 2))%Q) by lra.
        assert (Hu : (inject_Z k + (1 # 2) < inject_Z n + 1)%Q) by lra.
        clear - Hl Hu. unfold Qle, Qlt, Qplus, inject_Z in *. simpl in *. lia. }
    rewrite Hn. destruct (Qlt_le_dec (Qred x) 0).
    + rewrite inject_Z_opp. lra.
    + lra.
Qed.

(** X17. The amount cell of a positive amount below [10^21] is the rupee
    sign followed by a decimal numeral that reads back as the amount
    rounded to the nearest hundredth: it is within half a hundredth of
    the amount, and is the amount itself when the amount is a whole
    number of hundredths (paise). *)
Theorem amount_cell_reads_back (x : Q) :
  (0 < x)%Q -> (x < inject_Z (10 ^ 21))%Q ->
  exists s v,
    Statements.amountCell x = rupee ++ s /\
    Decimal.readAmount s = Some v /\
    (Qabs (v - x) <= 1 # 200)%Q /\
    (forall k : Z, (x == inject_Z k / inject_Z 100)%Q -> (v == x)%Q).
Proof.
  intros Hpos Hlt.
  assert (Habs : (Qabs x < inject_Z (10 ^ 21))%Q).
  { rewrite Qabs_pos by (apply Qlt_le_weak; exact Hpos). exact Hlt. }
  destruct (toFixed2_reads_back x Habs) as (v & Hread & Hnear & Hexact).
  exists (JS.toFixed x 2), v. repeat split; try assumption.
  unfold Statements.amountCell. apply gt_zero_iff in Hpos. rewrite Hpos. reflexivity.
Qed.

Lemma amount_cell_reads_back_witness :
  exists s v,
    Statements.amountCell (25 # 2) = rupee ++ s /\
    Decimal.readAmount s = Some v /\
    (Qabs (v - (25 # 2)) <= 1 # 200)%Q /\
    (forall k : Z, ((25 # 2) == inject_Z k / inject_Z 100)%Q -> (v == (25 # 2))%Q).
Proof. apply (amount_cell_reads_back (25 # 2)); reflexivity. Defined.

(** X18. A positive amount below half a paisa is not shown as a dash: the
    test is on the amount, the text on its rounding, so the cell reads
    zero rupees. *)
Theorem amount_cell_of_a_tiny_amount (x : Q) :
  (0 < x)%Q -> (x < 1 # 200)%Q ->
  Statements.amountCell x = rupee ++ "0.00".
Proof.
  intros Hpos Hlt.
  unfold Statements.amountCell. rewrite (proj2 (gt_zero_iff x) Hpos).
  unfold currency. f_equal. unfold JS.toFixed.
  pose proof (Qred_correct x) as Hred.
  destruct (Qlt_le_dec (Qred x) 0) as [Hneg|Hnn]; [lra|].
  assert (Habs : (Qabs (Qred x) == x)%Q) by (rewrite Qabs_pos by exact Hnn; exact Hred).
  destruct (Qle_bool (inject_Z (10 ^ 21)) (Qabs (Qred x))) eqn:E.
  { apply Qle_bool_iff in E. rewrite Habs in E.
    change (inject_Z (10 ^ 21)) with (1000000000000000000000 # 1)%Q in E. lra. }
  assert (Hn : Qfloor (Qabs (Qred x) * inject_Z (10 ^ Z.of_nat 2) + (1 # 2)) = 0).
  { pose proof (Qfloor_le (Qabs (Qred x) * inject_Z (10 ^ Z.of_nat 2) + (1 # 2))) as Hlo.
    pose proof (Qlt_floor (Qabs (Qred x) * inject_Z (10 ^ Z.of_nat 2) + (1 # 2))) as Hhi.
    set (n := Qfloor (Qabs (Qred x) * inject_Z (10 ^ Z.of_nat 2) + (1 # 2))) in *.
    rewrite inject_Z_plus in Hhi.
    change (inject_Z (10 ^ Z.of_nat 2)) with (100 # 1)%Q in *.
    change (inject_Z 1) with (1 # 1)%Q in *.
    rewrite Habs in Hlo, Hhi.
    assert (Hl : (inject_Z n < 1)%Q) by lra.
    assert (Hu : (0 < inject_Z n + 1)%Q) by lra.
    clearbody n. clear - Hl Hu. unfold Qlt, Qplus, inject_Z in *. simpl in *. lia. }
  rewrite Hn. reflexivity.
Qed.

Lemma amount_cell_of_a_tiny_amount_witness :
  Statements.amountCell (1 # 250) = rupee ++ "0.00".
Proof. apply (amount_cell_of_a_tiny_amount (1 # 250)); reflexivity. Defined.

End AmountRoundTrip.
